(** * UniTest result page: response reconciliation

    A shallow embedding of the client-side reconciliation logic of
    [src/pages/[...slug].js]: the response normalizer, the status
    classifier, the commentary helpers, the two polling engines and the
    chat timeline builder, together with the properties the design
    document states about them.  After these come the values the page
    derives for rendering, the server-side preparation of the page, the
    API routes and the home page, with further properties read off the
    code.

    The page works on values produced by [JSON.parse], so the embedding
    starts with a small model of those values and of the handful of
    JavaScript primitives the page applies to them. *)

From Stdlib Require Import ZArith NArith Ascii String DecimalString DecimalPos.
From stdpp Require Import gmap list sorting.

Set Warnings "-register-all".

Local Open Scope Z_scope.

(** ** Strings

    A JavaScript string is a sequence of UTF-16 code units; [length],
    [slice] and the regular expressions of the page all count code
    units. *)

Abbreviation jsstring := (list N).

(** String literals of the source (all ASCII). *)
Definition lit (s : string) : jsstring :=
  List.map N_of_ascii (list_ascii_of_string s).

(** U+2026, the single code unit the page appends when truncating. *)
Definition ellipsis : N := 8230%N.
Definition space : N := 32%N.

(** [\s] in a regular expression and the set stripped by [trim] are the
    same: WhiteSpace and LineTerminator of ECMA-262. *)
Definition isWS (c : N) : bool :=
  ((9 <=? c) && (c <=? 13) || (c =? 32) || (c =? 160) || (c =? 5760)
   || (8192 <=? c) && (c <=? 8202) || (c =? 8232) || (c =? 8233)
   || (c =? 8239) || (c =? 8287) || (c =? 12288) || (c =? 65279))%N.

Fixpoint trimStart (s : jsstring) : jsstring :=
  match s with
  | c :: s' => if isWS c then trimStart s' else s
  | [] => []
  end.

Definition trim (s : jsstring) : jsstring :=
  rev (trimStart (rev (trimStart s))).

(** [toLowerCase].  Code units A-Z map to a-z.  Of all other code units
    only U+212A (Kelvin sign, to k) and U+0130 (to i followed by U+0307)
    have a lower-case form containing an ASCII letter; every other
    mapping of the Unicode table stays outside ASCII and is left out, as
    the page only ever compares the result with ASCII constants. *)
Definition lowerUnit (c : N) : jsstring :=
  (if (65 <=? c) && (c <=? 90) then [c + 32]
   else if c =? 8490 then [107]
   else if c =? 304 then [105; 775]
   else [c])%N.

Definition toLowerCase (s : jsstring) : jsstring := flat_map lowerUnit s.

(** [haystack.includes(needle)] on strings. *)
Fixpoint startsWith (needle s : jsstring) : bool :=
  match needle, s with
  | [], _ => true
  | _ :: _, [] => false
  | a :: needle', b :: s' => (a =? b)%N && startsWith needle' s'
  end.

Fixpoint includes (s needle : jsstring) : bool :=
  startsWith needle s ||
  match s with
  | [] => false
  | _ :: s' => includes s' needle
  end.

(** ** Values *)

(** What [JSON.parse] returns, plus [undefined] for absent properties.
    Numbers are kept as integers: the page never computes with a number
    it received, it only tests and prints them. *)
Inductive value : Type :=
| VUndef
| VNull
| VBool (b : bool)
| VNum (n : Z)
| VStr (s : jsstring)
| VArr (l : list value)
| VObj (m : gmap jsstring value).

Abbreviation VLit s := (VStr (lit s)).

(** A thrown exception.  The only exceptions the modelled code can
    raise by itself are [TypeError]s; failed requests are part of
    [fetch_result] below. *)
Inductive res (A : Type) : Type :=
| Ok (a : A)
| Throw.
Arguments Ok {A} a.
Arguments Throw {A}.

Definition bind {A B} (m : res A) (k : A → res B) : res B :=
  match m with
  | Ok a => k a
  | Throw => Throw
  end.

Notation "'let*' x ':=' m 'in' k" := (bind m (fun x => k))
  (at level 10, x name, m at level 100, k at level 200).

(** [!!v] *)
Definition truthy (v : value) : bool :=
  match v with
  | VUndef | VNull => false
  | VBool b => b
  | VNum n => negb (n =? 0)
  | VStr s => match s with [] => false | _ => true end
  | VArr _ | VObj _ => true
  end.

(** [typeof v === 'object'] *)
Definition typeofObject (v : value) : bool :=
  match v with
  | VNull | VArr _ | VObj _ => true
  | _ => false
  end.

Definition typeofString (v : value) : bool :=
  match v with VStr _ => true | _ => false end.

Definition isArray (v : value) : bool :=
  match v with VArr _ => true | _ => false end.

(** [a || b] on values. *)
Definition orElse (a b : value) : value := if truthy a then a else b.

(** Decimal form of an integer, as [String(n)] prints it.  The numbers
    of the model are the integers; [String] prints an integer in plain
    digits as long as its magnitude is below 10^21 (it turns to the
    exponent form from there on), which covers the time values,
    lengths and counts the page prints. *)
Definition decimal (n : Z) : jsstring :=
  lit (NilZero.string_of_int (Z.to_int n)).

Definition indexKey (i : nat) : jsstring := decimal (Z.of_nat i).

(** The own enumerable properties of a value, as object spread
    [{...v}] copies them: the entries of an object, the elements of an
    array and the units of a string under their indices, nothing for
    the rest. *)
Definition ownProps (v : value) : gmap jsstring value :=
  match v with
  | VObj m => m
  | VArr l => list_to_map (imap (fun i x => (indexKey i, x)) l)
  | VStr s => list_to_map (imap (fun i c => (indexKey i, VStr [c])) s)
  | _ => ∅
  end.

(** An array index written as a property key: the decimal form of a
    natural number, without leading zeros. *)
Fixpoint parseDigits (acc : N) (k : jsstring) : option N :=
  match k with
  | [] => Some acc
  | c :: k' =>
      if ((48 <=? c) && (c <=? 57))%N
      then parseDigits (acc * 10 + (c - 48))%N k'
      else None
  end.

Definition parseIndex (k : jsstring) : option nat :=
  match k with
  | [] => None
  | [48%N] => Some 0%nat
  | 48%N :: _ => None
  | _ => option_map N.to_nat (parseDigits 0 k)
  end.

(** [v[k]] and [v.k] for the keys the page reads ([id], [status],
    [segments], [length], [0], ...).  Reading a property of [null] or
    [undefined] throws. *)
Definition getProp (v : value) (k : jsstring) : res value :=
  match v with
  | VUndef | VNull => Throw
  | VObj m => Ok (default VUndef (m !! k))
  | VArr l =>
      if decide (k = lit "length") then Ok (VNum (Z.of_nat (length l)))
      else
        match parseIndex k with
        | Some i => Ok (default VUndef (l !! i))
        | None => Ok VUndef
        end
  | VStr s =>
      if decide (k = lit "length") then Ok (VNum (Z.of_nat (length s)))
      else
        match parseIndex k with
        | Some i => Ok (from_option (fun c => VStr [c]) VUndef (s !! i))
        | None => Ok VUndef
        end
  | VBool _ | VNum _ => Ok VUndef
  end.

(** [v?.[k]] and [v?.k] *)
Definition getPropOpt (v : value) (k : jsstring) : value :=
  match getProp v k with
  | Ok x => x
  | Throw => VUndef
  end.

(** [a === b].  Objects and arrays carry no identity here; comparing
    two of them yields [false], which is what [===] gives for the
    results of separate [JSON.parse] calls. *)
Definition strictEq (a b : value) : bool :=
  match a, b with
  | VUndef, VUndef | VNull, VNull => true
  | VBool x, VBool y => bool_decide (x = y)
  | VNum x, VNum y => bool_decide (x = y)
  | VStr x, VStr y => bool_decide (x = y)
  | _, _ => false
  end.

Fixpoint joinWith (sep : jsstring) (l : list jsstring) : jsstring :=
  match l with
  | [] => []
  | [x] => x
  | x :: l' => x ++ sep ++ joinWith sep l'
  end.

Fixpoint sequence {A} (l : list (res A)) : res (list A) :=
  match l with
  | [] => Ok []
  | m :: l' => let* x := m in let* xs := sequence l' in Ok (x :: xs)
  end.

(** [String(v)] and template-literal interpolation.  An array prints
    the comma-joined forms of its elements ([null] and [undefined] as
    the empty string); a plain object prints as [[object Object]],
    unless it shadows [toString] with a JSON value, in which case the
    conversion finds nothing callable that returns a primitive and
    throws. *)
Fixpoint ToString (v : value) : res jsstring :=
  match v with
  | VUndef => Ok (lit "undefined")
  | VNull => Ok (lit "null")
  | VBool b => Ok (if b then lit "true" else lit "false")
  | VNum n => Ok (decimal n)
  | VStr s => Ok s
  | VArr l =>
      let* parts :=
        sequence (List.map (fun e =>
                              match e with
                              | VUndef | VNull => Ok []
                              | _ => ToString e
                              end) l) in
      Ok (joinWith (lit ",") parts)
  | VObj m =>
      if decide (is_Some (m !! lit "toString")) then Throw
      else Ok (lit "[object Object]")
  end.

(** ** Response normalizer and status classifier

    [isTerminal], [normalizeResponse], [extractLatestCommentary] and
    [formatCommentary] of the page, in the order of the source. *)

Definition TERMINAL_STATUSES : gset jsstring :=
  {[ lit "completed"; lit "failed"; lit "cancelled" ]}.

Definition isTerminal (status : value) : res bool :=
  if negb (truthy status) then Ok false
  else
    let* s := ToString status in
    Ok (bool_decide (toLowerCase s ∈ TERMINAL_STATUSES)).

Definition normalizeResponse (resp : value) : res value :=
  if negb (truthy resp) || negb (typeofObject resp) then Ok VNull
  else
    let* s := getProp resp (lit "segments") in
    let segments := if isArray s then s else VArr [] in
    let* o := getProp resp (lit "output_content") in
    let output := if isArray o then o else VArr [] in
    Ok (VObj (<[lit "output_content" := output]>
                (<[lit "segments" := segments]> (ownProps resp)))).

(** A value that is an object in the sense of the normalizer: not
    [null], and of type [object]. *)
Definition isObject (v : value) : bool :=
  match v with
  | VArr _ | VObj _ => true
  | _ => false
  end.

(** [(v).toLowerCase()]: only strings have the method; on any other
    value of this model the property is missing or not callable. *)
Definition callToLowerCase (v : value) : res jsstring :=
  match v with
  | VStr s => Ok (toLowerCase s)
  | _ => Throw
  end.

(** The loop of [extractLatestCommentary], over the entries listed from
    the last one to the first. *)
Fixpoint scanCommentary (entries : list value) : res value :=
  match entries with
  | [] => Ok VNull
  | entry :: rest =>
      if negb (truthy entry) || negb (typeofObject entry) then
        scanCommentary rest
      else
        let* t := getProp entry (lit "type") in
        let* type := callToLowerCase (orElse t (VStr [])) in
        if bool_decide (type = lit "commentary") then
          let text :=
            orElse (orElse (getPropOpt entry (lit "text"))
                           (getPropOpt entry (lit "content")))
                   (VStr []) in
          match text with
          | VStr s =>
              if truthy (VStr (trim s)) then Ok text else scanCommentary rest
          | _ => scanCommentary rest
          end
        else scanCommentary rest
  end.

Definition extractLatestCommentary (segments : value) : res value :=
  match segments with
  | VArr l => scanCommentary (rev l)
  | _ => Ok VNull
  end.

(** [s.replace(/\s+/g, ' ')]: every maximal run of white space becomes
    one space; [inRun] tells that the previous unit belonged to a run
    already replaced. *)
Fixpoint collapseGo (inRun : bool) (s : jsstring) : jsstring :=
  match s with
  | [] => []
  | c :: s' =>
      if isWS c then
        if inRun then collapseGo true s' else space :: collapseGo true s'
      else c :: collapseGo false s'
  end.

Definition collapseWS (s : jsstring) : jsstring := collapseGo false s.

Definition isTerminator (c : N) : bool :=
  ((c =? 46) || (c =? 33) || (c =? 63))%N.

(** [s.split(/(?<=[.!?])\s+/)]: a separator is a maximal run of white
    space whose first unit directly follows a sentence terminator.
    [skipping] holds while the units of a separator are consumed,
    [afterTerm] tells whether the previous unit was a terminator, [acc]
    is the current piece, reversed. *)
Fixpoint splitGo (skipping afterTerm : bool) (acc s : jsstring)
  : list jsstring :=
  match s with
  | [] => [rev acc]
  | c :: s' =>
      if isWS c then
        if skipping then splitGo true false [] s'
        else if afterTerm then rev acc :: splitGo true false [] s'
        else splitGo false false (c :: acc) s'
      else splitGo false (isTerminator c) (c :: acc) s'
  end.

Definition splitSentences (s : jsstring) : list jsstring :=
  splitGo false false [] s.

Definition nonEmpty (s : jsstring) : bool :=
  match s with [] => false | _ => true end.

Definition truncated (cleaned : jsstring) : jsstring :=
  take 137 cleaned ++ [ellipsis].

Definition formatCommentary (commentary : value) : res value :=
  if negb (truthy commentary) then Ok VNull
  else
    let* str := ToString commentary in
    let cleaned := trim (collapseWS str) in
    if negb (nonEmpty cleaned) then Ok VNull
    else if (length cleaned <=? 140)%nat then Ok (VStr cleaned)
    else
      let sentences := List.filter nonEmpty (splitSentences cleaned) in
      match last sentences with
      | Some lastSentence =>
          if (length lastSentence <=? 140)%nat then Ok (VStr lastSentence)
          else Ok (VStr (truncated cleaned))
      | None => Ok (VStr (truncated cleaned))
      end.

(** ** Requests and the host

    A request either fails before a response arrives, or yields a
    response with its [ok] flag and the outcome of [res.json()], which
    throws when the body is not JSON. *)
Inductive fetch_result : Type :=
| NetworkError
| HttpResponse (ok : bool) (json : res value).

(** The two library routines whose results the page only compares:
    [Date.parse] ([None] stands for NaN, an invalid date) and the
    comparison [ToNumber(s) > n] of a string with a number. *)
Record host : Type := Host {
  DateParse : jsstring → option Z;
  StringToNumberGt : jsstring → Z → bool
}.

(** Time values are integers of magnitude at most 8.64e15. *)
Definition TimeClip (t : Z) : option Z :=
  if Z.abs t <=? 8640000000000000 then Some t else None.

(** [new Date(v)], as its time value. *)
Definition newDate (h : host) (v : value) : res (option Z) :=
  match v with
  | VUndef => Ok None
  | VNull => Ok (Some 0)
  | VBool b => Ok (Some (if b then 1 else 0))
  | VNum n => Ok (TimeClip n)
  | VStr s => Ok (DateParse h s)
  | VArr _ | VObj _ => let* s := ToString v in Ok (DateParse h s)
  end.

(** [a - b] on time values, NaN when either is. *)
Definition dateMinus (a b : option Z) : option Z :=
  match a, b with
  | Some x, Some y => Some (x - y)
  | _, _ => None
  end.

(** [x > n] for a number [x] that may be NaN. *)
Definition numGt (x : option Z) (n : Z) : bool :=
  match x with
  | Some v => n <? v
  | None => false
  end.

(** [v > n] for an arbitrary value. *)
Definition valueGt (h : host) (v : value) (n : Z) : res bool :=
  match v with
  | VUndef => Ok false
  | VNull => Ok (n <? 0)
  | VBool b => Ok (n <? (if b then 1 else 0))
  | VNum k => Ok (n <? k)
  | VStr s => Ok (StringToNumberGt h s n)
  | VArr _ | VObj _ => let* s := ToString v in Ok (StringToNumberGt h s n)
  end.

(** [recv.includes(needle)] with a string argument: the string method,
    the array method, or a [TypeError] where the property is missing or
    not callable. *)
Definition callIncludes (recv : value) (needle : jsstring) : res bool :=
  match recv with
  | VStr s => Ok (includes s needle)
  | VArr l => Ok (existsb (fun e => strictEq e (VStr needle)) l)
  | _ => Throw
  end.

(** The liveness side query: [GET /agents/{agent}/state] answered
    [state === 'slept'].  Every failure on the way is swallowed by the
    inner [try]/[catch]. *)
Definition agentSlept (reply : fetch_result) : bool :=
  match reply with
  | HttpResponse true (Ok agentData) =>
      match getProp agentData (lit "state") with
      | Ok st => strictEq st (VLit "slept")
      | Throw => false
      end
  | _ => false
  end.

(** [status === 'pending' || status === 'processing'] *)
Definition pendingOrProcessing (status : value) : bool :=
  strictEq status (VLit "pending") || strictEq status (VLit "processing").

(** ** Primary polling engine *)

Record poll_state : Type := PollState {
  response : value;
  pollError : option jsstring;
  isPolling : bool
}.

Definition advisory : jsstring :=
  lit "Temporary issue polling agent status" ++ [ellipsis].

Definition pollCatch (cancelled : bool) (st : poll_state) : poll_state :=
  if cancelled then st
  else {| response := response st; pollError := Some advisory;
          isPolling := isPolling st |}.

(** One run of the interval callback: [reply] is what the request for
    the tracked response produced, [cancelled] the value of the
    teardown flag when it resolved.  Clearing the interval goes with
    [isPolling := false]. *)
Definition pollTick (cancelled : bool) (reply : fetch_result)
    (st : poll_state) : poll_state :=
  match reply with
  | HttpResponse true (Ok body) =>
      match normalizeResponse body with
      | Ok data =>
          if negb cancelled && truthy data then
            let st1 := {| response := data; pollError := None;
                          isPolling := isPolling st |} in
            match (let* status := getProp data (lit "status") in
                   isTerminal status) with
            | Ok true => {| response := data; pollError := None;
                            isPolling := false |}
            | Ok false => st1
            | Throw => pollCatch cancelled st1
            end
          else st
      | Throw => pollCatch cancelled st
      end
  | _ => pollCatch cancelled st
  end.

Definition pollTicks (replies : list fetch_result) (st : poll_state)
  : poll_state :=
  foldl (fun st reply => pollTick false reply st) st replies.

(** ** Chat messages *)

Inductive msg_type : Type := User | Agent | Error.

(** [new Date().toISOString()] is kept as the instant it prints. *)
Inductive timestamp : Type :=
| TsValue (v : value)
| TsNow (now : Z).

(** [v || new Date().toISOString()] *)
Definition tsOrNow (v : value) (now : Z) : timestamp :=
  if truthy v then TsValue v else TsNow now.

Record message : Type := Message {
  msg_id : value;
  msg_type_of : msg_type;
  msg_content : jsstring;
  msg_timestamp : timestamp;
  msg_response : value;
  msg_status : value;
  msg_agentState : value
}.

(** ** Chat polling engine *)

Record chat_poll_state : Type := ChatPollState {
  chatMessages : list message;
  isChatPolling : bool;
  currentChatResponseId : value
}.

(** [{ ...msg, response, status }] and
    [{ ...msg, response, status: 'busy_timeout', agentState: 'slept' }] *)
Definition withResponse (data status : value) (msg : message) : message :=
  {| msg_id := msg_id msg; msg_type_of := msg_type_of msg;
     msg_content := msg_content msg; msg_timestamp := msg_timestamp msg;
     msg_response := data; msg_status := status;
     msg_agentState := msg_agentState msg |}.

Definition withBusyTimeout (data : value) (msg : message) : message :=
  {| msg_id := msg_id msg; msg_type_of := msg_type_of msg;
     msg_content := msg_content msg; msg_timestamp := msg_timestamp msg;
     msg_response := data; msg_status := VLit "busy_timeout";
     msg_agentState := VLit "slept" |}.

(** [prev.map(msg => msg.id === currentChatResponseId ? f(msg) : msg)].
    Identifiers are strings or numbers in the data model; for an
    identifier that is an array or an object [===] compares references,
    which [strictEq] does not follow (it answers [false]). *)
Definition updateCurrent (cur : value) (f : message → message)
    (msgs : list message) : list message :=
  List.map (fun msg => if strictEq (msg_id msg) cur then f msg else msg) msgs.

(** What one run of the chat interval callback did: the new state, and
    whether it sent the liveness side query. *)
Record chat_tick_result : Type := ChatTick {
  chat_after : chat_poll_state;
  sideQuery : bool
}.

Definition chatStop (msgs : list message) : chat_poll_state :=
  {| chatMessages := msgs; isChatPolling := false;
     currentChatResponseId := VNull |}.

(** One run of the chat interval callback.  [agentReply] is what the
    liveness query would produce; it is consulted only when the query
    is sent. *)
Definition chatPollTick (cancelled : bool) (reply agentReply : fetch_result)
    (st : chat_poll_state) : chat_tick_result :=
  let idle := {| chat_after := st; sideQuery := false |} in
  match reply with
  | HttpResponse true (Ok body) =>
      match normalizeResponse body with
      | Ok data =>
          if negb cancelled && truthy data then
            match getProp data (lit "status") with
            | Ok status =>
                let cur := currentChatResponseId st in
                let asked := pendingOrProcessing status in
                if asked && agentSlept agentReply then
                  {| chat_after :=
                       chatStop (updateCurrent cur (withBusyTimeout data)
                                   (chatMessages st));
                     sideQuery := true |}
                else
                  let msgs := updateCurrent cur (withResponse data status)
                                (chatMessages st) in
                  match isTerminal status with
                  | Ok true =>
                      {| chat_after := chatStop msgs; sideQuery := asked |}
                  | _ =>
                      {| chat_after :=
                           {| chatMessages := msgs;
                              isChatPolling := isChatPolling st;
                              currentChatResponseId := cur |};
                         sideQuery := asked |}
                  end
            | Throw => idle
            end
          else idle
      | Throw => idle
      end
  | _ => idle
  end.

(** ** Chat timeline builder *)

Fixpoint filterM {A} (p : A → res bool) (l : list A) : res (list A) :=
  match l with
  | [] => Ok []
  | x :: l' =>
      let* keep := p x in
      let* rest := filterM p l' in
      Ok (if keep then x :: rest else rest)
  end.

(** [r.input_content?.[0]?.content || ''] *)
Definition inputContentOf (r : value) : res value :=
  let* ic := getProp r (lit "input_content") in
  Ok (orElse (getPropOpt (getPropOpt ic (lit "0")) (lit "content")) (VStr [])).

(** The callback given to [allResponses.filter]. *)
Definition chatFilter (h : host) (derivedResponseId r : value) : res bool :=
  if negb (truthy r) then Ok false
  else
    let* id := getProp r (lit "id") in
    if negb (truthy id) then Ok false
    else if strictEq id derivedResponseId then Ok false
    else
      let* inputContent := inputContentOf r in
      let* len := getProp inputContent (lit "length") in
      let* long := valueGt h len 500 in
      if long then Ok false
      else
        let* clone := callIncludes inputContent (lit "Clone") in
        if clone then
          let* step := callIncludes inputContent (lit "**Step 1:") in
          Ok (negb step)
        else Ok true.

(** [new Date(a.created_at || 0)] *)
Definition dateKey (h : host) (a : value) : res (option Z) :=
  let* c := getProp a (lit "created_at") in
  newDate h (orElse c (VNum 0)).

(** [dateA - dateB] is not positive (a NaN difference counts as 0). *)
Definition cmpLe (ka kb : option Z) : bool := negb (numGt (dateMinus ka kb) 0).

(** [Array.prototype.sort] is stable; on a consistent comparator its
    result is the one of any stable sort, here insertion from the
    right.  (When some difference is NaN the comparator is not
    consistent and the language leaves the order to the engine.) *)
Fixpoint insertByDate (x : option Z * value) (l : list (option Z * value))
  : list (option Z * value) :=
  match l with
  | [] => [x]
  | y :: l' => if cmpLe x.1 y.1 then x :: l else y :: insertByDate x l'
  end.

Definition isort (l : list (option Z * value)) : list (option Z * value) :=
  foldr insertByDate [] l.

(** [.sort((a, b) => new Date(a.created_at || 0) - new Date(b.created_at || 0))].
    The comparator is not called on fewer than two elements. *)
Definition sortByDate (h : host) (l : list value) : res (list value) :=
  match l with
  | [] | [_] => Ok l
  | _ =>
      let* keyed :=
        sequence (List.map (fun a => let* k := dateKey h a in Ok (k, a)) l) in
      Ok (List.map snd (isort keyed))
  end.

(** What the [i]-th iteration of the conversion loop observes: the
    clock, and the reply the liveness query gets if it is sent. *)
Record iter_env : Type := IterEnv {
  clock : Z;
  stateReply : fetch_result
}.

(** The user message extracted from [resp.input_content]. *)
Definition userContentOf (resp : value) : res jsstring :=
  let* ic := getProp resp (lit "input_content") in
  if truthy ic && isArray ic then
    let* len := getProp ic (lit "length") in
    match len with
    | VNum n =>
        if 0 <? n then
          let* firstContent := getProp ic (lit "0") in
          if truthy firstContent then
            let* c := getProp firstContent (lit "content") in
            match c with
            | VStr s => Ok s
            | _ => Ok []
            end
          else Ok []
        else Ok []
    | _ => Ok []
    end
  else Ok [].

Definition STALE_MS : Z := 3600000.

Record history_step : Type := HistoryStep {
  emitted : list message;
  askedAgent : bool
}.

(** The body of the loop over [chatResponses]. *)
Definition historyStep (h : host) (e : iter_env) (resp : value)
  : res history_step :=
  let skip := Ok {| emitted := []; askedAgent := false |} in
  if negb (truthy resp) then skip
  else
    let* id := getProp resp (lit "id") in
    if negb (truthy id) then skip
    else
      let* userContent := userContentOf resp in
      if negb (nonEmpty userContent) || (length (trim userContent) =? 0)%nat
      then skip
      else
        let* idStr := ToString id in
        let* created := getProp resp (lit "created_at") in
        let user :=
          {| msg_id := VStr (lit "user-" ++ idStr); msg_type_of := User;
             msg_content := userContent;
             msg_timestamp := tsOrNow created (clock e);
             msg_response := VUndef; msg_status := VUndef;
             msg_agentState := VUndef |} in
        let* status := getProp resp (lit "status") in
        let* d := newDate h created in
        let responseAge := dateMinus (Some (clock e)) d in
        let isStale := numGt responseAge STALE_MS in
        let asked := pendingOrProcessing status && isStale in
        let finalStatus :=
          if asked && agentSlept (stateReply e) then VLit "busy_timeout"
          else status in
        let* updated := getProp resp (lit "updated_at") in
        let* data := normalizeResponse resp in
        let agent :=
          {| msg_id := id; msg_type_of := Agent;
             msg_content := userContent;
             msg_timestamp :=
               if truthy updated then TsValue updated
               else tsOrNow created (clock e);
             msg_response := data; msg_status := finalStatus;
             msg_agentState :=
               if strictEq finalStatus (VLit "busy_timeout")
               then VLit "slept" else VUndef |} in
        Ok {| emitted := [user; agent]; askedAgent := asked |}.

(** The loop, from iteration [i] on. *)
Fixpoint historyLoop (h : host) (env : nat → iter_env) (i : nat)
    (rs : list value) : res (list history_step) :=
  match rs with
  | [] => Ok []
  | resp :: rs' =>
      let* st := historyStep h (env i) resp in
      let* rest := historyLoop h env (S i) rs' in
      Ok (st :: rest)
  end.

(** The [try] block of [loadChatHistory] after the list was fetched:
    filter, sort, convert. *)
Definition chatResponsesOf (h : host) (derivedResponseId allResponses : value)
  : res (list value) :=
  match allResponses with
  | VArr l =>
      let* kept := filterM (chatFilter h derivedResponseId) l in
      sortByDate h kept
  | _ => Ok []
  end.

Definition buildHistory (h : host) (derivedResponseId : value)
    (env : nat → iter_env) (allResponses : value) : res (list history_step) :=
  let* chatResponses := chatResponsesOf h derivedResponseId allResponses in
  historyLoop h env 0 chatResponses.

Definition buildTimeline (h : host) (derivedResponseId : value)
    (env : nat → iter_env) (allResponses : value) : res (list message) :=
  let* steps := buildHistory h derivedResponseId env allResponses in
  Ok (concat (List.map emitted steps)).

(** ** The chat section of the page

    The state the chat handlers of the page share, and the events that
    change it.  The agent name is taken as known: without it the page
    shows the missing-setup card and none of the handlers below runs. *)

Record page_state : Type := PageState {
  timeline : list message;
  isSendingChat : bool;
  (** the [userMessage] held by a running [handleChatSubmit] *)
  inFlight : option jsstring;
  chatResponseId : value;
  chatPolling : bool;
  isChatHistoryLoaded : bool
}.

Definition initialPage : page_state :=
  {| timeline := []; isSendingChat := false; inFlight := None;
     chatResponseId := VNull; chatPolling := false;
     isChatHistoryLoaded := false |}.

(** A run of [loadChatHistory] checks [isChatHistoryLoaded] when it
    starts and writes the timeline when it ends, so its end is an event
    that can meet any later state. *)
Inductive page_event : Type :=
(** a run of [loadChatHistory] comes to its end *)
| EvHistory (h : host) (derivedResponseId : value) (reply : fetch_result)
    (env : nat → iter_env)
(** the form is submitted: [handleChatSubmit] up to its request *)
| EvSubmit (chatInput : jsstring) (now : Z)
(** the request of [handleChatSubmit] resolves: the rest of the handler *)
| EvSubmitReply (reply : fetch_result) (now : Z)
(** the chat interval callback runs *)
| EvChatTick (cancelled : bool) (reply agentReply : fetch_result).

Definition liveUser (userMessage : jsstring) (now : Z) : message :=
  {| msg_id := VStr (decimal now); msg_type_of := User;
     msg_content := userMessage; msg_timestamp := TsNow now;
     msg_response := VUndef; msg_status := VUndef;
     msg_agentState := VUndef |}.

Definition liveAgent (userMessage : jsstring) (now : Z)
    (chatResponse id status : value) : message :=
  {| msg_id := id; msg_type_of := Agent; msg_content := userMessage;
     msg_timestamp := TsNow now; msg_response := chatResponse;
     msg_status := status; msg_agentState := VUndef |}.

Definition liveError (now : Z) : message :=
  {| msg_id := VStr (decimal now); msg_type_of := Error;
     msg_content := lit "Failed to send message. Please try again.";
     msg_timestamp := TsNow now; msg_response := VUndef;
     msg_status := VUndef; msg_agentState := VUndef |}.

(** The placeholder pushed after a successful submission; none when
    the request failed, the status is not 2xx or the body cannot be
    read, which the [catch] block answers with the error message.  The
    updater that pushes the placeholder reads [chatResponse.id] and
    [chatResponse.status] when the page renders next, outside the [try]
    block: on a body that is [null] it throws there and the page is
    gone ([Throw]). *)
Definition placeholderOf (userMessage : jsstring) (now : Z)
    (reply : fetch_result) : res (option message) :=
  match reply with
  | HttpResponse true (Ok chatResponse) =>
      let* id := getProp chatResponse (lit "id") in
      let* status := getProp chatResponse (lit "status") in
      Ok (Some (liveAgent userMessage now chatResponse id status))
  | _ => Ok None
  end.

(** [loadChatHistory], from the reply to the request for the list of
    responses to the state it leaves.  Every failure, and every
    exception while the messages are built, only marks the history as
    loaded. *)
Definition loadChatHistory (h : host) (derivedResponseId : value)
    (reply : fetch_result) (env : nat → iter_env) (st : page_state)
  : page_state :=
  let msgs :=
    match reply with
    | HttpResponse true (Ok allResponses) =>
        match buildTimeline h derivedResponseId env allResponses with
        | Ok msgs => msgs
        | Throw => timeline st
        end
    | _ => timeline st
    end in
  {| timeline := msgs; isSendingChat := isSendingChat st;
     inFlight := inFlight st; chatResponseId := chatResponseId st;
     chatPolling := chatPolling st; isChatHistoryLoaded := true |}.

(** [handleChatSubmit] up to its request. *)
Definition handleChatSubmit (chatInput : jsstring) (now : Z)
    (st : page_state) : page_state :=
  if negb (nonEmpty (trim chatInput)) || isSendingChat st then st
  else
    {| timeline := timeline st ++ [liveUser (trim chatInput) now];
       isSendingChat := true; inFlight := Some (trim chatInput);
       chatResponseId := chatResponseId st;
       chatPolling := chatPolling st;
       isChatHistoryLoaded := isChatHistoryLoaded st |}.

(** [handleChatSubmit] from the reply to its request on, up to the
    next rendering: the placeholder and the start of chat polling, or
    the error message, and [setIsSendingChat(false)] in either case. *)
Definition handleChatSubmitReply (reply : fetch_result) (now : Z)
    (st : page_state) : res page_state :=
  match inFlight st with
  | None => Ok st
  | Some userMessage =>
      let* placeholder := placeholderOf userMessage now reply in
      Ok (match placeholder with
          | Some agent =>
              {| timeline := timeline st ++ [agent];
                 isSendingChat := false; inFlight := None;
                 chatResponseId := msg_id agent; chatPolling := true;
                 isChatHistoryLoaded := isChatHistoryLoaded st |}
          | None =>
              {| timeline := timeline st ++ [liveError now];
                 isSendingChat := false; inFlight := None;
                 chatResponseId := chatResponseId st;
                 chatPolling := chatPolling st;
                 isChatHistoryLoaded := isChatHistoryLoaded st |}
          end)
  end.

(** The chat polling effect is installed while a chat response is
    tracked; its callback works on the timeline. *)
Definition chatPollEffect (cancelled : bool) (reply agentReply : fetch_result)
    (st : page_state) : page_state :=
  if chatPolling st && truthy (chatResponseId st) then
    let r := chatPollTick cancelled reply agentReply
               {| chatMessages := timeline st;
                  isChatPolling := chatPolling st;
                  currentChatResponseId := chatResponseId st |} in
    {| timeline := chatMessages (chat_after r);
       isSendingChat := isSendingChat st; inFlight := inFlight st;
       chatResponseId := currentChatResponseId (chat_after r);
       chatPolling := isChatPolling (chat_after r);
       isChatHistoryLoaded := isChatHistoryLoaded st |}
  else st.

(** One event and the rendering that follows it; [Throw] is the page
    brought down by an exception while it renders. *)
Definition pageStep (st : page_state) (ev : page_event) : res page_state :=
  match ev with
  | EvHistory h cur reply env => Ok (loadChatHistory h cur reply env st)
  | EvSubmit chatInput now => Ok (handleChatSubmit chatInput now st)
  | EvSubmitReply reply now => handleChatSubmitReply reply now st
  | EvChatTick cancelled reply agentReply =>
      Ok (chatPollEffect cancelled reply agentReply st)
  end.

Fixpoint runFrom (st : page_state) (evs : list page_event)
  : res page_state :=
  match evs with
  | [] => Ok st
  | ev :: evs' => let* st' := pageStep st ev in runFrom st' evs'
  end.

Definition runPage (evs : list page_event) : res page_state :=
  runFrom initialPage evs.

(** ** Notions used to state the properties

    What follows is not code of the page: predicates and functions that
    word the design document, and the data of the examples. *)

(** The text of a segment entry: [entry.text || entry.content || ''] *)
Definition entryText (entry : value) : value :=
  orElse (orElse (getPropOpt entry (lit "text"))
                 (getPropOpt entry (lit "content")))
         (VStr []).

(** An entry that counts as commentary: an object whose type is, up to
    case, [commentary] and whose text is a string that is not blank. *)
Definition isCommentary (entry : value) : bool :=
  isObject entry &&
  match getPropOpt entry (lit "type") with
  | VStr t => bool_decide (toLowerCase t = lit "commentary")
  | _ => false
  end &&
  match entryText entry with
  | VStr s => nonEmpty (trim s)
  | _ => false
  end.

(** The type of an entry is a string whenever it is present. *)
Definition typedEntry (entry : value) : bool :=
  let t := getPropOpt entry (lit "type") in
  negb (isObject entry) || negb (truthy t) || typeofString t.

Definition typedSegments (segments : value) : bool :=
  match segments with
  | VArr l => forallb typedEntry l
  | _ => true
  end.




(** The words of a string: its maximal runs of units that are not
    white space. *)
Definition headIsWord (s : jsstring) : bool :=
  match s with
  | c :: _ => negb (isWS c)
  | [] => false
  end.

Fixpoint words (s : jsstring) : list jsstring :=
  match s with
  | [] => []
  | c :: s' =>
      if isWS c then words s'
      else if headIsWord s' then
        match words s' with
        | w :: ws => (c :: w) :: ws
        | [] => [[c]]
        end
      else [c] :: words s'
  end.

(** Words separated by single spaces. *)
Definition unwords (ws : list jsstring) : jsstring := joinWith [space] ws.

(** A word closes a sentence when it ends in [.], [!] or [?]. *)
Definition endsSentence (w : jsstring) : bool :=
  match last w with
  | Some c => isTerminator c
  | None => false
  end.

(** Sentences as groups of words: a sentence ends with each word that
    closes one and is followed by white space. *)
Fixpoint groupSentences (ws : list jsstring) : list (list jsstring) :=
  match ws with
  | [] => []
  | w :: ws' =>
      if endsSentence w then [w] :: groupSentences ws'
      else
        match groupSentences ws' with
        | g :: gs => (w :: g) :: gs
        | [] => [[w]]
        end
  end.

(** formatCommentary as the design document words it, on the words of
    the input; a blank input gives none. *)
Definition formatCommentary_spec (s : jsstring) : value :=
  let cleaned := unwords (words s) in
  if negb (nonEmpty cleaned) then VNull
  else if (length cleaned <=? 140)%nat then VStr cleaned
  else
    match last (groupSentences (words s)) with
    | Some g =>
        if (length (unwords g) <=? 140)%nat then VStr (unwords g)
        else VStr (take 137 cleaned ++ [ellipsis])
    | None => VStr (take 137 cleaned ++ [ellipsis])
    end.

(** The rule for short texts read literally: whenever the cleaned
    string has at most 140 units it is what is returned. *)
Definition returnsCleanedAsIs (s : jsstring) : Prop :=
  let cleaned := trim (collapseWS s) in
  (length cleaned ≤ 140)%nat → formatCommentary (VStr s) = Ok (VStr cleaned).

Definition wordlike (w : jsstring) : Prop :=
  w ≠ [] ∧ Forall (fun c => isWS c = false) w.

Definition grouplike (g : list jsstring) : Prop :=
  g ≠ [] ∧ Forall wordlike g.

Definition endsWS (s : jsstring) : bool :=
  match last s with
  | Some c => isWS c
  | None => false
  end.

(** A tick whose request did not deliver a JSON body with a 2xx
    status. *)
Definition failed (reply : fetch_result) : bool :=
  match reply with
  | HttpResponse true (Ok _) => false
  | _ => true
  end.

(** The object literal [{ k1: v1, ... }]. *)
Definition obj (fields : list (jsstring * value)) : value :=
  VObj (list_to_map fields).

Definition success (body : value) : fetch_result := HttpResponse true (Ok body).


Definition pollingExample : poll_state :=
  {| response := obj [(lit "id", VLit "r1"); (lit "status", VLit "processing")];
     pollError := Some advisory; isPolling := true |}.

(** A host that knows the dates used in the examples below and takes
    no string for a number above the bound. *)
Definition exampleHost : host :=
  {| DateParse := fun s =>
       if bool_decide (s = lit "2024-01-01T00:00:00Z") then Some 1704067200000
       else if bool_decide (s = lit "2024-01-01T01:00:00Z") then Some 1704070800000
       else if bool_decide (s = lit "2024-01-01T02:00:00Z") then Some 1704074400000
       else None;
     StringToNumberGt := fun _ _ => false |}.

Definition sleptReply : fetch_result := success (obj [(lit "state", VLit "slept")]).

(** A follow-up response that was created a moment ago and is still
    pending, tracked by the chat polling engine. *)
Definition freshPending : value :=
  obj [(lit "id", VLit "r2"); (lit "status", VLit "pending");
       (lit "created_at", VLit "2024-01-01T02:00:00Z")].

Definition trackingFresh : chat_poll_state :=
  {| chatMessages :=
       [ liveUser (lit "why?") 1704074400000;
         liveAgent (lit "why?") 1704074400000 freshPending (VLit "r2")
           (VLit "pending") ];
     isChatPolling := true;
     currentChatResponseId := VLit "r2" |}.

(** An old response whose status arrives in upper case. *)
Definition oldUpperPending : value :=
  obj [(lit "id", VLit "r3"); (lit "status", VLit "PENDING");
       (lit "created_at", VLit "2024-01-01T00:00:00Z");
       (lit "input_content", VArr [obj [(lit "content", VLit "and then?")]])].

Definition oldLowerPending : value :=
  obj [(lit "id", VLit "r3"); (lit "status", VLit "pending");
       (lit "created_at", VLit "2024-01-01T00:00:00Z");
       (lit "input_content", VArr [obj [(lit "content", VLit "and then?")]])].

(** Two hours after midnight, with the agent asleep. *)
Definition twoHoursLater : iter_env :=
  {| clock := 1704074400000; stateReply := sleptReply |}.

(** Five seconds after [freshPending] was created. *)
Definition rightAway : iter_env :=
  {| clock := 1704074400000 + 5000; stateReply := sleptReply |}.

(** The same response as the history builder gets it, with the user
    input that led to it. *)
Definition freshFollowUp : value :=
  obj [(lit "id", VLit "r2"); (lit "status", VLit "pending");
       (lit "created_at", VLit "2024-01-01T02:00:00Z");
       (lit "input_content", VArr [obj [(lit "content", VLit "why?")]])].

Definition historySteps (h : host) (e : iter_env) (resp : value)
  : list history_step :=
  match historyStep h e resp with
  | Ok st => [st]
  | Throw => []
  end.

Definition isAgentMessage (m : message) : bool :=
  match msg_type_of m with
  | Agent => true
  | _ => false
  end.

Definition statusesOf (r : res history_step) : list value :=
  match r with
  | Ok st => List.map msg_status (List.filter isAgentMessage (emitted st))
  | Throw => []
  end.

(** The identifier of a response, [undefined] when it has none. *)
Definition idOf (r : value) : value := getPropOpt r (lit "id").

(** The user's message behind a response: the content of the first
    item of [input_content] when that is a string, else the empty
    string. *)
Definition userContent (r : value) : jsstring :=
  match userContentOf r with
  | Ok s => s
  | Throw => []
  end.

Definition blank (s : jsstring) : bool := negb (nonEmpty (trim s)).

Definition tooLong (s : jsstring) : bool := (500 <? length s)%nat.

Definition generatedPrompt (s : jsstring) : bool :=
  includes s (lit "Clone") && includes s (lit "**Step 1:").

(** The responses the chat timeline leaves out. *)
Definition excludedFromChat (cur r : value) : bool :=
  negb (truthy (idOf r)) || strictEq (idOf r) cur
  || tooLong (userContent r) || generatedPrompt (userContent r)
  || blank (userContent r).

(** The four grounds of exclusion the design document lists. *)
Definition excludedAsListed (cur r : value) : bool :=
  strictEq (idOf r) cur
  || tooLong (userContent r) || generatedPrompt (userContent r)
  || blank (userContent r).

(** A response has a place in the timeline when an agent message
    carries it, normalized. *)
Definition appearsIn (msgs : list message) (r : value) : Prop :=
  ∃ m, In m msgs ∧ msg_type_of m = Agent ∧
       Ok (msg_response m) = normalizeResponse r.

(** The exclusion rule read literally, for one fetched list. *)
Definition excludesAsListed (h : host) (cur : value) (env : nat → iter_env)
    (rs : list value) : Prop :=
  ∀ msgs, buildTimeline h cur env (VArr rs) = Ok msgs →
    ∀ r, In r rs → (¬ appearsIn msgs r ↔ excludedAsListed cur r = true).

(** A response object whose identifier and creation date are not
    objects and whose first input content, when present, is a string. *)
Definition typedResponse (r : value) : bool :=
  match r with
  | VObj _ =>
      negb (isObject (idOf r)) &&
      negb (isObject (getPropOpt r (lit "created_at"))) &&
      (let c := getPropOpt (getPropOpt (getPropOpt r (lit "input_content"))
                              (lit "0")) (lit "content") in
       typeofString c || negb (truthy c))
  | _ => false
  end.

(** The creation date of a response is a valid date; [createdAt] is
    its time value. *)
Definition validDate (h : host) (r : value) : bool :=
  match dateKey h r with
  | Ok (Some _) => true
  | _ => false
  end.

Definition createdAt (h : host) (r : value) : Z :=
  match dateKey h r with
  | Ok (Some t) => t
  | _ => 0
  end.

Definition constEnv (e : iter_env) : nat → iter_env := fun _ => e.

(** A follow-up the service returned without an identifier. *)
Definition withoutId : value :=
  obj [(lit "status", VLit "completed");
       (lit "created_at", VLit "2024-01-01T01:00:00Z");
       (lit "input_content", VArr [obj [(lit "content", VLit "and then?")]])].

Definition historyExample : list value :=
  [ obj [(lit "id", VLit "r3"); (lit "status", VLit "completed");
         (lit "created_at", VLit "2024-01-01T01:00:00Z");
         (lit "input_content", VArr [obj [(lit "content", VLit "second")]])];
    obj [(lit "id", VLit "r0"); (lit "status", VLit "completed");
         (lit "created_at", VLit "2024-01-01T00:00:00Z");
         (lit "input_content",
          VArr [obj [(lit "content", VLit "Clone it. **Step 1: look")]])];
    obj [(lit "id", VLit "r2"); (lit "status", VLit "completed");
         (lit "created_at", VLit "2024-01-01T00:00:00Z");
         (lit "input_content", VArr [obj [(lit "content", VLit "first")]])];
    obj [(lit "id", VLit "r1"); (lit "status", VLit "completed");
         (lit "created_at", VLit "2024-01-01T00:00:00Z");
         (lit "input_content", VArr [obj [(lit "content", VLit "   ")]])] ].

(** The string the filter tests: [input_content?.[0]?.content || '']
    when that is a string. *)
Definition inputString (r : value) : jsstring :=
  match inputContentOf r with
  | Ok (VStr s) => s
  | _ => []
  end.

(** The filter callback on well-typed responses. *)
Definition keptByFilter (cur r : value) : bool :=
  truthy (idOf r) && negb (strictEq (idOf r) cur)
  && negb (tooLong (inputString r)) && negb (generatedPrompt (inputString r)).

(** The responses the conversion loop turns into messages. *)
Definition converted (r : value) : bool :=
  truthy (idOf r) && negb (blank (userContent r)).

(** The sort key of a response, NaN when the date is invalid. *)
Definition keyOf (h : host) (a : value) : option Z :=
  match dateKey h a with
  | Ok k => k
  | Throw => None
  end.

Definition sortedByDate (h : host) (l : list value) : list value :=
  List.map snd (isort (List.map (fun a => (keyOf h a, a)) l)).

(** The two messages the timeline holds for a response of the
    history. *)
Definition historyPair (r : value) (u a : message) : Prop :=
  msg_type_of u = User ∧ msg_type_of a = Agent ∧
  msg_id a = idOf r ∧ Ok (msg_response a) = normalizeResponse r ∧
  msg_content u = userContent r ∧ msg_content a = userContent r ∧
  ∃ idStr, ToString (idOf r) = Ok idStr ∧ msg_id u = VStr (lit "user-" ++ idStr).

Inductive timelineOf : list value → list message → Prop :=
| timelineOf_nil : timelineOf [] []
| timelineOf_cons r rs u a msgs :
    historyPair r u a → timelineOf rs msgs →
    timelineOf (r :: rs) (u :: a :: msgs).

Definition keyLe (x y : option Z * value) : Prop :=
  match x.1, y.1 with
  | Some a, Some b => a ≤ b
  | _, _ => True
  end.

Definition olderOrSame (h : host) (a b : value) : Prop :=
  createdAt h a ≤ createdAt h b.

Definition hasKey (x : option Z * value) : Prop := is_Some x.1.










(** A submission fails, the next one succeeds. *)
Definition failThenSucceed : list page_event :=
  [ EvSubmit (lit "first question") 1704074400000;
    EvSubmitReply NetworkError 1704074401000;
    EvSubmit (lit "second question") 1704074402000;
    EvSubmitReply
      (success (obj [(lit "id", VLit "r5"); (lit "status", VLit "pending")]))
      1704074403000 ].

(** ** Agent naming and the analysis prompt

    The helpers [getServerSideProps] names a new agent with, and the
    message it enqueues. *)

Definition dash : N := 45%N.
Definition isDash (c : N) : bool := (c =? dash)%N.

(** [a-z0-9] *)
Definition isLowerAlnum (c : N) : bool :=
  ((97 <=? c) && (c <=? 122) || (48 <=? c) && (c <=? 57))%N.

(** [s.replace(/[^a-z0-9]+/g, '-')]: every maximal run of other units
    becomes one dash. *)
Fixpoint dashGo (inRun : bool) (s : jsstring) : jsstring :=
  match s with
  | [] => []
  | c :: s' =>
      if isLowerAlnum c then c :: dashGo false s'
      else if inRun then dashGo true s' else dash :: dashGo true s'
  end.

(** [s.replace(/^x+|x+$/g, '')] for a class [x] of units: the leading
    and the trailing run are removed. *)
Fixpoint dropUnits (p : N → bool) (s : jsstring) : jsstring :=
  match s with
  | c :: s' => if p c then dropUnits p s' else s
  | [] => []
  end.

Definition stripBoth (p : N → bool) (s : jsstring) : jsstring :=
  rev (dropUnits p (rev (dropUnits p s))).

Definition sanitizeName (str : jsstring) : jsstring :=
  take 30 (stripBoth isDash (dashGo false (toLowerCase str))).

(** [ToInt32]: the integer modulo 2^32, in the signed range. *)
Definition wrap32 (z : Z) : Z := (z + 2 ^ 31) mod 2 ^ 32 - 2 ^ 31.

(** The body of the loop of [createShortHash]:
    [hash = ((hash << 5) - hash) + char; hash = hash & hash].  The
    shift and the conjunction work on 32-bit integers, the subtraction
    and the addition are exact. *)
Definition hashStep (hash : Z) (char : N) : Z :=
  let hash1 := wrap32 (wrap32 hash * 2 ^ 5) - hash + Z.of_N char in
  Z.land (wrap32 hash1) (wrap32 hash1).

Definition hashLoop (str : jsstring) : Z := fold_left hashStep str 0.

(** [Math.abs(hash).toString().slice(0, 4)] *)
Definition createShortHash (str : jsstring) : jsstring :=
  take 4 (decimal (Z.abs (hashLoop str))).

(** [`ut-${cleanName}-${shortId}`] *)
Definition agentNameFor (owner name : jsstring) : jsstring :=
  lit "ut-" ++ sanitizeName name ++ lit "-"
    ++ createShortHash (owner ++ lit "/" ++ name).

(** The text of [messageBody.input.content[0].content] after the
    repository address. *)
Definition analysisSteps : string :=
". After cloning, follow these steps:

**Step 1: Detect existing tests**
Search for test files (test*.py, *test*.js, *_spec.rb, test/, tests/, etc.).

**Step 2: Determine scenario and execute:**

**Scenario A** - Has tests with >80% coverage:
- Run existing tests
- Generate HTML test report
- Output report in markdown

**Scenario B** - Has partial tests (<80% coverage):
- Run tests and measure coverage
- Generate tests for uncovered code
- Run all tests (existing + new)
- Generate HTML report with before/after comparison
- Output report in markdown

**Scenario C** - No tests:
- Analyze codebase
- Generate comprehensive unit tests
- Run generated tests
- Generate HTML report
- Output report in markdown

**IMPORTANT - You must provide TWO complete outputs:**

**1. Detailed Markdown Output (display directly):**
Write a comprehensive markdown report including:
- Executive Summary: Key metrics (coverage %, total tests, pass/fail counts, execution time)
- Repository Analysis: Languages detected, frameworks found, existing test infrastructure
- Test Execution Details:
  * All commands you ran (with full output)
  * Test results by file/module with pass/fail details
  * Any errors, warnings, or issues encountered
  * Screenshots or logs of test execution
- Coverage Analysis:
  * Overall coverage percentage (before/after if applicable)
  * Per-file coverage breakdown with specific percentages
  * Functions/lines covered vs uncovered
- Generated Tests:
  * Show 5-10 example tests you created (full code with syntax highlighting)
  * Explain what each test does and why it's important
  * List ALL test files created with their full paths
- Recommendations: Detailed suggestions for improving coverage and code quality

**2. Complete HTML Report (publish to content server):**
Create a professional, comprehensive HTML report with:
- Clean, modern design with proper CSS styling and mobile responsiveness
- Executive summary dashboard (coverage %, test counts, status badges)
- Full test execution logs (commands, output, timestamps)
- Complete test results table (all tests with status, assertions, execution time, error messages)
- Coverage visualization (charts, graphs, per-file breakdowns with color coding)
- ALL generated test code (syntax highlighted, organized by file)
- Before/after comparison (if applicable)
- Detailed recommendations section
- Navigation menu for easy browsing

Publish the HTML report to the content server and provide the link at the END of your markdown output.

**Both outputs must be complete and detailed. The markdown should be substantial (not just a link), and the HTML should include everything in even greater detail.**".

Definition analysisPrompt (repoUrl : jsstring) : jsstring :=
  lit "Clone " ++ repoUrl ++ lit analysisSteps.

(** ** The result page: derived values

    What [RepoTestPage] computes from its props and its state before it
    renders. *)

(** [response?.id || initialResponseId || null] and
    [response?.agent_name || agentName || null] *)
Definition derivedResponseId (response initialResponseId : value) : value :=
  orElse (orElse (getPropOpt response (lit "id")) initialResponseId) VNull.

Definition derivedAgentName (response agentName : value) : value :=
  orElse (orElse (getPropOpt response (lit "agent_name")) agentName) VNull.

(** The state the primary polling engine starts from: the normalized
    initial response, no poll error, and
    [Boolean(derivedResponseId && !isTerminal(normalizedInitial?.status || 'pending'))]. *)
Definition initialPollState (initialResponse initialResponseId : value)
  : res poll_state :=
  let* normalizedInitial := normalizeResponse initialResponse in
  let* polling :=
    if truthy (derivedResponseId normalizedInitial initialResponseId) then
      let* t := isTerminal (orElse (getPropOpt normalizedInitial (lit "status"))
                                   (VLit "pending")) in
      Ok (negb t)
    else Ok false in
  Ok {| response := normalizedInitial; pollError := None;
        isPolling := polling |}.

(** [(response?.status || 'pending').toLowerCase()] *)
Definition statusOf (response : value) : res jsstring :=
  callToLowerCase (orElse (getPropOpt response (lit "status")) (VLit "pending")).

Definition commentaryOf (status : jsstring) (response : value) : res value :=
  let* t := isTerminal (VStr status) in
  if t then Ok VNull
  else extractLatestCommentary (getPropOpt response (lit "segments")).

(** [setupError || !derivedAgentName || !derivedResponseId] *)
Definition missingSetup (setupError agentName initialResponseId response : value)
  : bool :=
  truthy setupError
  || negb (truthy (derivedAgentName response agentName))
  || negb (truthy (derivedResponseId response initialResponseId)).

(** [`Analyzing ${owner}/${name} and running tests…`] *)
Definition analyzing (owner name : jsstring) : jsstring :=
  lit "Analyzing " ++ owner ++ lit "/" ++ name ++ lit " and running tests"
    ++ [ellipsis].

(** [statusMessage].  The status and the commentary are computed for
    every render, before the test on [missingSetup]. *)
Definition statusMessage (owner name : jsstring)
    (setupError agentName initialResponseId response : value) : res value :=
  let* status := statusOf response in
  let* commentary := commentaryOf status response in
  if missingSetup setupError agentName initialResponseId response then
    Ok (orElse setupError (VLit "Required configuration is missing."))
  else
    let* t := isTerminal (VStr status) in
    if t then
      if bool_decide (status = lit "failed") then
        Ok (VStr (lit "The agent failed to generate/run tests for "
                  ++ owner ++ lit "/" ++ name ++ lit "."))
      else if bool_decide (status = lit "cancelled") then
        Ok (VLit "The request was cancelled before completion.")
      else
        Ok (VStr (lit "Test execution completed for "
                  ++ owner ++ lit "/" ++ name ++ lit "."))
    else
      let* f := formatCommentary commentary in
      Ok (orElse f (VStr (analyzing owner name))).

(** The chat section is rendered under
    [isTerminal(status) && !isFailed && !isCancelled]. *)
Definition showsChat (response : value) : res bool :=
  let* status := statusOf response in
  let* t := isTerminal (VStr status) in
  Ok (t && negb (bool_decide (status = lit "failed"))
        && negb (bool_decide (status = lit "cancelled"))).

(** The parts of an agent message in the chat: the thinking line with
    its text, the busy-timeout notice, the failure line, and the
    output with the items given to [renderOutputItems]. *)
Record agent_view : Type := AgentView {
  thinking : option value;
  timeoutNotice : bool;
  failureLine : bool;
  shownOutput : option value
}.

Definition agentView (msg : message) : res agent_view :=
  let agentStatus := orElse (msg_status msg) (VLit "pending") in
  let* t := isTerminal agentStatus in
  let isAgentTerminal := t || strictEq agentStatus (VLit "busy_timeout") in
  let oc := getPropOpt (msg_response msg) (lit "output_content") in
  let agentOutputItems :=
    if isAgentTerminal && truthy oc then oc else VArr [] in
  let isBusyTimeout :=
    strictEq agentStatus (VLit "busy_timeout")
    || strictEq (msg_agentState msg) (VLit "slept") in
  let* thinkingText :=
    if negb isAgentTerminal then
      let* c := extractLatestCommentary
                  (getPropOpt (msg_response msg) (lit "segments")) in
      let* f := formatCommentary c in
      Ok (Some (orElse f (VLit "Thinking...")))
    else Ok None in
  Ok {| thinking := thinkingText;
        timeoutNotice := isBusyTimeout;
        failureLine :=
          isAgentTerminal && strictEq agentStatus (VLit "failed")
          && negb isBusyTimeout;
        shownOutput :=
          if isAgentTerminal && strictEq agentStatus (VLit "completed")
             && negb isBusyTimeout
          then Some agentOutputItems else None |}.

(** ** API routes

    The handlers under [pages/api].  A handler sees the request, the
    two environment variables and what the remote service answers; it
    produces a status code and a JSON body.  The address of the remote
    request is not part of the model, only whether it can be built:
    [encodeURIComponent] throws on a value without a string form and
    on a lone surrogate. *)

Inductive upstream_result : Type :=
| UpstreamError
| UpstreamResponse (status : Z) (text : jsstring) (json : res value).

(** [response.ok] *)
Definition statusOk (status : Z) : bool := (200 <=? status) && (status <=? 299).

Record api_reply : Type := ApiReply {
  status_code : Z;
  allowHeader : bool;
  json_body : value
}.

(** [res.status(code).json(body)] *)
Definition respond (code : Z) (body : value) : api_reply :=
  {| status_code := code; allowHeader := false; json_body := body |}.

Definition errorBody (message : jsstring) : value :=
  obj [(lit "error", VStr message)].

Record environment : Type := Environment {
  RA_APPS_UNITEST_ADMIN_TOKEN : option jsstring;
  RA_HOST_URL : option jsstring
}.

(** [!process.env.X] *)
Definition unset (v : option jsstring) : bool :=
  match v with
  | Some (_ :: _) => false
  | _ => true
  end.

(** No surrogate stands alone. *)
Fixpoint wellFormed (s : jsstring) : bool :=
  match s with
  | [] => true
  | c :: s' =>
      if ((55296 <=? c) && (c <=? 56319))%N then
        match s' with
        | d :: s'' => ((56320 <=? d) && (d <=? 57343))%N && wellFormed s''
        | [] => false
        end
      else if ((56320 <=? c) && (c <=? 57343))%N then false
      else wellFormed s'
  end.

(** Whether [encodeURIComponent(v)] returns. *)
Definition encodable (v : value) : bool :=
  match ToString v with
  | Ok s => wellFormed s
  | Throw => false
  end.

(** [pages/api/ra/agents/[agent]/responses.js] and [.../state.js]: the
    two handlers differ in the text of [failure] only. *)
Definition agentHandler (failure : jsstring) (method : jsstring)
    (agent : value) (env : environment) (up : upstream_result) : api_reply :=
  if negb (bool_decide (method = lit "GET")) then
    respond 405 (errorBody (lit "Method not allowed"))
  else if negb (truthy agent) then
    respond 400 (errorBody (lit "Missing agent name"))
  else if unset (RA_APPS_UNITEST_ADMIN_TOKEN env) || unset (RA_HOST_URL env) then
    respond 500 (errorBody (lit "Server configuration error"))
  else if negb (encodable agent) then
    respond 500 (errorBody (lit "Internal server error"))
  else
    match up with
    | UpstreamError => respond 500 (errorBody (lit "Internal server error"))
    | UpstreamResponse status text json =>
        if negb (statusOk status) then
          respond status (obj [(lit "error", VStr failure);
                               (lit "details", VStr text)])
        else
          match json with
          | Ok v => respond 200 v
          | Throw => respond 500 (errorBody (lit "Internal server error"))
          end
    end.

Definition responsesHandler :=
  agentHandler (lit "Failed to fetch agent responses").

Definition stateHandler :=
  agentHandler (lit "Failed to fetch agent state").

(** [pages/api/chat.js].  [reqBody] is [req.body]; destructuring
    [null] or [undefined] throws before any reply is made. *)
Definition chatHandler (method : jsstring) (reqBody : value)
    (env : environment) (up : upstream_result) : res api_reply :=
  if negb (bool_decide (method = lit "POST")) then
    Ok (respond 405 (errorBody (lit "Method not allowed")))
  else
    let* agentName := getProp reqBody (lit "agentName") in
    let* message := getProp reqBody (lit "message") in
    if negb (truthy agentName) || negb (truthy message) then
      Ok (respond 400 (errorBody (lit "Missing agentName or message")))
    else if unset (RA_APPS_UNITEST_ADMIN_TOKEN env) || unset (RA_HOST_URL env)
    then Ok (respond 500 (errorBody (lit "Server configuration error")))
    else if negb (encodable agentName) then
      Ok (respond 500 (errorBody (lit "Internal server error")))
    else
      match up with
      | UpstreamError =>
          Ok (respond 500 (errorBody (lit "Internal server error")))
      | UpstreamResponse status text json =>
          if negb (statusOk status) then
            Ok (respond status
                  (obj [(lit "error", VLit "Failed to send message to agent");
                        (lit "details", VStr text)]))
          else
            match json with
            | Ok v => Ok (respond 200 v)
            | Throw =>
                Ok (respond 500 (errorBody (lit "Internal server error")))
            end
      end.

(** [ensureEnv]: the names of the variables that are unset or blank,
    and the message of the error thrown when there are any. *)
Definition blankVar (v : option jsstring) : bool :=
  match v with
  | Some s => negb (nonEmpty s) || bool_decide (trim s = [])
  | None => true
  end.

Definition missingVars (env : environment) : list jsstring :=
  (if blankVar (RA_APPS_UNITEST_ADMIN_TOKEN env)
   then [lit "RA_APPS_UNITEST_ADMIN_TOKEN"] else [])
  ++ (if blankVar (RA_HOST_URL env) then [lit "RA_HOST_URL"] else []).

Definition ensureEnv (env : environment) : option jsstring :=
  match missingVars env with
  | [] => None
  | missing =>
      Some (lit "Missing environment variables: "
            ++ joinWith (lit ", ") missing)
  end.

(** The handler that relays one response
    ([/api/ra/responses/{agent}/{response}]).  A query parameter is a
    string or an array of strings; the first element of an array is
    used.  The address is built outside the [try], so a parameter that
    cannot be encoded makes the handler throw. *)
Definition firstOf (q : value) : value :=
  match q with
  | VArr l => default VUndef (head l)
  | _ => q
  end.

Definition unexpected (text : jsstring) : value :=
  obj [(lit "error", VLit "Unexpected response from RA API");
       (lit "raw", VStr text)].

Definition responseHandler (method : jsstring) (agent responseId : value)
    (env : environment) (up : upstream_result) : res api_reply :=
  if negb (bool_decide (method = lit "GET")) then
    Ok {| status_code := 405; allowHeader := true;
          json_body := errorBody (lit "Method not allowed") |}
  else if negb (truthy agent) || negb (truthy responseId) then
    Ok (respond 400 (errorBody (lit "Missing agent or response identifier")))
  else
    match ensureEnv env with
    | Some message => Ok (respond 500 (errorBody message))
    | None =>
        if negb (encodable (firstOf agent))
           || negb (encodable (firstOf responseId))
        then Throw
        else
          match up with
          | UpstreamError =>
              Ok (respond 500
                    (errorBody (lit "Failed to fetch response status from RA")))
          | UpstreamResponse status text json =>
              let payload :=
                match json with
                | Ok v => v
                | Throw => unexpected text
                end in
              if negb (statusOk status) then Ok (respond status payload)
              else Ok (respond 200 payload)
          end
    end.

(** What the page's [fetch] makes of a handler's answer: [res.ok] and
    the body read back by [res.json()].  A handler that throws is
    answered by the framework with a 500 page that is not JSON. *)
Definition fetched (r : res api_reply) : fetch_result :=
  match r with
  | Ok a => HttpResponse (statusOk (status_code a)) (Ok (json_body a))
  | Throw => HttpResponse false Throw
  end.

(** *** Recent tests

    The second handler of [responses.js]: one entry for each agent
    tagged [unitest] that has a response and repository metadata, the
    most recently updated first, twenty at most. *)

(** [String(r?.status || '').toLowerCase() === 'completed'] *)
Definition isCompleted (r : value) : res bool :=
  let* s := ToString (orElse (getPropOpt r (lit "status")) (VStr [])) in
  Ok (bool_decide (toLowerCase s = lit "completed")).

(** [completed.length > 0 ? completed[0] : responses[0]] *)
Definition latestOf (responses : list value) : res value :=
  let* completed := filterM isCompleted responses in
  Ok (match completed with
      | c :: _ => c
      | [] => default VUndef (head responses)
      end).

(** The entry pushed for [agent] and its [latest] response, if any. *)
Definition testOf (agent latest : value) : res (option value) :=
  if truthy latest then
    let* metadata := getProp agent (lit "metadata") in
    let repo := getPropOpt metadata (lit "repository") in
    if truthy (getPropOpt repo (lit "owner"))
       && truthy (getPropOpt repo (lit "name")) then
      let* agentName := getProp agent (lit "name") in
      let* responseId := getProp latest (lit "id") in
      let* status := getProp latest (lit "status") in
      let* createdAt := getProp latest (lit "created_at") in
      let* updatedAt := getProp latest (lit "updated_at") in
      Ok (Some (obj [(lit "owner", getPropOpt repo (lit "owner"));
                     (lit "name", getPropOpt repo (lit "name"));
                     (lit "url", getPropOpt repo (lit "url"));
                     (lit "agentName", agentName);
                     (lit "responseId", responseId);
                     (lit "status", status);
                     (lit "createdAt", createdAt);
                     (lit "updatedAt", updatedAt)]))
    else Ok None
  else Ok None.

(** One iteration of the loop over the agents.  [Throw] is an exception
    that leaves the loop: reading [agent.name] of [null], or a name
    that has no string form, fails again inside the [catch] block.
    Every other failure is logged and the agent skipped. *)
Definition agentEntry (agent : value) (responsesReply : fetch_result)
  : res (option value) :=
  let* agentName := getProp agent (lit "name") in
  let* nameString := ToString agentName in
  if negb (wellFormed nameString) then Ok None
  else
    match responsesReply with
    | HttpResponse true (Ok (VArr (r :: rs))) =>
        match (let* latest := latestOf (r :: rs) in testOf agent latest) with
        | Ok entry => Ok entry
        | Throw => Ok None
        end
    | _ => Ok None
    end.

Fixpoint agentEntries (replies : nat → fetch_result) (i : nat)
    (agents : list value) : res (list value) :=
  match agents with
  | [] => Ok []
  | agent :: agents' =>
      let* entry := agentEntry agent (replies i) in
      let* rest := agentEntries replies (S i) agents' in
      Ok (match entry with
          | Some t => t :: rest
          | None => rest
          end)
  end.

(** [.sort((a, b) => new Date(b.updatedAt) - new Date(a.updatedAt))]:
    the comparator of [sortByDate] on the negated time values. *)
Definition recencyKey (h : host) (t : value) : res (option Z) :=
  let* u := getProp t (lit "updatedAt") in
  let* d := newDate h u in
  Ok (option_map Z.opp d).

Definition sortNewestFirst (h : host) (l : list value) : res (list value) :=
  match l with
  | [] | [_] => Ok l
  | _ =>
      let* keyed :=
        sequence (List.map (fun t => let* k := recencyKey h t in Ok (k, t)) l) in
      Ok (List.map snd (isort keyed))
  end.

Definition isUndef (v : value) : bool :=
  match v with VUndef => true | _ => false end.

(** [JSON.stringify] leaves out the properties that are [undefined]. *)
Definition serialized (v : value) : value :=
  match v with
  | VObj m => VObj (omap (fun x => if isUndef x then None else Some x) m)
  | _ => v
  end.

(** [replies i] is what the request for the responses of the [i]-th
    agent produces. *)
Definition recentTestsHandler (h : host) (method : jsstring)
    (env : environment) (agentsReply : fetch_result)
    (replies : nat → fetch_result) : api_reply :=
  let failure := respond 500 (errorBody (lit "Failed to fetch recent tests")) in
  if negb (bool_decide (method = lit "GET")) then
    {| status_code := 405; allowHeader := true;
       json_body := errorBody (lit "Method not allowed") |}
  else
    match ensureEnv env with
    | Some message => respond 500 (errorBody message)
    | None =>
        match agentsReply with
        | HttpResponse true (Ok agentsData) =>
            match (let* items := getProp agentsData (lit "items") in
                   let agents := match items with VArr l => l | _ => [] end in
                   let* recentTests := agentEntries replies 0 agents in
                   sortNewestFirst h recentTests) with
            | Ok sorted =>
                respond 200
                  (obj [(lit "tests",
                         VArr (List.map serialized (take 20 sorted)))])
            | Throw => failure
            end
        | _ => failure
        end
    end.

(** ** The home page *)

(** [extractGitHubRepo].  [new URL(s)] is the host's: [None] when it
    throws, else the three components the function reads. *)
Record parsed_url : Type := ParsedUrl {
  protocol : jsstring;
  hostname : jsstring;
  pathname : jsstring
}.

Definition slash : N := 47%N.
Definition isSlash (c : N) : bool := (c =? slash)%N.

(** A regular expression with the [i] flag (and without [u]) matches an
    ASCII letter of the pattern against its two cases only. *)
Definition foldCase (c : N) : N :=
  (if (65 <=? c) && (c <=? 90) then c + 32 else c)%N.

Definition startsWithCI (prefix s : jsstring) : bool :=
  startsWith prefix (List.map foldCase s).

(** [s.replace(/^prefix/i, '')] *)
Definition dropPrefixCI (prefix s : jsstring) : jsstring :=
  if startsWithCI prefix s then drop (length prefix) s else s.

(** [s.split('/')] *)
Fixpoint splitOn (sep : N) (s : jsstring) : list jsstring :=
  match s with
  | [] => [[]]
  | c :: s' =>
      if (c =? sep)%N then [] :: splitOn sep s'
      else
        match splitOn sep s' with
        | p :: ps => (c :: p) :: ps
        | [] => [[c]]
        end
  end.

Definition extractGitHubRepo (newURL : jsstring → option parsed_url)
    (value : jsstring) : option jsstring :=
  let trimmed := trim value in
  if negb (nonEmpty trimmed) then None
  else
    let pathCandidate :=
      match newURL trimmed with
      | Some parsed =>
          if negb (bool_decide (protocol parsed = lit "https:"))
             || negb (bool_decide (toLowerCase (hostname parsed)
                                   = lit "github.com"))
          then None
          else Some (pathname parsed)
      | None =>
          if startsWithCI (lit "https:") trimmed
             || startsWithCI (lit "http:") trimmed then None
          else
            let normalized :=
              dropPrefixCI (lit "github.com/")
                (if startsWithCI (lit "https://github.com/") trimmed
                 then drop 19 trimmed
                 else dropPrefixCI (lit "http://github.com/") trimmed) in
            Some (if startsWith (lit "/") normalized then normalized
                  else slash :: normalized)
      end in
    match pathCandidate with
    | None => None
    | Some path =>
        match splitOn slash (stripBoth isSlash path) with
        | [owner; repo] =>
            if nonEmpty owner && nonEmpty repo
            then Some (lit "/" ++ owner ++ lit "/" ++ repo)
            else None
        | _ => None
        end
    end.

(** [x < n] for a number [x] that may be NaN. *)
Definition numLt (x : option Z) (n : Z) : bool :=
  match x with
  | Some v => v <? n
  | None => false
  end.

(** [Math.floor(x / n)] *)
Definition floorDiv (x : option Z) (n : Z) : option Z :=
  option_map (fun v => v / n) x.

Definition printNumber (x : option Z) : jsstring :=
  match x with
  | Some v => decimal v
  | None => lit "NaN"
  end.

(** [formatTimeAgo].  [now] is the clock, [toLocaleDateString] the
    short date the host prints for a time value. *)
Definition formatTimeAgo (h : host) (toLocaleDateString : option Z → jsstring)
    (now : Z) (dateString : value) : res jsstring :=
  let* date := newDate h dateString in
  let diffMs := dateMinus (Some now) date in
  let diffMins := floorDiv diffMs 60000 in
  let diffHours := floorDiv diffMs 3600000 in
  let diffDays := floorDiv diffMs 86400000 in
  if numLt diffMins 1 then Ok (lit "just now")
  else if numLt diffMins 60 then Ok (printNumber diffMins ++ lit "m ago")
  else if numLt diffHours 24 then Ok (printNumber diffHours ++ lit "h ago")
  else if numLt diffDays 7 then Ok (printNumber diffDays ++ lit "d ago")
  else Ok (toLocaleDateString date).

(** The list of recent tests and the agents hidden from it.  The hidden
    names are kept in [localStorage] as the array [hideAgent] stored. *)
Definition hideAgent (hiddenAgents : list value) (agentName : value)
  : list value :=
  hiddenAgents ++ [agentName].

(** [hiddenAgents.includes(x)] *)
Definition isHidden (hiddenAgents : list value) (x : value) : bool :=
  existsb (fun e => strictEq e x) hiddenAgents.

(** [fetchRecentTests]: the list shown after the request for
    [/api/recent-tests] resolved; it stays as it was unless the request
    succeeded and the filter ran to its end. *)
Definition fetchRecentTests (hiddenAgents : list value) (reply : fetch_result)
    (recentTests : list value) : list value :=
  match reply with
  | HttpResponse true (Ok data) =>
      match (let* tests := getProp data (lit "tests") in
             match orElse tests (VArr []) with
             | VArr l =>
                 filterM (fun test =>
                            let* agentName := getProp test (lit "agentName") in
                            Ok (negb (isHidden hiddenAgents agentName))) l
             | _ => Throw
             end) with
      | Ok filtered => filtered
      | Throw => recentTests
      end
  | _ => recentTests
  end.

(** ** Server-side preparation ([getServerSideProps])

    The function validates the repository with GitHub, looks for an
    agent tagged with the repository, reuses its latest response or
    enqueues the analysis prompt, and creates an agent when none can
    be reused.  The replies of the six requests it can make are
    inputs; the requests it made to the agent service are part of the
    outcome. *)

Record ssp_replies : Type := SspReplies {
  githubReply : fetch_result;
  (** [GET /agents?tags=...] *)
  listReply : fetch_result;
  (** [GET /agents/{found.name}/responses?limit=1] *)
  responsesReply : fetch_result;
  (** [POST /agents/{found.name}/responses] *)
  enqueueReply : fetch_result;
  (** [POST /agents] *)
  createReply : fetch_result;
  (** [POST /agents/{agentName}/responses] *)
  firstReply : fetch_result
}.

Inductive action : Type :=
| FindAgent
| ListResponses (agent : value)
| Enqueue (agent : value) (prompt : jsstring)
| CreateAgent (name : jsstring).

Record props : Type := Props {
  p_owner : jsstring;
  p_name : jsstring;
  p_repoUrl : jsstring;
  p_agentName : value;
  p_response : value;
  p_responseId : value;
  p_setupError : value;
  p_repoStats : value
}.

Inductive ssp_result : Type :=
| Redirect (destination : jsstring)
| PageProps (p : props).

(** [x ?? null] *)
Definition orNull (x : value) : value :=
  match x with
  | VUndef => VNull
  | _ => x
  end.

(** The [try] block around the GitHub request: the repository
    information, or nothing when the block throws. *)
Definition repoInfoOf (github : fetch_result) : option value :=
  match github with
  | HttpResponse true (Ok repoInfo) =>
      if truthy (getPropOpt repoInfo (lit "private")) then None
      else Some repoInfo
  | _ => None
  end.

(** The [try] block that looks for an agent to reuse: the requests it
    made and the props it returned, if it returned. *)
Definition reuseAgent (owner name repoUrl : jsstring) (repoStats : value)
    (rs : ssp_replies) : list action * option props :=
  match listReply rs with
  | HttpResponse true (Ok page) =>
      match getProp page (lit "items") with
      | Ok items =>
          let found :=
            match items with
            | VArr (x :: _) => x
            | _ => VNull
            end in
          let foundName := getPropOpt found (lit "name") in
          if truthy found && truthy foundName then
            if negb (encodable foundName) then ([FindAgent], None)
            else
              let given (response : value) : option props :=
                match getProp response (lit "id") with
                | Ok id =>
                    Some {| p_owner := owner; p_name := name;
                            p_repoUrl := repoUrl; p_agentName := foundName;
                            p_response := response; p_responseId := id;
                            p_setupError := VNull; p_repoStats := repoStats |}
                | Throw => None
                end in
              let enqueue :=
                ([FindAgent; ListResponses foundName;
                  Enqueue foundName (analysisPrompt repoUrl)],
                 match enqueueReply rs with
                 | HttpResponse true (Ok response) => given response
                 | _ => None
                 end) in
              match responsesReply rs with
              | NetworkError | HttpResponse true Throw =>
                  ([FindAgent; ListResponses foundName], None)
              | HttpResponse true (Ok (VArr (latest :: _))) =>
                  ([FindAgent; ListResponses foundName], given latest)
              | _ => enqueue
              end
          else ([FindAgent], None)
      | Throw => ([FindAgent], None)
      end
  | _ => ([FindAgent], None)
  end.

(** The last [try] block: create the agent and enqueue the prompt. *)
Definition createAgent (owner name repoUrl : jsstring) (repoStats : value)
    (rs : ssp_replies) : list action * ssp_result :=
  let agentName := agentNameFor owner name in
  let setupFailed := Redirect (lit "/?error=setup_failed") in
  match createReply rs with
  | HttpResponse true _ =>
      ([CreateAgent agentName;
        Enqueue (VStr agentName) (analysisPrompt repoUrl)],
       match firstReply rs with
       | HttpResponse true (Ok response) =>
           match getProp response (lit "id") with
           | Ok id =>
               PageProps {| p_owner := owner; p_name := name;
                            p_repoUrl := repoUrl;
                            p_agentName := VStr agentName;
                            p_response := response; p_responseId := id;
                            p_setupError := VNull;
                            p_repoStats := repoStats |}
           | Throw => setupFailed
           end
       | _ => setupFailed
       end)
  | _ => ([CreateAgent agentName], setupFailed)
  end.

(** [slug] is [params.slug] when that is an array, else the empty
    list; [encodeURIComponent] is the host's and is applied to
    well-formed strings only (on others it throws, and so does the
    function). *)
Definition getServerSideProps (encodeURIComponent : jsstring → jsstring)
    (slug : list jsstring) (env : environment) (rs : ssp_replies)
  : res (list action * ssp_result) :=
  match slug with
  | owner :: name :: _ =>
      if negb (wellFormed owner) || negb (wellFormed name) then Throw
      else
        let repoUrl :=
          lit "https://github.com/" ++ encodeURIComponent owner
            ++ lit "/" ++ encodeURIComponent name in
        match repoInfoOf (githubReply rs) with
        | None => Ok ([], Redirect (lit "/?error=repo_inaccessible"))
        | Some repoInfo =>
            let repoStats :=
              obj [(lit "description",
                    orNull (getPropOpt repoInfo (lit "description")));
                   (lit "language",
                    orNull (getPropOpt repoInfo (lit "language")))] in
            if unset (RA_APPS_UNITEST_ADMIN_TOKEN env)
               || unset (RA_HOST_URL env) then
              Ok ([], PageProps
                        {| p_owner := owner; p_name := name;
                           p_repoUrl := repoUrl; p_agentName := VNull;
                           p_response := VNull; p_responseId := VNull;
                           p_setupError :=
                             VLit "Required RA credentials are missing. Set RA_HOST_URL and RA_APPS_UNITEST_ADMIN_TOKEN.";
                           p_repoStats := repoStats |})
            else
              match reuseAgent owner name repoUrl repoStats rs with
              | (made, Some p) => Ok (made, PageProps p)
              | (made, None) =>
                  let '(more, r) :=
                    createAgent owner name repoUrl repoStats rs in
                  Ok (made ++ more, r)
              end
        end
  | _ => Ok ([], Redirect (lit "/"))
  end.

(** ** Notions used to state the further properties *)

Definition isDigit (c : N) : bool := ((48 <=? c) && (c <=? 57))%N.

(** No unit of the class [p] directly follows another one, nor the
    start of the string when [prev] holds. *)
Fixpoint sepGo (p : N → bool) (prev : bool) (s : jsstring) : bool :=
  match s with
  | [] => true
  | c :: s' => if p c then negb prev && sepGo p true s' else sepGo p false s'
  end.

(** The polynomial hash of a string, computed without bounds:
    [c0 * 31^(n-1) + c1 * 31^(n-2) + ... + c(n-1)]. *)
Definition hornerHash (str : jsstring) : Z :=
  fold_left (fun h c => 31 * h + Z.of_N c) str 0.

(** A one-line text: its only white space is single spaces between
    other units. *)
Definition singleSpaced (s : jsstring) : Prop :=
  head s ≠ Some space ∧ last s ≠ Some space ∧
  (∀ c, c ∈ s → isWS c = true → c = space) ∧
  (∀ i, s !! i = Some space → s !! S i ≠ Some space).

(** The shapes the formatter can return for the string [s]. *)
Inductive formatted (s : jsstring) : value → Prop :=
| FmtNone : words s = [] → formatted s VNull
| FmtWords ws :
    words s ≠ [] →
    Forall wordlike ws → ws ≠ [] → (length (unwords ws) ≤ 140)%nat →
    formatted s (VStr (unwords ws))
| FmtCut cleaned :
    cleaned = unwords (words s) → (140 < length cleaned)%nat →
    formatted s (VStr (truncated cleaned)).

(** A run of the primary polling engine: each tick with the value of
    the teardown flag and the reply to its request. *)
Definition pollRun (ticks : list (bool * fetch_result)) (st : poll_state)
  : poll_state :=
  foldl (fun st t => pollTick t.1 t.2 st) st ticks.

(** The status of the response held is not known to be terminal. *)
Definition notKnownTerminal (st : poll_state) : Prop :=
  isTerminal (orElse (getPropOpt (response st) (lit "status")) (VLit "pending"))
  ≠ Ok true.

(** An entry of the list of recent tests made for [agent]: it names
    the agent and carries a repository owner and name. *)
Definition entryOf (agent t : value) : Prop :=
  getProp agent (lit "name") = Ok (getPropOpt t (lit "agentName")) ∧
  truthy (getPropOpt t (lit "owner")) = true ∧
  truthy (getPropOpt t (lit "name")) = true.

(** The time value of [updatedAt] of an entry, when valid. *)
Definition updatedAt (h : host) (t : value) : option Z :=
  match newDate h (getPropOpt t (lit "updatedAt")) with
  | Ok d => d
  | Throw => None
  end.

Definition newerOrSame (h : host) (a b : value) : Prop :=
  match updatedAt h a, updatedAt h b with
  | Some x, Some y => y ≤ x
  | _, _ => True
  end.

(** Units of an account name, as far as the parser of the home page
    cares: no white space, no [/], [:] or [.]. *)
Definition nameUnit (c : N) : bool :=
  negb (isWS c) && negb (c =? 47)%N && negb (c =? 58)%N && negb (c =? 46)%N.

Definition repoUnit (c : N) : bool := negb (isWS c) && negb (c =? 47)%N.

(** Data of the examples. *)
Definition noURL : jsstring → option parsed_url := fun _ => None.

Definition configured : environment :=
  {| RA_APPS_UNITEST_ADMIN_TOKEN := Some (lit "token");
     RA_HOST_URL := Some (lit "https://ra.example/") |}.

(** The response the service keeps for the analysis prompt. *)
Definition promptResponse : value :=
  obj [(lit "id", VLit "r0"); (lit "status", VLit "completed");
       (lit "input_content",
        VArr [obj [(lit "type", VLit "text");
                   (lit "content",
                    VStr (analysisPrompt (lit "https://github.com/o/n")))]])].

Definition progressResponse : value :=
  obj [(lit "id", VLit "r1"); (lit "status", VLit "Processing");
       (lit "segments",
        VArr [obj [(lit "type", VLit "commentary");
                   (lit "text", VLit "Cloning   the repository")]]);
       (lit "output_content", VArr [])].

Definition exampleAgent : value :=
  obj [(lit "name", VLit "ut-n-1234");
       (lit "metadata",
        obj [(lit "repository",
              obj [(lit "owner", VLit "o"); (lit "name", VLit "n")])])].

Definition exampleResponses : fetch_result :=
  success (VArr [obj [(lit "id", VLit "r1"); (lit "status", VLit "Completed");
                      (lit "updated_at", VLit "2024-01-01T00:00:00Z")]]).

Definition threeResponses : list value :=
  [ obj [(lit "id", VLit "r3"); (lit "status", VLit "failed")];
    obj [(lit "id", VLit "r2"); (lit "status", VLit "Completed")];
    obj [(lit "id", VLit "r1"); (lit "status", VLit "completed")] ].

Definition twoTests : list value :=
  [ obj [(lit "agentName", VLit "a");
         (lit "updatedAt", VLit "2024-01-01T00:00:00Z")];
    obj [(lit "agentName", VLit "b");
         (lit "updatedAt", VLit "2024-01-01T02:00:00Z")] ].

(** GitHub knows the repository, the service has no agent for it yet
    and accepts a new one. *)
Definition newRepository : ssp_replies :=
  {| githubReply := success (obj [(lit "private", VBool false)]);
     listReply := success (obj [(lit "items", VArr [])]);
     responsesReply := NetworkError;
     enqueueReply := NetworkError;
     createReply := success (obj [(lit "name", VLit "ut-n-1234")]);
     firstReply :=
       success (obj [(lit "id", VLit "r1"); (lit "status", VLit "pending")]) |}.

(** * Properties *)

Example isTerminal_Completed : isTerminal (VLit "Completed") = Ok true.
Proof. vm_compute. reflexivity. Qed.

Example normalize_array :
  normalizeResponse (VArr [VNum 7]) =
  Ok (VObj (<[lit "output_content" := VArr []]>
              (<[lit "segments" := VArr []]> {[ lit "0" := VNum 7 ]}))).
Proof. vm_compute. reflexivity. Qed.


(** ** Normalizer *)

Lemma isObject_guard v :
  negb (truthy v) || negb (typeofObject v) = negb (isObject v).
Proof. destruct v as [| |[]|n|[]| |]; try reflexivity. simpl. by destruct (n =? 0). Qed.

Lemma getProp_object v k : isObject v = true → ∃ x, getProp v k = Ok x.
Proof.
  destruct v; try discriminate; intros _; simpl; [|eauto].
  case_decide; [eauto|]. destruct (parseIndex k); eauto.
Qed.

Lemma lit_segments_ne_output : lit "segments" ≠ lit "output_content".
Proof. discriminate. Qed.

(** C4: normalizeResponse never throws; it gives null for null and
    for anything that is not an object; for an object it gives an object
    whose segments and output_content are arrays (the source field when
    that is an array, the empty array otherwise) and whose other fields
    are those of the input. *)
Theorem normalizeResponse_spec (resp : value) :
  ∃ r, normalizeResponse resp = Ok r ∧
    if isObject resp then
      ∃ m, r = VObj m ∧
        (∀ k, k = lit "segments" ∨ k = lit "output_content" →
           ∃ l, m !! k = Some (VArr l) ∧
             ∀ x, getProp resp k = Ok x →
               if isArray x then x = VArr l else l = []) ∧
        (∀ k, k ≠ lit "segments" → k ≠ lit "output_content" →
           m !! k = ownProps resp !! k)
    else r = VNull.
Proof.
  unfold normalizeResponse. rewrite isObject_guard.
  destruct (isObject resp) eqn:Hobj; simpl; [|eauto].
  destruct (getProp_object resp (lit "segments") Hobj) as [s Hs].
  destruct (getProp_object resp (lit "output_content") Hobj) as [o Ho].
  rewrite Hs, Ho. simpl. eexists. split; [reflexivity|].
  eexists. split; [reflexivity|]. split.
  - intros k [-> | ->].
    + rewrite lookup_insert_ne, lookup_insert_eq by discriminate.
      destruct s; simpl; eexists; (split; [reflexivity|]);
        intros x Hx; rewrite Hs in Hx; by inversion Hx.
    + rewrite lookup_insert_eq.
      destruct o; simpl; eexists; (split; [reflexivity|]);
        intros x Hx; rewrite Ho in Hx; by inversion Hx.
  - intros k Hk1 Hk2. by rewrite !lookup_insert_ne.
Qed.

(** C10: normalizing a normalized response changes nothing. *)
Theorem normalizeResponse_idempotent (x : value) :
  (let* y := normalizeResponse x in normalizeResponse y) = normalizeResponse x.
Proof.
  destruct (isObject x) eqn:Hobj.
  - unfold normalizeResponse at 1 3. rewrite isObject_guard, Hobj. simpl.
    destruct (getProp_object x (lit "segments") Hobj) as [s ->].
    destruct (getProp_object x (lit "output_content") Hobj) as [o ->].
    simpl. unfold normalizeResponse. simpl.
    rewrite lookup_insert_eq.
    rewrite (lookup_insert_ne _ (lit "output_content") (lit "segments"))
      by discriminate.
    rewrite lookup_insert_eq. simpl.
    assert (Hs : isArray (if isArray s then s else VArr []) = true)
      by (by destruct s).
    assert (Ho : isArray (if isArray o then o else VArr []) = true)
      by (by destruct o).
    rewrite Hs, Ho. do 2 f_equal.
    rewrite (insert_id _ (lit "segments")).
    + by rewrite insert_insert_eq.
    + by rewrite lookup_insert_ne, lookup_insert_eq by discriminate.
  - unfold normalizeResponse at 1 3. rewrite isObject_guard, Hobj. reflexivity.
Qed.

(** ** Status classifier *)

Lemma elem_of_TERMINAL_STATUSES s :
  s ∈ TERMINAL_STATUSES ↔
  s = lit "completed" ∨ s = lit "failed" ∨ s = lit "cancelled".
Proof.
  unfold TERMINAL_STATUSES.
  rewrite !elem_of_union, !elem_of_singleton. tauto.
Qed.

(** C5: isTerminal answers true exactly for a status whose string
    form, lower-cased, is completed, failed or cancelled; null,
    undefined, the empty string and every other string give false. *)
Theorem isTerminal_spec (status : value) :
  (isTerminal status = Ok true ↔
     truthy status = true ∧
     ∃ s, ToString status = Ok s ∧
       (toLowerCase s = lit "completed" ∨ toLowerCase s = lit "failed"
        ∨ toLowerCase s = lit "cancelled")) ∧
  (∀ s, status = VStr s →
     isTerminal status =
       Ok (bool_decide (toLowerCase s = lit "completed"
                        ∨ toLowerCase s = lit "failed"
                        ∨ toLowerCase s = lit "cancelled"))) ∧
  (status = VNull ∨ status = VUndef ∨ status = VStr [] →
     isTerminal status = Ok false).
Proof.
  split; [|split].
  - unfold isTerminal. destruct (truthy status); simpl.
    + destruct (ToString status) as [s|]; simpl.
      * split.
        -- intros [= H%bool_decide_eq_true%elem_of_TERMINAL_STATUSES]. eauto.
        -- intros [_ (s' & [= <-] & H)]. f_equal.
           by apply bool_decide_eq_true, elem_of_TERMINAL_STATUSES.
      * split; [discriminate|]. by intros [_ (s' & ? & _)].
    + split; [discriminate|]. by intros [? _].
  - intros s ->. unfold isTerminal. simpl. destruct s as [|c s].
    + reflexivity.
    + simpl. f_equal. apply bool_decide_ext, elem_of_TERMINAL_STATUSES.
  - by intros [-> | [-> | ->]].
Qed.


(** ** Latest commentary *)

Lemma isObject_truthy v :
  isObject v = negb (negb (truthy v) || negb (typeofObject v)).
Proof. rewrite isObject_guard. by destruct (isObject v). Qed.

Lemma scanCommentary_cons (e : value) (entries : list value) :
  typedEntry e = true →
  scanCommentary (e :: entries) =
    if isCommentary e then Ok (entryText e) else scanCommentary entries.
Proof.
  intros Ht. cbn [scanCommentary]. rewrite isObject_guard.
  unfold isCommentary, typedEntry in *.
  destruct (isObject e) eqn:Hobj; [|reflexivity].
  destruct (getProp_object e (lit "type") Hobj) as [t Hty].
  unfold getPropOpt in *. rewrite Hty in *. cbn [negb andb orb bind] in *.
  fold (getPropOpt e (lit "text")). fold (getPropOpt e (lit "content")).
  fold (entryText e).
  destruct t as [| |[]|n|[|c ts]| |]; try discriminate; try reflexivity.
  - cbn in Ht. destruct (n =? 0) eqn:Hn; [|discriminate].
    unfold orElse. cbn. rewrite Hn. reflexivity.
  - unfold orElse. cbn [truthy callToLowerCase bind].
    destruct (bool_decide _); [|reflexivity].
    destruct (entryText e) as [| | | |s| |]; try reflexivity.
Qed.

Lemma scanCommentary_find (entries : list value) :
  forallb typedEntry entries = true →
  scanCommentary entries =
    Ok (match find isCommentary entries with
        | Some e => entryText e
        | None => VNull
        end).
Proof.
  induction entries as [|e entries IH]; [reflexivity|].
  intros [He Hes]%andb_prop. rewrite (scanCommentary_cons _ _ He).
  cbn [find]. destruct (isCommentary e); [reflexivity|]. by apply IH.
Qed.





(** ** Commentary formatting *)

Lemma words_wordlike (s : jsstring) : Forall wordlike (words s).
Proof.
  induction s as [|c s IH]; [constructor|]. simpl.
  destruct (isWS c) eqn:Hc; [exact IH|].
  destruct (headIsWord s).
  - destruct (words s) as [|w ws].
    + repeat constructor; [discriminate|exact Hc].
    + inversion_clear IH as [|? ? [? ?] ?].
      constructor; [|assumption]. split; [discriminate|by constructor].
  - constructor; [|exact IH]. split; [discriminate|by repeat constructor].
Qed.

Lemma unwords_cons (w : jsstring) (ws : list jsstring) :
  unwords (w :: ws) =
    w ++ match ws with [] => [] | _ => space :: unwords ws end.
Proof. destruct ws; simpl; [by rewrite app_nil_r|reflexivity]. Qed.

Lemma words_head_word (c : N) (s : jsstring) :
  isWS c = false → ∃ w ws, words (c :: s) = (c :: w) :: ws.
Proof.
  intros Hc. simpl. rewrite Hc. destruct (headIsWord s); [|eauto].
  destruct (words s); eauto.
Qed.

Lemma endsWS_cons (c : N) (s : jsstring) :
  s ≠ [] → endsWS (c :: s) = endsWS s.
Proof. intros Hs. unfold endsWS. by rewrite last_cons; destruct (last s) eqn:E;
  [|apply last_None in E]. Qed.

Lemma words_nil_endsWS (s : jsstring) :
  words s = [] → s ≠ [] → endsWS s = true.
Proof.
  induction s as [|c s IH]; [done|]. intros Hw _. simpl in Hw.
  destruct (isWS c) eqn:Hc.
  - destruct s as [|d s]; [unfold endsWS; simpl; by rewrite Hc|].
    rewrite endsWS_cons by discriminate. by apply IH.
  - destruct (headIsWord s); [destruct (words s)|]; discriminate.
Qed.

(** Inside a run the replacement drops leading white space and leaves
    the words, single-spaced, with one trailing space when the string
    ends in white space. *)
Lemma collapseGo_true_words (s : jsstring) :
  collapseGo true s =
    unwords (words s) ++
    (if match words s with [] => false | _ => true end && endsWS s
     then [space] else []).
Proof.
  induction s as [|c s IH]; [reflexivity|].
  cbn [collapseGo words]. destruct (isWS c) eqn:Hc.
  - rewrite IH. destruct s as [|d s]; [reflexivity|].
    rewrite (endsWS_cons c) by discriminate. reflexivity.
  - destruct s as [|d s].
    { simpl. unfold endsWS. simpl. by rewrite Hc. }
    rewrite endsWS_cons by discriminate.
    cbn [headIsWord collapseGo]. cbn [collapseGo] in IH.
    destruct (isWS d) eqn:Hd; cbn [negb].
    + rewrite IH, unwords_cons.
      destruct (words (d :: s)) as [|w ws] eqn:Hw.
      * rewrite (words_nil_endsWS (d :: s)) by done. reflexivity.
      * cbn [andb]. by rewrite <- app_assoc.
    + destruct (words_head_word d s Hd) as (w & ws & Hw).
      rewrite Hw in *. rewrite IH.
      rewrite !unwords_cons. reflexivity.
Qed.

Lemma collapseGo_true_head (s : jsstring) :
  trimStart (collapseGo true s) = collapseGo true s.
Proof.
  induction s as [|c s IH]; [reflexivity|]. simpl.
  destruct (isWS c) eqn:Hc; [exact IH|]. simpl. by rewrite Hc.
Qed.

Lemma trimStart_collapse (s : jsstring) :
  trimStart (collapseWS s) = collapseGo true s.
Proof.
  destruct s as [|c s]; [reflexivity|]. unfold collapseWS. simpl.
  destruct (isWS c) eqn:Hc; simpl; [apply collapseGo_true_head|by rewrite Hc].
Qed.

Lemma unwords_last (ws : list jsstring) :
  Forall wordlike ws → ws ≠ [] →
  ∃ J c, unwords ws = J ++ [c] ∧ isWS c = false.
Proof.
  induction 1 as [|w ws [Hw Hcs] Hws IH]; [done|]. intros _.
  rewrite unwords_cons. destruct ws as [|w' ws'].
  - destruct (exists_last Hw) as (J & c & ->). exists J, c.
    rewrite app_nil_r. split; [done|].
    apply Forall_app in Hcs as [_ Hc]. by inversion Hc.
  - destruct IH as (J & c & -> & Hc); [done|].
    exists (w ++ space :: J), c. split; [|done].
    by rewrite <- app_assoc.
Qed.

(** Collapsing and trimming leaves the words of the input, separated by
    single spaces. *)
Lemma trim_collapse_words (s : jsstring) :
  trim (collapseWS s) = unwords (words s).
Proof.
  unfold trim. rewrite trimStart_collapse, collapseGo_true_words.
  destruct (words s) as [|w ws] eqn:Hw; [reflexivity|].
  destruct (unwords_last (w :: ws)) as (J & c & HJ & Hc); [|done|].
  { rewrite <- Hw. apply words_wordlike. }
  rewrite HJ. cbn [andb].
  assert (Hrev : trimStart (rev (J ++ [c])) = rev (J ++ [c])).
  { rewrite rev_unit. simpl. by rewrite Hc. }
  destruct (endsWS s).
  - rewrite rev_unit. cbn [trimStart]. change (isWS space) with true.
    cbn iota. rewrite Hrev. apply rev_involutive.
  - rewrite app_nil_r, Hrev. apply rev_involutive.
Qed.

Lemma splitGo_acc (s : jsstring) (a : bool) (acc : jsstring) :
  splitGo false a acc s =
    match splitGo false a [] s with
    | p :: ps => (rev acc ++ p) :: ps
    | [] => []
    end.
Proof.
  revert a acc. induction s as [|c s IH]; intros a acc.
  - simpl. by rewrite app_nil_r.
  - cbn [splitGo]. destruct (isWS c).
    + destruct a; [by rewrite app_nil_r|].
      rewrite (IH false (c :: acc)), (IH false [c]).
      destruct (splitGo false false [] s); [done|].
      simpl. by rewrite <- app_assoc.
    + rewrite (IH _ (c :: acc)), (IH _ [c]).
      destruct (splitGo false (isTerminator c) [] s); [done|].
      simpl. by rewrite <- app_assoc.
Qed.

Lemma endsSentence_cons (c : N) (w : jsstring) :
  w ≠ [] → endsSentence (c :: w) = endsSentence w.
Proof.
  intros Hw. unfold endsSentence. rewrite last_cons.
  destruct (last w) eqn:E; [done|]. by apply last_None in E.
Qed.

(** Scanning a word only extends the current piece. *)
Lemma splitGo_word (w rest : jsstring) (a : bool) (acc : jsstring) :
  wordlike w →
  splitGo false a acc (w ++ rest) =
    splitGo false (endsSentence w) (rev w ++ acc) rest.
Proof.
  intros [Hne Hw]. revert a acc.
  induction w as [|c w IH]; [done|]. intros a acc.
  inversion_clear Hw as [|? ? Hc Hw']. cbn [app splitGo]. rewrite Hc.
  destruct w as [|d w].
  - reflexivity.
  - rewrite IH by (done || discriminate).
    rewrite (endsSentence_cons c (d :: w)) by discriminate.
    cbn [rev]. by rewrite <- !app_assoc.
Qed.

Lemma splitGo_skip (s : jsstring) (a : bool) :
  headIsWord s = true → splitGo true a [] s = splitGo false a [] s.
Proof. destruct s as [|c s]; [done|]. simpl. by destruct (isWS c). Qed.

Lemma unwords_headIsWord (ws : list jsstring) :
  Forall wordlike ws → ws ≠ [] → headIsWord (unwords ws) = true.
Proof.
  intros Hws Hne. destruct ws as [|w ws]; [done|].
  inversion_clear Hws as [|? ? [Hw Hc] _]. rewrite unwords_cons.
  destruct w as [|c w]; [done|]. inversion_clear Hc as [|? ? Hc' _].
  simpl. by rewrite Hc'.
Qed.

Lemma groupSentences_grouplike (ws : list jsstring) :
  Forall wordlike ws → Forall grouplike (groupSentences ws).
Proof.
  induction 1 as [|w ws Hw Hws IH]; [constructor|]. simpl.
  destruct (endsSentence w).
  - constructor; [|done]. split; [discriminate|by constructor].
  - destruct (groupSentences ws) as [|g gs].
    + constructor; [|done]. split; [discriminate|by constructor].
    + inversion_clear IH as [|? ? [? ?] ?].
      constructor; [|done]. split; [discriminate|by constructor].
Qed.

Lemma groupSentences_nonempty (ws : list jsstring) :
  ws ≠ [] → groupSentences ws ≠ [].
Proof.
  destruct ws as [|w ws]; [done|]. intros _. simpl.
  destruct (endsSentence w); [done|]. by destruct (groupSentences ws).
Qed.

Lemma groupSentences_concat (ws : list jsstring) :
  concat (groupSentences ws) = ws.
Proof.
  induction ws as [|w ws IH]; [done|]. simpl.
  destruct (endsSentence w); simpl; [by rewrite IH|].
  destruct (groupSentences ws) as [|g gs]; simpl in *; by rewrite <- IH.
Qed.

(** On single-spaced words the regular-expression split yields the
    sentences word by word. *)
Lemma splitGo_unwords (ws : list jsstring) (a : bool) :
  Forall wordlike ws → ws ≠ [] →
  splitGo false a [] (unwords ws) = List.map unwords (groupSentences ws).
Proof.
  intros Hws. revert a.
  induction Hws as [|w ws Hw Hws IH]; [done|]. intros a _.
  rewrite unwords_cons. destruct ws as [|w' ws'].
  - rewrite splitGo_word by done. simpl.
    rewrite app_nil_r, rev_involutive.
    by destruct (endsSentence w).
  - set (rest := w' :: ws') in *.
    assert (Hrest : rest ≠ []) by discriminate.
    rewrite splitGo_word by done. cbn [splitGo].
    change (isWS space) with true. cbn iota. rewrite app_nil_r.
    cbn [groupSentences]. destruct (endsSentence w).
    + rewrite rev_involutive.
      rewrite splitGo_skip by (by apply unwords_headIsWord).
      rewrite IH by done. reflexivity.
    + rewrite splitGo_acc, IH by done.
      pose proof (groupSentences_nonempty rest Hrest) as Hg.
      pose proof (groupSentences_grouplike rest Hws) as Hgl.
      destruct (groupSentences rest) as [|g gs]; [done|].
      inversion_clear Hgl as [|? ? [Hgne _] _].
      cbn [List.map rev]. rewrite rev_involutive.
      rewrite (unwords_cons w g). destruct g; [done|].
      simpl. by rewrite <- app_assoc.
Qed.

Lemma unwords_nonEmpty (g : list jsstring) :
  grouplike g → nonEmpty (unwords g) = true.
Proof.
  intros [Hne Hg]. destruct g as [|w g]; [done|].
  inversion_clear Hg as [|? ? [Hw _] _]. rewrite unwords_cons.
  by destruct w.
Qed.

Lemma filter_nonEmpty_groups (gs : list (list jsstring)) :
  Forall grouplike gs →
  List.filter nonEmpty (List.map unwords gs) = List.map unwords gs.
Proof.
  induction 1 as [|g gs Hg _ IH]; [done|]. simpl.
  by rewrite unwords_nonEmpty, IH.
Qed.

Lemma last_map {A B} (f : A → B) (l : list A) :
  last (List.map f l) = option_map f (last l).
Proof.
  induction l as [|x [|y l] IH]; [done..|]. exact IH.
Qed.

(** The sentences the source computes are the word groups. *)
Lemma sentences_words (s : jsstring) :
  words s ≠ [] →
  List.filter nonEmpty (splitSentences (unwords (words s))) =
    List.map unwords (groupSentences (words s)).
Proof.
  intros Hne. unfold splitSentences.
  rewrite splitGo_unwords by (done || apply words_wordlike).
  apply filter_nonEmpty_groups, groupSentences_grouplike, words_wordlike.
Qed.

Lemma formatCommentary_eq_spec (s : jsstring) :
  formatCommentary (VStr s) = Ok (formatCommentary_spec s).
Proof.
  unfold formatCommentary, formatCommentary_spec.
  destruct s as [|c s]; [reflexivity|].
  cbn [truthy negb ToString bind]. rewrite trim_collapse_words.
  set (s0 := c :: s).
  destruct (nonEmpty (unwords (words s0))) eqn:Hne; [|reflexivity].
  cbn [negb]. destruct (length (unwords (words s0)) <=? 140)%nat; [done|].
  rewrite sentences_words by (by destruct (words s0)).
  rewrite last_map. destruct (last (groupSentences (words s0))) as [g|];
    [|reflexivity].
  simpl. by destruct (length (unwords g) <=? 140)%nat.
Qed.

Lemma truncated_shape (cleaned : jsstring) :
  (137 ≤ length cleaned)%nat →
  length (truncated cleaned) = 138%nat ∧
  last (truncated cleaned) = Some ellipsis.
Proof.
  intros H. unfold truncated. rewrite length_app, length_take, last_snoc.
  rewrite Nat.min_l by exact H. split; reflexivity.
Qed.

Lemma single_sentence (ws : list jsstring) :
  length (groupSentences ws) = 1%nat → last (groupSentences ws) = Some ws.
Proof.
  intros H. pose proof (groupSentences_concat ws) as Hc.
  destruct (groupSentences ws) as [|g [|g' gs]]; try discriminate.
  simpl in Hc. rewrite app_nil_r in Hc. by subst.
Qed.

(** C3 (amended): formatCommentary collapses white space and trims; a
    blank input gives none; a cleaned string of at most 140 units is
    returned as it is; otherwise the last sentence is returned when it
    has at most 140 units, and else the first 137 units followed by the
    ellipsis, 138 units in all. *)
Theorem formatCommentary_correct (s : jsstring) :
  trim (collapseWS s) = unwords (words s) ∧
  formatCommentary (VStr s) = Ok (formatCommentary_spec s) ∧
  (length (groupSentences (words s)) = 1%nat →
   (140 < length (unwords (words s)))%nat →
   ∃ r, formatCommentary (VStr s) = Ok (VStr r) ∧
        r = take 137 (unwords (words s)) ++ [ellipsis] ∧
        length r = 138%nat ∧ last r = Some ellipsis) ∧
  formatCommentary (VLit "  a   b  ") = Ok (VLit "a b") ∧
  formatCommentary (VStr (repeat 97%N 200)) =
    Ok (VStr (repeat 97%N 137 ++ [ellipsis])).
Proof.
  split; [apply trim_collapse_words|].
  split; [apply formatCommentary_eq_spec|].
  split; [|split; vm_compute; reflexivity].
  intros Hone Hlen. rewrite formatCommentary_eq_spec.
  unfold formatCommentary_spec. rewrite (single_sentence _ Hone).
  destruct (unwords (words s)) as [|c cleaned] eqn:Hc; [simpl in Hlen; lia|].
  cbn [nonEmpty negb].
  destruct (Nat.leb_spec (length (c :: cleaned)) 140) as [Hle|_]; [lia|].
  eexists. split; [reflexivity|]. split; [reflexivity|].
  apply truncated_shape. lia.
Qed.

Lemma formatCommentary_correct_witness :
  length (groupSentences (words (repeat 97%N 200))) = 1%nat ∧
  (140 < length (unwords (words (repeat 97%N 200))))%nat ∧
  ∃ r, formatCommentary (VStr (repeat 97%N 200)) = Ok (VStr r) ∧
       r = take 137 (unwords (words (repeat 97%N 200))) ++ [ellipsis] ∧
       length r = 138%nat ∧ last r = Some ellipsis.
Proof.
  split; [vm_compute; reflexivity|].
  split; [vm_compute; lia|].
  apply (formatCommentary_correct (repeat 97%N 200));
    vm_compute; [reflexivity|lia].
Defined.

(** A blank input is not returned as it is: the result is none, not
    the empty string. *)
Lemma formatCommentary_blank_counterexample :
  ¬ returnsCleanedAsIs (lit "   ").
Proof.
  unfold returnsCleanedAsIs. intros H.
  assert (Hlen : (length (trim (collapseWS (lit "   "))) ≤ 140)%nat)
    by (vm_compute; lia).
  specialize (H Hlen). vm_compute in H. discriminate H.
Qed.

(** ** Primary polling engine *)

Lemma normalizeResponse_nonobject (v : value) :
  isObject v = false → normalizeResponse v = Ok VNull.
Proof. intros H. unfold normalizeResponse. by rewrite isObject_guard, H. Qed.

Lemma normalizeResponse_object (v : value) :
  isObject v = true →
  ∃ m, normalizeResponse v = Ok (VObj m) ∧
       ∀ k, k ≠ lit "segments" → k ≠ lit "output_content" →
            m !! k = ownProps v !! k.
Proof.
  intros H. unfold normalizeResponse. rewrite isObject_guard, H. simpl.
  destruct (getProp_object v (lit "segments") H) as [s ->].
  destruct (getProp_object v (lit "output_content") H) as [o ->].
  simpl. eexists. split; [reflexivity|].
  intros k Hk1 Hk2. by rewrite !lookup_insert_ne.
Qed.

Lemma normalizeResponse_total (v : value) :
  ∃ data, normalizeResponse v = Ok data ∧ truthy data = isObject v.
Proof.
  destruct (isObject v) eqn:H.
  - destruct (normalizeResponse_object v H) as (m & -> & _). eauto.
  - rewrite (normalizeResponse_nonobject v H). eauto.
Qed.

Lemma pollTick_cancelled (reply : fetch_result) (st : poll_state) :
  pollTick true reply st = st.
Proof.
  unfold pollTick. destruct reply as [|[] [body|]]; try reflexivity.
  by destruct (normalizeResponse_total body) as (data & -> & _).
Qed.





(** A fetched object whose status shadows [toString] with a number:
    the response is replaced, then [String(status)] throws and the
    catch block records the advisory message. *)
Example pollTick_unprintable_status :
  let body := obj [(lit "status", obj [(lit "toString", VNum 1)])] in
  ∃ data, normalizeResponse body = Ok data ∧
    pollTick false (success body) pollingExample =
      {| response := data; pollError := Some advisory;
         isPolling := isPolling pollingExample |}.
Proof. eexists. split; vm_compute; reflexivity. Qed.

(** Three failed ticks, then the completed response. *)
Lemma pollTicks_three_failures_then_completed :
  let completed := obj [(lit "id", VLit "r1"); (lit "status", VLit "completed");
                        (lit "output_content", VArr [VLit "report"])] in
  let st0 := {| response := VNull; pollError := None; isPolling := true |} in
  pollTicks [NetworkError; HttpResponse false (Ok VNull); NetworkError] st0 =
    {| response := VNull; pollError := Some advisory; isPolling := true |} ∧
  ∃ data, normalizeResponse completed = Ok data ∧
    pollTicks [NetworkError; HttpResponse false (Ok VNull); NetworkError;
               success completed] st0 =
      {| response := data; pollError := None; isPolling := false |}.
Proof. split; [reflexivity|]. eexists. split; vm_compute; reflexivity. Qed.


(** ** Chat polling and staleness *)

Lemma lowerUnit_idem (c : N) : flat_map lowerUnit (lowerUnit c) = lowerUnit c.
Proof.
  unfold lowerUnit.
  destruct (N.leb_spec 65 c), (N.leb_spec c 90); simpl.
  - destruct (N.leb_spec 65 (c + 32)), (N.leb_spec (c + 32) 90); simpl;
      try lia.
    destruct (N.eqb_spec (c + 32) 8490); [lia|].
    destruct (N.eqb_spec (c + 32) 304); [lia|]. reflexivity.
  - destruct (N.eqb_spec c 8490) as [->|]; [reflexivity|].
    destruct (N.eqb_spec c 304) as [->|]; [reflexivity|].
    simpl. unfold lowerUnit.
    destruct (N.leb_spec 65 c), (N.leb_spec c 90); simpl; try lia.
    destruct (N.eqb_spec c 8490); [done|].
    by destruct (N.eqb_spec c 304).
  - destruct (N.eqb_spec c 8490) as [->|]; [reflexivity|].
    destruct (N.eqb_spec c 304) as [->|]; [reflexivity|].
    simpl. unfold lowerUnit.
    destruct (N.leb_spec 65 c), (N.leb_spec c 90); simpl; try lia.
    destruct (N.eqb_spec c 8490); [done|].
    by destruct (N.eqb_spec c 304).
  - lia.
Qed.

Lemma toLowerCase_idem (s : jsstring) :
  toLowerCase (toLowerCase s) = toLowerCase s.
Proof.
  unfold toLowerCase. induction s as [|c s IH]; [reflexivity|].
  simpl. by rewrite flat_map_app, lowerUnit_idem, IH.
Qed.

Lemma toLowerCase_nil (s : jsstring) : toLowerCase s = [] ↔ s = [].
Proof.
  split; [|by intros ->]. destruct s as [|c s]; [done|].
  unfold toLowerCase, lowerUnit. simpl.
  by repeat match goal with |- context [if ?b then _ else _] => destruct b end.
Qed.

(** The terminal test is insensitive to case. *)
Lemma isTerminal_toLowerCase (s : jsstring) :
  isTerminal (VStr (toLowerCase s)) = isTerminal (VStr s).
Proof.
  unfold isTerminal. cbn [truthy ToString].
  destruct s as [|c s]; [reflexivity|].
  destruct (toLowerCase (c :: s)) eqn:E.
  - by apply (proj1 (toLowerCase_nil _)) in E.
  - cbn [negb bind]. by rewrite <- E, toLowerCase_idem.
Qed.

(** A status that passes the pending test is not terminal. *)
Lemma pendingOrProcessing_not_terminal (status : value) :
  pendingOrProcessing status = true → isTerminal status = Ok false.
Proof.
  unfold pendingOrProcessing. destruct status as [| | | |s| |]; try done.
  simpl. intros [->%bool_decide_eq_true_1 | ->%bool_decide_eq_true_1]%orb_prop;
    reflexivity.
Qed.

(** The liveness query of the chat engine is sent only for a pending
    or processing status, and the reclassification only follows a query
    answered [slept]. *)
Lemma chatPollTick_sideQuery (cancelled : bool)
    (reply agentReply : fetch_result) (st : chat_poll_state) :
  sideQuery (chatPollTick cancelled reply agentReply st) = true →
  cancelled = false ∧
  ∃ body data status,
    reply = success body ∧ normalizeResponse body = Ok data ∧
    getProp data (lit "status") = Ok status ∧
    pendingOrProcessing status = true ∧ isTerminal status = Ok false.
Proof.
  unfold chatPollTick. destruct reply as [|[] [body|]]; try done.
  destruct (normalizeResponse body) as [data|] eqn:Hd; [|done].
  destruct cancelled; [done|]. cbn [negb andb].
  destruct (truthy data); [|done].
  destruct (getProp data (lit "status")) as [status|] eqn:Hs; [|done].
  intros H. split; [done|]. exists body, data, status.
  assert (Hp : pendingOrProcessing status = true).
  { destruct (pendingOrProcessing status); [done|]. cbn [andb] in H.
    by destruct (isTerminal status) as [[]|]. }
  repeat split; try done. by apply pendingOrProcessing_not_terminal.
Qed.

(** The chat polling engine reclassifies whatever the age: a pending or
    processing response is marked [busy_timeout] and its polling
    stopped as soon as the agent is reported asleep. *)
Lemma chatPollTick_slept (body data status : value)
    (agentReply : fetch_result) (st : chat_poll_state) :
  isObject body = true → normalizeResponse body = Ok data →
  getProp data (lit "status") = Ok status →
  pendingOrProcessing status = true → agentSlept agentReply = true →
  chatPollTick false (success body) agentReply st =
    {| chat_after :=
         chatStop (updateCurrent (currentChatResponseId st)
                     (withBusyTimeout data) (chatMessages st));
       sideQuery := true |}.
Proof.
  intros Ho Hd Hs Hp Ha. unfold chatPollTick, success.
  destruct (normalizeResponse_total body) as (data' & Hd' & Htr).
  rewrite Hd in Hd'. injection Hd' as <-.
  by rewrite Hd, Htr, Ho, Hs, Hp, Ha.
Qed.

(** C1, on the code: the chat polling engine marks a response that
    was created a moment ago as [busy_timeout], sends the liveness query
    for it and stops polling, because it never looks at the age; the
    history builder, five seconds after the creation of the same
    response, neither asks nor reclassifies. *)
Theorem chatPollTick_reclassifies_fresh_response :
  let r := chatPollTick false (success freshPending) sleptReply trackingFresh in
  sideQuery r = true ∧
  isChatPolling (chat_after r) = false ∧
  currentChatResponseId (chat_after r) = VNull ∧
  List.map msg_status (chatMessages (chat_after r))
    = [VUndef; VLit "busy_timeout"] ∧
  List.map msg_agentState (chatMessages (chat_after r))
    = [VUndef; VLit "slept"] ∧
  dateMinus (Some (clock rightAway))
    (DateParse exampleHost (lit "2024-01-01T02:00:00Z")) = Some 5000 ∧
  List.map askedAgent (historySteps exampleHost rightAway freshFollowUp)
    = [false] ∧
  statusesOf (historyStep exampleHost rightAway freshFollowUp)
    = [VLit "pending"].
Proof. vm_compute. repeat split. Qed.

(** C2, on the code: the test guarding the staleness check compares
    the status with [===]; an old response whose status reads PENDING
    is left as it is where the same response with status pending is
    reclassified, and the chat polling engine sends the liveness query
    for the second only. *)
Theorem pending_check_is_case_sensitive :
  pendingOrProcessing (VLit "PENDING") = false ∧
  pendingOrProcessing (VStr (toLowerCase (lit "PENDING"))) = true ∧
  statusesOf (historyStep exampleHost twoHoursLater oldUpperPending)
    = [VLit "PENDING"] ∧
  statusesOf (historyStep exampleHost twoHoursLater oldLowerPending)
    = [VLit "busy_timeout"] ∧
  sideQuery (chatPollTick false (success oldUpperPending) sleptReply
               trackingFresh) = false ∧
  sideQuery (chatPollTick false (success oldLowerPending) sleptReply
               trackingFresh) = true ∧
  isTerminal (VLit "COMPLETED") = isTerminal (VLit "completed").
Proof. vm_compute. repeat split. Qed.

(** ** Chat timeline builder *)

Lemma getProp_length_str (s : jsstring) :
  getProp (VStr s) (lit "length") = Ok (VNum (Z.of_nat (length s))).
Proof. reflexivity. Qed.

Lemma getProp_zero_arr (l : list value) :
  getProp (VArr l) (lit "0") = Ok (default VUndef (head l)).
Proof. by destruct l. Qed.

Lemma getProp_truthy (v : value) (k : jsstring) :
  truthy v = true → ∃ x, getProp v k = Ok x.
Proof.
  destruct v; try discriminate; intros _; simpl; eauto;
    (case_decide; [eauto|]); destruct (parseIndex k); eauto.
Qed.

Lemma ltb_of_nat (n : nat) : (500 <? Z.of_nat n) = (500 <? n)%nat.
Proof.
  destruct (Z.ltb_spec 500 (Z.of_nat n)), (Nat.ltb_spec 500 n); try done; lia.
Qed.

Lemma userContentOf_obj (m : gmap jsstring value) :
  userContentOf (VObj m) = Ok (userContent (VObj m)).
Proof.
  unfold userContent, userContentOf. cbn [getProp bind].
  destruct (default VUndef (m !! lit "input_content")) as [| | | | |l|];
    cbn [truthy isArray andb bind]; rewrite ?andb_false_r; try reflexivity.
  change (getProp (VArr l) (lit "length")) with (Ok (VNum (Z.of_nat (length l)))).
  cbn [bind]. destruct (0 <? Z.of_nat (length l)); [|reflexivity].
  rewrite getProp_zero_arr.
  cbn [bind]. destruct (truthy (default VUndef (head l))) eqn:Ht; [|reflexivity].
  destruct (getProp_truthy _ (lit "content") Ht) as [c ->]. cbn [bind].
  by destruct c.
Qed.

(** A message that is not blank is the very string the filter tested. *)
Lemma inputString_userContent (m : gmap jsstring value) :
  blank (userContent (VObj m)) = false →
  inputString (VObj m) = userContent (VObj m).
Proof.
  unfold inputString, inputContentOf, userContent, userContentOf.
  cbn [getProp bind].
  destruct (default VUndef (m !! lit "input_content")) as [| | | | |l|];
    cbn [truthy isArray andb bind]; rewrite ?andb_false_r; try done.
  change (getProp (VArr l) (lit "length")) with (Ok (VNum (Z.of_nat (length l)))).
  cbn [bind]. destruct (0 <? Z.of_nat (length l)); [|done].
  unfold getPropOpt at 2. rewrite !getProp_zero_arr. cbn [bind].
  destruct (truthy (default VUndef (head l))) eqn:Ht; [|done].
  unfold getPropOpt.
  destruct (getProp_truthy _ (lit "content") Ht) as [c ->]. cbn [bind].
  destruct c as [| | | |s| |]; try done.
  destruct s; [done|]. reflexivity.
Qed.

Lemma excluded_converted (cur : value) (m : gmap jsstring value) :
  keptByFilter cur (VObj m) && converted (VObj m) =
  negb (excludedFromChat cur (VObj m)).
Proof.
  unfold keptByFilter, converted, excludedFromChat.
  destruct (blank (userContent (VObj m))) eqn:Hb.
  - rewrite !orb_true_r. cbn [negb]. by rewrite !andb_false_r.
  - rewrite (inputString_userContent m Hb).
    destruct (truthy (idOf (VObj m))), (strictEq (idOf (VObj m)) cur),
      (tooLong (userContent (VObj m))), (generatedPrompt (userContent (VObj m)));
      reflexivity.
Qed.

Lemma chatFilter_typed (h : host) (cur r : value) :
  typedResponse r = true → chatFilter h cur r = Ok (keptByFilter cur r).
Proof.
  destruct r as [| | | | | |m]; try discriminate.
  unfold typedResponse, chatFilter, keptByFilter, inputString.
  intros [[_ _]%andb_prop Hc]%andb_prop.
  cbn [truthy negb]. change (getProp (VObj m) (lit "id")) with (Ok (idOf (VObj m))).
  cbn [bind]. destruct (truthy (idOf (VObj m))); [|reflexivity].
  cbn [negb andb]. destruct (strictEq (idOf (VObj m)) cur); [reflexivity|].
  cbn [negb andb]. unfold inputContentOf. cbn [getProp bind] in *.
  unfold getPropOpt at 3 in Hc. unfold getPropOpt at 5 in Hc.
  cbn [getProp] in Hc.
  set (c := getPropOpt (getPropOpt (default VUndef (m !! lit "input_content"))
                          (lit "0")) (lit "content")) in *.
  assert (Hs : ∃ s, orElse c (VStr []) = VStr s).
  { unfold orElse. destruct c as [| |[]|n|s| |]; try discriminate; eauto.
    - simpl in *. destruct (n =? 0); [eauto|done].
    - destruct s; eauto. }
  destruct Hs as [s ->]. rewrite getProp_length_str. cbn [bind valueGt].
  rewrite ltb_of_nat. unfold tooLong, generatedPrompt.
  destruct (500 <? length s)%nat; [reflexivity|].
  cbn [negb andb callIncludes bind].
  destruct (includes s (lit "Clone")); reflexivity.
Qed.

Lemma filterM_pure {A} (p : A → res bool) (q : A → bool) (l : list A) :
  (∀ x, In x l → p x = Ok (q x)) → filterM p l = Ok (List.filter q l).
Proof.
  induction l as [|x l IH]; [reflexivity|]. intros H. simpl.
  rewrite (H x (or_introl eq_refl)), IH by (intros; apply H; by right).
  reflexivity.
Qed.

Lemma insertByDate_perm (x : option Z * value) (l : list (option Z * value)) :
  Permutation (insertByDate x l) (x :: l).
Proof.
  induction l as [|y l IH]; [reflexivity|]. simpl.
  destruct (cmpLe x.1 y.1); [reflexivity|].
  rewrite IH. apply perm_swap.
Qed.

Lemma isort_perm (l : list (option Z * value)) : Permutation (isort l) l.
Proof.
  induction l as [|x l IH]; [reflexivity|]. simpl.
  rewrite insertByDate_perm. by constructor.
Qed.

Lemma sortedByDate_perm (h : host) (l : list value) :
  Permutation (sortedByDate h l) l.
Proof.
  unfold sortedByDate. rewrite isort_perm, List.map_map. simpl.
  by rewrite List.map_id.
Qed.

Lemma cmpLe_spec (a b : Z) : cmpLe (Some a) (Some b) = true ↔ a ≤ b.
Proof.
  unfold cmpLe. simpl. destruct (Z.ltb_spec 0 (a - b)); simpl; split;
    intros; try done; lia.
Qed.

Lemma insertByDate_sorted (x : option Z * value) (l : list (option Z * value)) :
  hasKey x → Forall hasKey l →
  StronglySorted keyLe l → StronglySorted keyLe (insertByDate x l).
Proof.
  intros [a Ha] Hl Hs. induction Hs as [|y l Hs IH Hy]; simpl.
  - repeat constructor.
  - inversion_clear Hl as [|? ? [b Hb] Hl']. rewrite Ha, Hb.
    destruct (cmpLe (Some a) (Some b)) eqn:E.
    + apply cmpLe_spec in E. constructor; [by constructor|].
      constructor; [unfold keyLe; by rewrite Ha, Hb|].
      eapply Forall_impl; [exact Hy|]. intros z. unfold keyLe.
      rewrite Ha, Hb. destruct z.1; [lia|done].
    + assert (b ≤ a).
      { destruct (Z.le_gt_cases a b) as [H|H]; [|lia].
        apply cmpLe_spec in H. congruence. }
      constructor; [by apply IH|].
      rewrite insertByDate_perm. constructor; [|done].
      unfold keyLe. by rewrite Ha, Hb.
Qed.

Lemma isort_sorted (l : list (option Z * value)) :
  Forall hasKey l → StronglySorted keyLe (isort l).
Proof.
  induction 1 as [|x l Hx Hl IH]; simpl; [constructor|].
  apply insertByDate_sorted; [done| |done].
  by rewrite isort_perm.
Qed.

Lemma StronglySorted_map_snd (h : host) (ks : list (option Z * value)) :
  Forall (fun p => p.1 = Some (createdAt h p.2)) ks →
  StronglySorted keyLe ks → StronglySorted (olderOrSame h) (List.map snd ks).
Proof.
  intros Hk Hs. induction Hs as [|x ks Hs IH Hx]; simpl; [constructor|].
  inversion_clear Hk as [|? ? Hx1 Hk'].
  constructor; [by apply IH|].
  apply Forall_map. rewrite Forall_forall in Hx, Hk' |- *.
  intros y Hy. specialize (Hx y Hy). specialize (Hk' y Hy).
  unfold keyLe, olderOrSame in *. by rewrite Hx1, Hk' in Hx.
Qed.

Lemma validDate_key (h : host) (r : value) :
  validDate h r = true → keyOf h r = Some (createdAt h r).
Proof.
  unfold validDate, keyOf, createdAt.
  by destruct (dateKey h r) as [[t|]|].
Qed.

(** With valid dates the responses come out oldest first. *)
Lemma sortedByDate_sorted (h : host) (l : list value) :
  forallb (validDate h) l = true →
  StronglySorted (olderOrSame h) (sortedByDate h l).
Proof.
  intros Hv. rewrite forallb_forall in Hv. unfold sortedByDate.
  set (ks := List.map (fun a => (keyOf h a, a)) l).
  assert (Hks : Forall (fun p => p.1 = Some (createdAt h p.2)) ks).
  { apply Forall_map, Forall_forall. intros r Hr%list_elem_of_In. simpl.
    by apply validDate_key, Hv. }
  apply StronglySorted_map_snd.
  - by rewrite isort_perm.
  - apply isort_sorted. eapply Forall_impl; [exact Hks|].
    intros p Hp. unfold hasKey. rewrite Hp. eauto.
Qed.

Lemma sequence_map_pure {A B} (f : A → res B) (g : A → B) (l : list A) :
  (∀ x, In x l → f x = Ok (g x)) →
  sequence (List.map f l) = Ok (List.map g l).
Proof.
  induction l as [|x l IH]; [reflexivity|]. intros H. simpl.
  rewrite (H x (or_introl eq_refl)), IH by (intros; apply H; by right).
  reflexivity.
Qed.

Lemma newDate_primitive (h : host) (v : value) :
  isObject v = false → ∃ k, newDate h v = Ok k.
Proof. destruct v; try discriminate; intros _; simpl; eauto. Qed.

Lemma orElse_primitive (a b : value) :
  isObject a = false → isObject b = false → isObject (orElse a b) = false.
Proof. unfold orElse. by destruct (truthy a). Qed.

Lemma dateKey_typed (h : host) (r : value) :
  typedResponse r = true → dateKey h r = Ok (keyOf h r).
Proof.
  destruct r as [| | | | | |m]; try discriminate.
  unfold typedResponse, keyOf, dateKey.
  intros [[_ Hc%negb_true_iff]%andb_prop _]%andb_prop.
  unfold getPropOpt in Hc. cbn [getProp bind] in *.
  destruct (newDate_primitive h (orElse (default VUndef (m !! lit "created_at"))
                                   (VNum 0))) as [k ->]; [|reflexivity].
  by apply orElse_primitive.
Qed.

Lemma sortByDate_typed (h : host) (l : list value) :
  forallb typedResponse l = true → sortByDate h l = Ok (sortedByDate h l).
Proof.
  intros Ht. destruct l as [|a [|b l]]; [reflexivity..|].
  unfold sortByDate, sortedByDate.
  rewrite (sequence_map_pure _ (fun a => (keyOf h a, a))); [reflexivity|].
  intros x Hx. rewrite forallb_forall in Ht. by rewrite dateKey_typed by auto.
Qed.

Lemma blank_code (s : jsstring) :
  negb (nonEmpty s) || (length (trim s) =? 0)%nat = blank s.
Proof.
  unfold blank. destruct s as [|c s]; [reflexivity|]. simpl negb. simpl orb.
  by destruct (trim (c :: s)).
Qed.

Lemma ToString_primitive (v : value) :
  isObject v = false → ∃ s, ToString v = Ok s.
Proof. destruct v; try discriminate; intros _; simpl; eauto. Qed.

(** One iteration of the conversion loop on a well-typed response. *)
Lemma historyStep_typed (h : host) (e : iter_env) (r : value) :
  typedResponse r = true →
  ∃ st, historyStep h e r = Ok st ∧
    if converted r
    then ∃ u a, emitted st = [u; a] ∧ historyPair r u a
    else emitted st = [].
Proof.
  destruct r as [| | | | | |m]; try discriminate.
  intros [[Hid%negb_true_iff Hc%negb_true_iff]%andb_prop _]%andb_prop.
  unfold historyStep, converted. cbn [truthy negb].
  change (getProp (VObj m) (lit "id")) with (Ok (idOf (VObj m))).
  cbn [bind].
  destruct (truthy (idOf (VObj m))); [|eexists; split; reflexivity].
  cbn [negb andb]. rewrite userContentOf_obj. cbn [bind].
  rewrite blank_code.
  destruct (blank (userContent (VObj m))); [eexists; split; reflexivity|].
  cbn [negb]. destruct (ToString_primitive _ Hid) as [idStr HidStr].
  rewrite HidStr. cbn [bind].
  change (getProp (VObj m) (lit "created_at"))
    with (Ok (getPropOpt (VObj m) (lit "created_at"))).
  cbn [bind]. destruct (newDate_primitive h _ Hc) as [d ->].
  change (getProp (VObj m) (lit "status"))
    with (Ok (getPropOpt (VObj m) (lit "status"))).
  change (getProp (VObj m) (lit "updated_at"))
    with (Ok (getPropOpt (VObj m) (lit "updated_at"))).
  cbn [bind].
  destruct (normalizeResponse_object (VObj m) eq_refl) as (m' & Hn & _).
  rewrite Hn. cbn [bind]. eexists. split; [reflexivity|].
  cbn [emitted]. do 2 eexists. split; [reflexivity|].
  unfold historyPair. cbn [msg_type_of msg_id msg_response msg_content].
  rewrite Hn. repeat split. eauto.
Qed.

Lemma historyLoop_typed (h : host) (env : nat → iter_env) (i : nat)
    (l : list value) :
  forallb typedResponse l = true →
  ∃ steps, historyLoop h env i l = Ok steps ∧
    timelineOf (List.filter converted l) (concat (List.map emitted steps)).
Proof.
  revert i. induction l as [|r l IH]; intros i Ht.
  - exists []. split; [reflexivity|constructor].
  - apply andb_prop in Ht as [Hr Hl].
    destruct (historyStep_typed h (env i) r Hr) as (st & Hst & Hshape).
    destruct (IH (S i) Hl) as (steps & Hsteps & Htl).
    exists (st :: steps). cbn [historyLoop]. rewrite Hst, Hsteps.
    split; [reflexivity|]. cbn [List.filter List.map concat].
    destruct (converted r).
    + destruct Hshape as (u & a & -> & Hpair). by constructor.
    + by rewrite Hshape.
Qed.

Lemma forallb_filter {A} (p q : A → bool) (l : list A) :
  forallb p l = true → forallb p (List.filter q l) = true.
Proof.
  rewrite !forallb_forall. intros H x [Hx _]%filter_In. by apply H.
Qed.

Lemma forallb_perm {A} (p : A → bool) (l l' : list A) :
  Permutation l l' → forallb p l' = true → forallb p l = true.
Proof.
  rewrite !forallb_forall. intros Hp H x Hx. apply H.
  by eapply Permutation_in.
Qed.

(** The timeline built from a well-typed list: the responses kept by
    the filter, sorted, those with a blank message dropped. *)
Lemma buildTimeline_typed (h : host) (cur : value) (env : nat → iter_env)
    (rs : list value) :
  forallb typedResponse rs = true →
  ∃ msgs, buildTimeline h cur env (VArr rs) = Ok msgs ∧
    timelineOf
      (List.filter converted
         (sortedByDate h (List.filter (keptByFilter cur) rs)))
      msgs.
Proof.
  intros Ht. unfold buildTimeline, buildHistory, chatResponsesOf.
  rewrite (filterM_pure _ (keptByFilter cur)).
  2:{ intros r Hr. apply chatFilter_typed.
      rewrite forallb_forall in Ht. by apply Ht. }
  cbn [bind].
  assert (Hk : forallb typedResponse (List.filter (keptByFilter cur) rs) = true)
    by by apply forallb_filter.
  rewrite (sortByDate_typed h _ Hk). cbn [bind].
  destruct (historyLoop_typed h env 0
              (sortedByDate h (List.filter (keptByFilter cur) rs)))
    as (steps & -> & Htl).
  { eapply forallb_perm; [apply sortedByDate_perm|exact Hk]. }
  cbn [bind]. eauto.
Qed.

Lemma filter_perm {A} (p : A → bool) (l l' : list A) :
  Permutation l l' → Permutation (List.filter p l) (List.filter p l').
Proof.
  induction 1 as [|x l l' _ IH|x y l|l l' l'' _ IH1 _ IH2]; simpl.
  - reflexivity.
  - destruct (p x); [by constructor|done].
  - destruct (p x), (p y); try reflexivity. apply perm_swap.
  - by rewrite IH1.
Qed.

Lemma filter_filter_andb {A} (p q : A → bool) (l : list A) :
  List.filter q (List.filter p l) = List.filter (fun x => p x && q x) l.
Proof.
  induction l as [|x l IH]; [reflexivity|]. simpl.
  destruct (p x); simpl; [|exact IH]. destruct (q x); by rewrite IH.
Qed.

Lemma StronglySorted_filter {A} (R : A → A → Prop) (p : A → bool)
    (l : list A) :
  StronglySorted R l → StronglySorted R (List.filter p l).
Proof.
  induction 1 as [|x l Hs IH Hx]; simpl; [constructor|].
  destruct (p x); [|exact IH]. constructor; [exact IH|].
  rewrite Forall_forall in Hx |- *. intros y Hy%list_elem_of_In.
  apply filter_In in Hy as [Hy _]. by apply Hx, list_elem_of_In.
Qed.

Lemma survivors_perm (h : host) (cur : value) (rs : list value) :
  forallb typedResponse rs = true →
  Permutation
    (List.filter converted (sortedByDate h (List.filter (keptByFilter cur) rs)))
    (List.filter (fun r => negb (excludedFromChat cur r)) rs).
Proof.
  intros Ht. rewrite (filter_perm _ _ _ (sortedByDate_perm h _)).
  rewrite filter_filter_andb.
  erewrite filter_ext_in; [reflexivity|].
  intros r Hr. rewrite forallb_forall in Ht. specialize (Ht r Hr).
  destruct r; try discriminate. apply excluded_converted.
Qed.

Lemma timelineOf_in (rs : list value) (msgs : list message) (r : value) :
  timelineOf rs msgs → In r rs →
  ∃ u a, In a msgs ∧ historyPair r u a.
Proof.
  induction 1 as [|r' rs u a msgs Hp _ IH]; [done|].
  intros [->|Hr].
  - exists u, a. split; [|done]. right. by left.
  - destruct (IH Hr) as (u' & a' & Ha & Hp'). exists u', a'.
    split; [|done]. right. by right.
Qed.

Lemma timelineOf_agent (rs : list value) (msgs : list message) (m : message) :
  timelineOf rs msgs → In m msgs → msg_type_of m = Agent →
  ∃ r u, In r rs ∧ historyPair r u m.
Proof.
  induction 1 as [|r rs u a msgs Hp _ IH]; [done|].
  intros [<-|[<-|Hm]] Hty.
  - destruct Hp as (Hu & _). congruence.
  - exists r, u. split; [by left|done].
  - destruct (IH Hm Hty) as (r' & u' & Hr & Hp'). exists r', u'.
    split; [by right|done].
Qed.

(** Exclusion depends on nothing that normalization changes. *)
Lemma excluded_normalized (cur : value) (m m' : gmap jsstring value) :
  normalizeResponse (VObj m) = normalizeResponse (VObj m') →
  excludedFromChat cur (VObj m) = excludedFromChat cur (VObj m').
Proof.
  intros H.
  destruct (normalizeResponse_object (VObj m) eq_refl) as (n & Hn & Hk).
  destruct (normalizeResponse_object (VObj m') eq_refl) as (n' & Hn' & Hk').
  rewrite Hn, Hn' in H. injection H as <-. cbn [ownProps] in *.
  assert (Hid : m !! lit "id" = m' !! lit "id")
    by (by rewrite <- Hk, <- Hk').
  assert (Hic : m !! lit "input_content" = m' !! lit "input_content")
    by (by rewrite <- Hk, <- Hk').
  unfold excludedFromChat, idOf, userContent, userContentOf, getPropOpt.
  cbn [getProp bind]. by rewrite Hid, Hic.
Qed.

(** C7 (amended): from a list of response objects the timeline
    leaves out exactly those that have no identifier, that are the
    current response, whose user message is longer than 500 units or
    holds both marker strings, or whose user message is blank; each
    remaining response contributes its user message followed by its
    agent message, and with valid creation dates they stand oldest
    first. *)
Theorem chat_timeline_contents (h : host) (cur : value)
    (env : nat → iter_env) (rs : list value) :
  forallb typedResponse rs = true →
  ∃ msgs survivors,
    buildTimeline h cur env (VArr rs) = Ok msgs ∧
    timelineOf survivors msgs ∧
    Permutation survivors
      (List.filter (fun r => negb (excludedFromChat cur r)) rs) ∧
    (∀ r, In r rs → appearsIn msgs r ↔ excludedFromChat cur r = false) ∧
    (forallb (validDate h) rs = true →
     StronglySorted (olderOrSame h) survivors).
Proof.
  intros Ht.
  destruct (buildTimeline_typed h cur env rs Ht) as (msgs & Hb & Htl).
  pose proof (survivors_perm h cur rs Ht) as Hperm.
  set (survivors := List.filter converted
         (sortedByDate h (List.filter (keptByFilter cur) rs))) in *.
  exists msgs, survivors. repeat split; try done.
  - intros (m & Hm & Hty & Hresp).
    destruct (timelineOf_agent _ _ _ Htl Hm Hty) as (r' & u & Hr' & Hp).
    eapply Permutation_in in Hr'; [|exact Hperm].
    apply filter_In in Hr' as [Hr' Hex%negb_true_iff].
    destruct Hp as (_ & _ & _ & Hresp' & _).
    rewrite forallb_forall in Ht.
    pose proof (Ht r H) as Hr1. pose proof (Ht r' Hr') as Hr2.
    destruct r as [| | | | | |m1]; try discriminate.
    destruct r' as [| | | | | |m2]; try discriminate.
    rewrite <- Hex. apply excluded_normalized. congruence.
  - intros Hex.
    assert (Hin : In r survivors).
    { eapply Permutation_in; [symmetry; exact Hperm|].
      apply filter_In. split; [done|]. by rewrite Hex. }
    destruct (timelineOf_in _ _ _ Htl Hin) as (u & a & Ha & Hp).
    exists a. destruct Hp as (_ & Hty & _ & Hresp & _). done.
  - intros Hv. apply StronglySorted_filter, sortedByDate_sorted.
    by apply forallb_filter.
Qed.

Lemma chat_timeline_contents_witness :
  forallb typedResponse historyExample = true ∧
  ∃ msgs survivors,
    buildTimeline exampleHost (VLit "r9") (constEnv twoHoursLater)
      (VArr historyExample) = Ok msgs ∧
    timelineOf survivors msgs ∧
    Permutation survivors
      (List.filter (fun r => negb (excludedFromChat (VLit "r9") r))
         historyExample) ∧
    (∀ r, In r historyExample →
       appearsIn msgs r ↔ excludedFromChat (VLit "r9") r = false) ∧
    (forallb (validDate exampleHost) historyExample = true →
     StronglySorted (olderOrSame exampleHost) survivors).
Proof.
  split; [vm_compute; reflexivity|].
  apply (chat_timeline_contents exampleHost (VLit "r9")
           (constEnv twoHoursLater) historyExample).
  vm_compute. reflexivity.
Defined.

(** A response without an identifier meets none of the four listed
    grounds and is left out all the same. *)
Lemma chat_timeline_no_id_counterexample :
  ¬ excludesAsListed exampleHost (VLit "r9") (constEnv twoHoursLater)
      [withoutId].
Proof.
  intros H.
  assert (Hb : buildTimeline exampleHost (VLit "r9") (constEnv twoHoursLater)
                 (VArr [withoutId]) = Ok []) by (vm_compute; reflexivity).
  destruct (H [] Hb withoutId (or_introl eq_refl)) as [Hex _].
  assert (Habs : excludedAsListed (VLit "r9") withoutId = true).
  { apply Hex. by intros (m & [] & _). }
  vm_compute in Habs. discriminate Habs.
Qed.

Lemma chat_timeline_example :
  option_map (List.map msg_id)
    (match buildTimeline exampleHost (VLit "r9") (constEnv twoHoursLater)
             (VArr historyExample) with
     | Ok msgs => Some msgs
     | Throw => None
     end)
  = Some [VLit "user-r2"; VLit "r2"; VLit "user-r3"; VLit "r3"].
Proof. vm_compute. reflexivity. Qed.

(** ** Pairing of chat messages *)

Example failThenSucceed_types :
  ∃ st, runPage failThenSucceed = Ok st ∧
    List.map msg_type_of (timeline st) = [User; Error; User; Agent].
Proof. eexists. split; vm_compute; reflexivity. Qed.










Ltac step_res H :=
  match type of H with
  | bind ?m _ = Ok _ =>
      let E := fresh "E" in
      destruct m eqn:E; cbn [bind] in H; [|discriminate H]
  | (if ?b then _ else _) = Ok _ => destruct b eqn:?
  end.



















(** A 2xx reply with the body [null]: the handler catches the
    exception of [chatResponse.id] and queues the error message, but
    the updater queued before it throws when the page renders. *)
Example chat_null_body_crash :
  runPage [ EvSubmit (lit "question") 1704074400000;
            EvSubmitReply (success VNull) 1704074401000 ] = Throw.
Proof. vm_compute. reflexivity. Qed.

(** ** Values outside the data model

    Where a field has another type than the data model gives it the
    helpers of the page throw; the properties above that carry a typing
    premise exclude these inputs. *)

Example extractLatestCommentary_numeric_type :
  extractLatestCommentary (VArr [obj [(lit "type", VNum 5)]]) = Throw.
Proof. vm_compute. reflexivity. Qed.

Example buildTimeline_numeric_content :
  buildTimeline exampleHost (VLit "r9") (constEnv twoHoursLater)
    (VArr [obj [(lit "id", VLit "r3");
                (lit "input_content", VArr [obj [(lit "content", VNum 5)]])]])
  = Throw.
Proof. vm_compute. reflexivity. Qed.

Example isTerminal_shadowed_toString :
  isTerminal (obj [(lit "toString", VNum 1)]) = Throw.
Proof. vm_compute. reflexivity. Qed.

(** * Further properties *)

(** ** Agent naming *)

Lemma sepGo_weaken p s : sepGo p true s = true → sepGo p false s = true.
Proof. destruct s as [|c s]; cbn; [done|]. destruct (p c); cbn; [discriminate|done]. Qed.

Lemma sepGo_app_l p s t b : sepGo p b (s ++ t) = true → sepGo p b s = true.
Proof.
  revert b. induction s as [|c s IH]; intros b; cbn; [done|].
  destruct (p c); [|apply IH].
  intros [-> H]%andb_true_iff. cbn. eauto.
Qed.

Lemma sepGo_take p n s b : sepGo p b s = true → sepGo p b (take n s) = true.
Proof. intros H. apply (sepGo_app_l p _ (drop n s)). by rewrite take_drop. Qed.

Lemma sepGo_snoc p s e b :
  sepGo p b s = true → p e = false → sepGo p b (s ++ [e]) = true.
Proof.
  revert b. induction s as [|c s IH]; intros b; cbn.
  - intros _ ->. done.
  - destruct (p c); [|apply IH].
    intros [-> H]%andb_true_iff He. cbn. eauto.
Qed.

Lemma sepGo_head p s c : sepGo p true s = true → head s = Some c → p c = false.
Proof.
  destruct s as [|d s]; cbn; [done|]. destruct (p d) eqn:E; [discriminate|].
  intros _ [= <-]. done.
Qed.

Lemma sepGo_lookup p b s i c d :
  sepGo p b s = true → s !! i = Some c → s !! S i = Some d →
  p c = true → p d = false.
Proof.
  revert b i. induction s as [|x s IH]; intros b i; [done|].
  destruct i as [|i]; cbn.
  - intros H [= ->] Hd Hc. rewrite Hc in H.
    apply andb_true_iff in H as [_ H].
    apply (sepGo_head p s); [done|]. by destruct s; cbn in *.
  - destruct (p x); [intros [_ H]%andb_true_iff|intros H]; eauto.
Qed.

Lemma dropUnits_suffix p s : ∃ pre, s = pre ++ dropUnits p s.
Proof.
  induction s as [|c s [pre IH]]; [by exists []|]. cbn.
  destruct (p c); [|by exists []]. exists (c :: pre). cbn. by f_equal.
Qed.

Lemma dropUnits_sep p s :
  sepGo p false s = true → sepGo p true (dropUnits p s) = true.
Proof.
  induction s as [|c s IH]; [done|]. cbn. destruct (p c) eqn:E; cbn.
  - intros H. apply IH. by apply sepGo_weaken.
  - rewrite E. done.
Qed.

Lemma stripBoth_prefix p s : ∃ post, dropUnits p s = stripBoth p s ++ post.
Proof.
  unfold stripBoth. destruct (dropUnits_suffix p (rev (dropUnits p s))) as [pre E].
  exists (rev pre). rewrite <- rev_app_distr, <- E, rev_involutive. done.
Qed.

Lemma stripBoth_sep p s :
  sepGo p false s = true → sepGo p true (stripBoth p s) = true.
Proof.
  intros H. destruct (stripBoth_prefix p s) as [post E].
  apply (sepGo_app_l p _ post). rewrite <- E. by apply dropUnits_sep.
Qed.

Lemma stripBoth_Forall (P : N → Prop) p s : Forall P s → Forall P (stripBoth p s).
Proof.
  intros H. destruct (stripBoth_prefix p s) as [post E].
  destruct (dropUnits_suffix p s) as [pre E'].
  rewrite E' in H. apply Forall_app in H as [_ H]. rewrite E in H.
  by apply Forall_app in H as [H _].
Qed.

Lemma dashGo_sep b s : sepGo isDash b (dashGo b s) = true.
Proof.
  revert b. induction s as [|c s IH]; intros b; [done|]. cbn.
  destruct (isLowerAlnum c) eqn:E.
  - cbn. replace (isDash c) with false; [apply IH|].
    symmetry. unfold isDash, dash, isLowerAlnum in *.
    destruct (N.eqb_spec c 45) as [->|]; [discriminate|done].
  - destruct b; [apply IH|]. cbn. apply IH.
Qed.

Lemma dashGo_charset b s :
  Forall (fun c => isLowerAlnum c = true ∨ c = dash) (dashGo b s).
Proof.
  revert b. induction s as [|c s IH]; intros b; cbn; [constructor|].
  destruct (isLowerAlnum c) eqn:E; [constructor; auto|].
  destruct b; [apply IH|]. constructor; auto.
Qed.

Lemma sanitizeName_props (str : jsstring) :
  (length (sanitizeName str) ≤ 30)%nat ∧
  Forall (fun c => isLowerAlnum c = true ∨ c = dash) (sanitizeName str) ∧
  sepGo isDash true (sanitizeName str) = true.
Proof.
  unfold sanitizeName. split; [rewrite length_take; lia|]. split.
  - apply Forall_take, stripBoth_Forall, dashGo_charset.
  - apply sepGo_take, stripBoth_sep, dashGo_sep.
Qed.

(** X1: whatever the repository name, sanitizeName returns at most 30
    units, all of them lower-case letters, digits or dashes; the result
    does not start with a dash and holds no two dashes in a row.  (It
    can end with a dash, when the cut at 30 falls right after one.) *)
Theorem sanitizeName_shape (str : jsstring) :
  let r := sanitizeName str in
  (length r ≤ 30)%nat ∧
  Forall (fun c => isLowerAlnum c = true ∨ c = dash) r ∧
  head r ≠ Some dash ∧
  (∀ i, r !! i = Some dash → r !! S i ≠ Some dash) ∧
  sanitizeName (lit "My_Repo.js--") = lit "my-repo-js" ∧
  sanitizeName (lit "aaaaaaaaaaaaaaaaaaaaaaaaaaaaa.bbbbbbb")
    = lit "aaaaaaaaaaaaaaaaaaaaaaaaaaaaa-".
Proof.
  cbn zeta. destruct (sanitizeName_props str) as (Hl & Hc & Hsep).
  split; [done|]. split; [done|]. split; [|split].
  - intros H. by apply (sepGo_head _ _ _ Hsep) in H.
  - intros i Hi Hi'.
    by pose proof (sepGo_lookup _ _ _ _ _ _ Hsep Hi Hi' eq_refl).
  - split; vm_compute; reflexivity.
Qed.

Lemma wrap32_mod z : wrap32 z mod 2 ^ 32 = z mod 2 ^ 32.
Proof.
  unfold wrap32.
  rewrite Zminus_mod, Z.mod_mod by lia.
  rewrite <- Zminus_mod. f_equal. lia.
Qed.

Lemma wrap32_eq a b : a mod 2 ^ 32 = b mod 2 ^ 32 → wrap32 a = wrap32 b.
Proof.
  intros H. unfold wrap32. f_equal.
  rewrite (Z.add_mod a), (Z.add_mod b), H by lia. done.
Qed.

Lemma wrap32_range z : - 2 ^ 31 ≤ wrap32 z < 2 ^ 31.
Proof. unfold wrap32. pose proof (Z.mod_pos_bound (z + 2 ^ 31) (2 ^ 32)). lia. Qed.

Lemma hashStep_horner h c : hashStep h c = wrap32 (31 * h + Z.of_N c).
Proof.
  unfold hashStep. cbn zeta. rewrite Z.land_diag. apply wrap32_eq.
  rewrite <- Z.add_sub_swap.
  rewrite Zminus_mod, Zplus_mod, wrap32_mod, Zmult_mod, wrap32_mod.
  rewrite <- Zmult_mod, <- Zplus_mod, <- Zminus_mod. f_equal. lia.
Qed.

Lemma hashLoop_horner_from h k str :
  wrap32 h = wrap32 k →
  wrap32 (fold_left hashStep str h)
  = wrap32 (fold_left (fun h c => 31 * h + Z.of_N c) str k).
Proof.
  revert h k. induction str as [|c str IH]; intros h k H; cbn; [done|].
  apply IH. rewrite hashStep_horner.
  assert (wrap32 (wrap32 (31 * h + Z.of_N c)) = wrap32 (31 * h + Z.of_N c)) as ->.
  { apply wrap32_eq, wrap32_mod. }
  apply wrap32_eq.
  assert (h mod 2 ^ 32 = k mod 2 ^ 32) as E.
  { rewrite <- (wrap32_mod h), <- (wrap32_mod k), H. done. }
  rewrite (Zplus_mod (31 * h)), (Zplus_mod (31 * k)).
  rewrite (Zmult_mod 31 h), (Zmult_mod 31 k), E. done.
Qed.

Lemma hashLoop_int32 str : wrap32 (hashLoop str) = hashLoop str.
Proof.
  unfold hashLoop. destruct str as [|c str] using rev_ind; [done|].
  rewrite fold_left_app. cbn. rewrite hashStep_horner.
  apply wrap32_eq, wrap32_mod.
Qed.

(** X2: the loop of createShortHash computes the polynomial hash of
    the string with multiplier 31, reduced once to a signed 32-bit
    integer: wrapping after every step gives the same number as
    wrapping the exact sum at the end. *)
Theorem hashLoop_horner (str : jsstring) :
  hashLoop str = wrap32 (hornerHash str) ∧
  - 2 ^ 31 ≤ hashLoop str < 2 ^ 31.
Proof.
  split.
  - rewrite <- hashLoop_int32. by apply hashLoop_horner_from.
  - rewrite <- hashLoop_int32. apply wrap32_range.
Qed.

Lemma string_of_uint_digits d :
  Forall (fun c => isDigit c = true) (lit (NilEmpty.string_of_uint d)).
Proof. induction d; cbn; constructor; done. Qed.

Lemma decimal_digits z :
  0 ≤ z → decimal z ≠ [] ∧ Forall (fun c => isDigit c = true) (decimal z).
Proof.
  intros Hz. unfold decimal. destruct z as [|p|p]; [| |lia].
  - split; [done|]. repeat constructor.
  - cbn [Z.to_int NilZero.string_of_int]. unfold NilZero.string_of_uint.
    pose proof (Unsigned.to_uint_nonnil p) as Hn.
    pose proof (string_of_uint_digits (Pos.to_uint p)) as Hd.
    destruct (Pos.to_uint p); [done|..]; split; done.
Qed.

Lemma createShortHash_props (str : jsstring) :
  (1 ≤ length (createShortHash str) ≤ 4)%nat ∧
  Forall (fun c => isDigit c = true) (createShortHash str).
Proof.
  unfold createShortHash.
  destruct (decimal_digits (Z.abs (hashLoop str))) as [Hn Hd]; [lia|].
  split; [|by apply Forall_take].
  rewrite length_take. destruct (decimal _); [done|]. cbn [length]. lia.
Qed.

(** X3: createShortHash returns between one and four decimal digits,
    whatever the string (no sign, also for the most negative hash). *)
Theorem createShortHash_digits (str : jsstring) :
  let r := createShortHash str in
  (1 ≤ length r ≤ 4)%nat ∧ Forall (fun c => isDigit c = true) r ∧
  hashLoop (lit "polygenelubricants") = - 2 ^ 31 ∧
  createShortHash (lit "polygenelubricants") = lit "2147".
Proof.
  cbn zeta. destruct (createShortHash_props str) as [Hl Hd].
  split; [done|]. split; [done|]. split; vm_compute; reflexivity.
Qed.

(** X4: the name given to a new agent starts with [ut-], has between
    5 and 38 units, and consists of lower-case letters, digits and
    dashes only, whatever the owner and the repository name. *)
Theorem agentName_shape (owner name : jsstring) :
  let r := agentNameFor owner name in
  (∃ rest, r = lit "ut-" ++ rest) ∧
  (5 ≤ length r ≤ 38)%nat ∧
  Forall (fun c => isLowerAlnum c = true ∨ c = dash) r.
Proof.
  cbn zeta. unfold agentNameFor.
  destruct (sanitizeName_props name) as (Hl & Hc & _).
  destruct (createShortHash_props (owner ++ lit "/" ++ name)) as (Hl' & Hd).
  set (a := sanitizeName name) in *.
  set (b := createShortHash _) in *.
  split; [eauto|]. split.
  - rewrite !length_app. change (length (lit "ut-")) with 3%nat.
    change (length (lit "-")) with 1%nat. lia.
  - apply Forall_app. split.
    { repeat (constructor; [vm_compute; auto|]). constructor. }
    apply Forall_app. split; [done|].
    apply Forall_app. split.
    { repeat (constructor; [vm_compute; auto|]). constructor. }
    eapply Forall_impl; [exact Hd|]. intros c Hc'. left.
    unfold isDigit in Hc'. unfold isLowerAlnum. rewrite Hc'. by rewrite orb_true_r.
Qed.

(** ** The analysis prompt and the chat filter *)

Lemma includes_app_r s t n : includes t n = true → includes (s ++ t) n = true.
Proof.
  intros H. induction s as [|c s IH]; [done|].
  cbn [app includes]. rewrite IH. apply orb_true_r.
Qed.

Lemma analysisPrompt_marks repoUrl :
  tooLong (analysisPrompt repoUrl) = true ∧
  generatedPrompt (analysisPrompt repoUrl) = true.
Proof.
  unfold analysisPrompt, tooLong, generatedPrompt. split.
  - apply Nat.ltb_lt. rewrite !length_app.
    assert (500 < length (lit analysisSteps))%nat by (vm_compute; lia). lia.
  - apply andb_true_iff. split; [done|].
    rewrite app_assoc. apply includes_app_r. vm_compute. reflexivity.
Qed.

(** X5: the message getServerSideProps enqueues is kept out of the
    chat by the filter of loadChatHistory, for every repository
    address: a response whose first input content is that message is
    rejected, and either test of the filter alone would reject it (the
    message has more than 500 units, and it contains both [Clone] and
    the Step 1 heading). *)
Theorem analysisPrompt_filtered (h : host) (cur r : value) (repoUrl : jsstring) :
  inputContentOf r = Ok (VStr (analysisPrompt repoUrl)) →
  chatFilter h cur r = Ok false ∧
  tooLong (analysisPrompt repoUrl) = true ∧
  generatedPrompt (analysisPrompt repoUrl) = true.
Proof.
  intros Hin. split; [|apply analysisPrompt_marks].
  unfold chatFilter. destruct (truthy r); [|done]. cbn [negb].
  assert (∃ id, getProp r (lit "id") = Ok id) as [id ->].
  { unfold inputContentOf in Hin. destruct r; try discriminate; cbn; eauto.
    all: repeat case_match; eauto. }
  cbn [bind]. destruct (truthy id); [|done]. cbn [negb].
  destruct (strictEq id cur); [done|].
  rewrite Hin. cbn [bind].
  rewrite getProp_length_str. cbn [bind valueGt].
  destruct (analysisPrompt_marks repoUrl) as [Hl _].
  unfold tooLong in Hl. apply Nat.ltb_lt in Hl.
  replace (500 <? Z.of_nat (length (analysisPrompt repoUrl))) with true; [done|].
  symmetry. apply Z.ltb_lt. lia.
Qed.

Lemma analysisPrompt_filtered_witness :
  inputContentOf promptResponse
    = Ok (VStr (analysisPrompt (lit "https://github.com/o/n"))) ∧
  chatFilter exampleHost (VLit "r9") promptResponse = Ok false ∧
  tooLong (analysisPrompt (lit "https://github.com/o/n")) = true ∧
  generatedPrompt (analysisPrompt (lit "https://github.com/o/n")) = true.
Proof.
  split; [vm_compute; reflexivity|].
  apply (analysisPrompt_filtered exampleHost (VLit "r9") promptResponse
           (lit "https://github.com/o/n")).
  vm_compute. reflexivity.
Defined.

(** ** What the formatter returns *)

Lemma sepGo_word p w t b :
  Forall (fun c => p c = false) w → w ≠ [] →
  sepGo p b (w ++ t) = sepGo p false t.
Proof.
  intros Hw. revert b. induction Hw as [|c w Hc Hw IH]; intros b Hne; [done|].
  cbn. rewrite Hc. destruct w as [|d w]; [done|]. by apply IH.
Qed.

Lemma unwords_sep ws : Forall wordlike ws → sepGo isWS true (unwords ws) = true.
Proof.
  induction 1 as [|w ws [Hne Hw] Hws IH]; [done|].
  rewrite unwords_cons, (sepGo_word _ _ _ _ Hw Hne).
  destruct ws; [done|]. cbn [sepGo]. change (isWS space) with true.
  cbn [negb andb]. exact IH.
Qed.

Lemma unwords_spaces ws :
  Forall wordlike ws →
  Forall (fun c => isWS c = true → c = space) (unwords ws).
Proof.
  induction 1 as [|w ws [Hne Hw] Hws IH]; [constructor|].
  rewrite unwords_cons. apply Forall_app. split.
  - eapply Forall_impl; [exact Hw|]. cbn. intros c -> [=].
  - destruct ws; [constructor|]. constructor; [done|exact IH].
Qed.

Lemma unwords_nil ws : Forall wordlike ws → unwords ws = [] → ws = [].
Proof.
  intros H. destruct H as [|w ws [Hne _] _]; [done|].
  rewrite unwords_cons. by destruct w.
Qed.

Lemma formatCommentary_formatted s :
  ∃ r, formatCommentary (VStr s) = Ok r ∧ formatted s r.
Proof.
  rewrite formatCommentary_eq_spec. eexists; split; [reflexivity|].
  unfold formatCommentary_spec. cbn zeta.
  pose proof (words_wordlike s) as Hw.
  destruct (nonEmpty (unwords (words s))) eqn:Hne; cbn [negb].
  2:{ apply FmtNone. apply unwords_nil; [done|]. by destruct (unwords _). }
  assert (words s ≠ []) as Hws by (intros E; by rewrite E in Hne).
  destruct (length (unwords (words s)) <=? 140)%nat eqn:Hlen.
  { apply FmtWords; [done..|]. by apply Nat.leb_le. }
  apply Nat.leb_gt in Hlen.
  pose proof (groupSentences_grouplike _ Hw) as Hg.
  destruct (last (groupSentences (words s))) as [g|] eqn:Hlast.
  - destruct (length (unwords g) <=? 140)%nat eqn:Hlen'.
    + apply last_Some in Hlast as [pre Hlast]. rewrite Hlast in Hg.
      apply Forall_app in Hg as [_ Hg]. apply Forall_cons in Hg as [[Hgne Hg] _].
      apply FmtWords; [done..|]. by apply Nat.leb_le.
    + by apply FmtCut.
  - by apply FmtCut.
Qed.

Lemma truncated_sep cleaned :
  sepGo isWS true cleaned = true → sepGo isWS true (truncated cleaned) = true.
Proof. intros H. apply sepGo_snoc; [by apply sepGo_take|done]. Qed.

Lemma sep_singleSpaced s :
  sepGo isWS true s = true → Forall (fun c => isWS c = true → c = space) s →
  endsWS s = false → singleSpaced s.
Proof.
  intros Hs Hf He. split; [|split; [|split]].
  - intros H. by apply (sepGo_head _ _ _ Hs) in H.
  - intros H. unfold endsWS in He. by rewrite H in He.
  - intros c Hc. by eapply Forall_forall in Hf.
  - intros i Hi Hi'. by pose proof (sepGo_lookup _ _ _ _ _ _ Hs Hi Hi' eq_refl).
Qed.

Lemma formatted_sep s t :
  formatted s (VStr t) →
  sepGo isWS true t = true ∧ Forall (fun c => isWS c = true → c = space) t ∧
  (1 ≤ length t ≤ 140)%nat ∧ endsWS t = false.
Proof.
  inversion 1 as [|ws _ Hw Hne Hlen|cleaned -> Hlen]; subst.
  - split; [by apply unwords_sep|]. split; [by apply unwords_spaces|].
    destruct (unwords_last ws Hw Hne) as (J & c & E & Hc).
    split; [|unfold endsWS; by rewrite E, last_snoc].
    split; [|done]. rewrite E, length_app. cbn. lia.
  - pose proof (words_wordlike s) as Hw.
    split; [by apply truncated_sep, unwords_sep|].
    split.
    { apply Forall_app. split; [by apply Forall_take, unwords_spaces|].
      constructor; [intros [=]|constructor]. }
    destruct (truncated_shape (unwords (words s))) as [-> E]; [lia|].
    split; [lia|]. unfold endsWS. by rewrite E.
Qed.

Lemma words_nil_blank s : words s = [] ↔ Forall (fun c => isWS c = true) s.
Proof.
  induction s as [|c s IH]; [split; [constructor|done]|].
  cbn [words]. destruct (isWS c) eqn:E.
  - rewrite IH. split; [by constructor|]. by inversion 1.
  - split.
    + destruct (headIsWord s); [destruct (words s)|]; discriminate.
    + inversion 1; congruence.
Qed.

(** X6: for every string formatCommentary returns; the result is none
    exactly when the string is empty or all white space, and otherwise
    a text of 1 to 140 units on one line: it neither starts nor ends
    with a space, its only white space is the space character, and no
    two spaces follow each other. *)
Theorem formatCommentary_bounded (s : jsstring) :
  ∃ r, formatCommentary (VStr s) = Ok r ∧
       (r = VNull ↔ Forall (fun c => isWS c = true) s) ∧
       (r = VNull ∨
        ∃ t, r = VStr t ∧ (1 ≤ length t ≤ 140)%nat ∧ singleSpaced t).
Proof.
  destruct (formatCommentary_formatted s) as (r & E & Hf).
  exists r. split; [done|]. split.
  - rewrite <- words_nil_blank. split.
    + intros ->. by inversion Hf.
    + intros Hw. inversion Hf as [|ws Hs Hws Hne Hlen|cleaned Hc Hlen]; subst; [done..|].
      rewrite Hw in Hlen. cbn in Hlen. lia.
  - destruct r as [| | | |t| |]; try (by inversion Hf); [by left|].
    right. exists t. split; [done|].
    destruct (formatted_sep _ _ Hf) as (Hs & Hsp & Hl & He).
    split; [done|]. by apply sep_singleSpaced.
Qed.


Lemma collapseGo_sep b s :
  sepGo isWS b s = true → Forall (fun c => isWS c = true → c = space) s →
  collapseGo b s = s.
Proof.
  revert b. induction s as [|c s IH]; intros b; [done|].
  cbn. intros Hs Hf. apply Forall_cons in Hf as [Hc Hf].
  destruct (isWS c).
  - apply andb_true_iff in Hs as [Hb Hs]. destruct b; [done|].
    rewrite Hc by done. f_equal. by apply IH.
  - f_equal. by apply IH.
Qed.

Lemma trimStart_sep s : sepGo isWS true s = true → trimStart s = s.
Proof. destruct s as [|c s]; [done|]. cbn. by destruct (isWS c). Qed.

Lemma trimStart_rev s : endsWS s = false → trimStart (rev s) = rev s.
Proof.
  unfold endsWS. destruct s as [|c s] using rev_ind; [done|].
  rewrite last_snoc, rev_unit. cbn. by intros ->.
Qed.

Lemma formatted_fixed s t :
  formatted s (VStr t) → formatCommentary (VStr t) = Ok (VStr t).
Proof.
  intros Hf. destruct (formatted_sep _ _ Hf) as (Hs & Hsp & Hl & He).
  unfold formatCommentary.
  assert (truthy (VStr t) = true) as -> by (destruct t; [cbn in Hl; lia|done]).
  cbn [negb ToString bind]. unfold collapseWS.
  rewrite (collapseGo_sep false) by (done || by apply sepGo_weaken).
  unfold trim. rewrite (trimStart_sep t Hs), (trimStart_rev t He), rev_involutive.
  assert (nonEmpty t = true) as -> by (destruct t; [cbn in Hl; lia|done]).
  cbn [negb]. destruct (Nat.leb_spec (length t) 140); [done|lia].
Qed.

(** X7: formatting twice is formatting once: formatCommentary applied
    to its own result returns that result unchanged (also when the
    first pass truncated the text or kept only its last sentence). *)
Theorem formatCommentary_idempotent (s : jsstring) :
  (let* r := formatCommentary (VStr s) in formatCommentary r)
  = formatCommentary (VStr s).
Proof.
  destruct (formatCommentary_formatted s) as (r & E & Hf).
  rewrite E. cbn [bind]. destruct r as [| | | |t| |]; try (by inversion Hf).
  by eapply formatted_fixed.
Qed.

(** ** The result page *)

Lemma statusOf_lower response s :
  statusOf response = Ok s → toLowerCase s = s ∧ s ≠ [].
Proof.
  unfold statusOf, orElse.
  destruct (truthy (getPropOpt response (lit "status"))) eqn:Ht.
  - destruct (getPropOpt response (lit "status")) as [| | | |x| |];
      try discriminate.
    cbn. intros [= <-]. split; [apply toLowerCase_idem|].
    destruct x as [|c x]; [discriminate|]. intros E.
    by apply (proj1 (toLowerCase_nil _)) in E.
  - cbn. intros [= <-]. split; [by vm_compute|discriminate].
Qed.

(** X8: in the result card the chat section is rendered exactly when
    the status of the response, lower-cased (a missing status counts as
    [pending]), is [completed]; the condition throws exactly when
    reading the status does. *)
Theorem showsChat_completed (response : value) :
  showsChat response =
  let* status := statusOf response in
  Ok (bool_decide (status = lit "completed")).
Proof.
  unfold showsChat. destruct (statusOf response) as [s|] eqn:E; [|done].
  cbn [bind]. destruct (statusOf_lower _ _ E) as [Hl Hne].
  unfold isTerminal. cbn [truthy ToString bind].
  destruct s as [|c s]; [done|]. cbn [negb]. rewrite Hl. f_equal.
  destruct (decide (c :: s = lit "completed")) as [->|Hc]; [by vm_compute|].
  rewrite (bool_decide_eq_false_2 _ Hc).
  destruct (decide (c :: s = lit "failed")) as [->|Hf]; [by vm_compute|].
  destruct (decide (c :: s = lit "cancelled")) as [->|Hx]; [by vm_compute|].
  rewrite bool_decide_eq_false_2; [done|].
  rewrite elem_of_TERMINAL_STATUSES. tauto.
Qed.

Lemma pollTick_notKnownTerminal c reply st :
  (isPolling st = true → notKnownTerminal st) →
  isPolling (pollTick c reply st) = true → notKnownTerminal (pollTick c reply st).
Proof.
  intros Hinv. unfold pollTick, pollCatch.
  destruct reply as [|[] [body|]]; try (by destruct c).
  destruct (normalizeResponse_total body) as (data & -> & Ht).
  destruct c; cbn [negb andb]; [done|].
  destruct (truthy data) eqn:Hd; [|done].
  destruct (getProp_truthy data (lit "status") Hd) as [status Hs].
  rewrite Hs. cbn [bind].
  assert (getPropOpt data (lit "status") = status) as Hopt.
  { unfold getPropOpt. by rewrite Hs. }
  destruct (isTerminal status) as [[]|] eqn:Hterm; cbn [isPolling response];
    [done|..]; intros _; unfold notKnownTerminal; cbn [response];
    rewrite Hopt; unfold orElse.
  - destruct (truthy status); [by rewrite Hterm|by vm_compute].
  - destruct (truthy status) eqn:Hts; [by rewrite Hterm|].
    unfold isTerminal in Hterm. by rewrite Hts in Hterm.
Qed.

(** X9: from the state the page starts in and through any sequence of
    ticks of the primary polling engine (cancelled or not, whatever the
    replies), polling is on only while the status of the response held
    is not terminal: once a terminal status has been stored the engine
    is off, and it is never started on a terminal initial response. *)
Theorem polling_implies_not_terminal (initialResponse initialResponseId : value)
    (ticks : list (bool * fetch_result)) (st0 : poll_state) :
  initialPollState initialResponse initialResponseId = Ok st0 →
  isPolling (pollRun ticks st0) = true →
  notKnownTerminal (pollRun ticks st0).
Proof.
  intros Hinit.
  assert (Hst0 : isPolling st0 = true → notKnownTerminal st0).
  { unfold initialPollState in Hinit.
    destruct (normalizeResponse initialResponse) as [n|]; [|done].
    cbn [bind] in Hinit.
    destruct (truthy (derivedResponseId n initialResponseId)).
    - destruct (isTerminal _) as [t|] eqn:Ht; [|done].
      cbn [bind] in Hinit. injection Hinit as <-. cbn [isPolling].
      unfold notKnownTerminal. cbn [response]. rewrite Ht.
      by destruct t.
    - cbn [bind] in Hinit. by injection Hinit as <-. }
  clear Hinit. revert st0 Hst0. unfold pollRun.
  induction ticks as [|[c r] ticks IH]; intros st0 Hst0; [exact Hst0|].
  cbn [foldl]. apply IH. by apply pollTick_notKnownTerminal.
Qed.

Lemma polling_implies_not_terminal_witness :
  ∃ st0,
    initialPollState progressResponse (VLit "r1") = Ok st0 ∧
    isPolling (pollRun [(false, NetworkError)] st0) = true ∧
    notKnownTerminal (pollRun [(false, NetworkError)] st0).
Proof.
  eexists. split; [vm_compute; reflexivity|].
  split; [vm_compute; reflexivity|].
  apply (polling_implies_not_terminal progressResponse (VLit "r1")
           [(false, NetworkError)]);
    vm_compute; reflexivity.
Defined.

(** X10: in an agent message of the chat the thinking line, the
    failure line and the output exclude each other, and the
    busy-timeout notice excludes the failure line and the output; the
    failure line needs the status to be exactly [failed] and the output
    exactly [completed]; a message whose status is [busy_timeout] shows
    the notice and nothing else. *)
Theorem agentView_exclusive (msg : message) (v : agent_view) :
  agentView msg = Ok v →
  (is_Some (thinking v) → failureLine v = false ∧ shownOutput v = None) ∧
  (timeoutNotice v = true → failureLine v = false ∧ shownOutput v = None) ∧
  (failureLine v = true →
   shownOutput v = None ∧ msg_status msg = VLit "failed") ∧
  (is_Some (shownOutput v) → msg_status msg = VLit "completed") ∧
  (msg_status msg = VLit "busy_timeout" →
   v = {| thinking := None; timeoutNotice := true; failureLine := false;
          shownOutput := None |}).
Proof.
  intros H.
  assert (Hbusy : msg_status msg = VLit "busy_timeout" →
    v = {| thinking := None; timeoutNotice := true; failureLine := false;
           shownOutput := None |}).
  { intros Hs. unfold agentView in H. rewrite Hs in H.
    cbn in H. by injection H as <-. }
  assert (Hmain :
    (is_Some (thinking v) → failureLine v = false ∧ shownOutput v = None) ∧
    (timeoutNotice v = true → failureLine v = false ∧ shownOutput v = None) ∧
    (failureLine v = true →
     shownOutput v = None ∧ msg_status msg = VLit "failed") ∧
    (is_Some (shownOutput v) → msg_status msg = VLit "completed"));
    [|destruct Hmain as (H1 & H2 & H3 & H4); repeat split;
      [apply H1|apply H1|apply H2|apply H2|apply H3|apply H3|exact H4
      |exact Hbusy]; assumption].
  clear Hbusy. revert H. unfold agentView. cbn zeta.
  set (agentStatus := orElse (msg_status msg) (VLit "pending")).
  destruct (isTerminal agentStatus) as [t|]; [|done]. cbn [bind].
  set (term := t || strictEq agentStatus (VLit "busy_timeout")).
  set (busy := strictEq agentStatus (VLit "busy_timeout")
               || strictEq (msg_agentState msg) (VLit "slept")).
  assert (Hst : ∀ w, w ≠ lit "pending" → strictEq agentStatus (VStr w) = true →
                     msg_status msg = VStr w).
  { intros w Hw. unfold agentStatus, orElse.
    destruct (truthy (msg_status msg)).
    - destruct (msg_status msg); try done. cbn.
      by intros ->%bool_decide_eq_true_1.
    - cbn. by intros <-%bool_decide_eq_true_1. }
  assert (Hfc : strictEq agentStatus (VLit "failed") = true →
                strictEq agentStatus (VLit "completed") = false).
  { destruct agentStatus; try done. cbn.
    by intros ->%bool_decide_eq_true_1. }
  destruct term eqn:Hterm; cbn [negb].
  - intros [= <-]. cbn [thinking timeoutNotice failureLine shownOutput andb].
    split; [|split; [|split]].
    + by intros [? [=]].
    + destruct busy; cbn [negb andb]; [by rewrite !andb_false_r|done].
    + destruct busy; cbn [negb andb]; [by rewrite !andb_false_r|].
      rewrite !andb_true_r. intros Hf. rewrite (Hfc Hf).
      split; [done|]. by apply Hst.
    + destruct busy; cbn [negb andb];
        [rewrite !andb_false_r; by intros [? [=]]|].
      rewrite !andb_true_r.
      destruct (strictEq agentStatus (VLit "completed")) eqn:Hc;
        [|by intros [? [=]]].
      intros _. by apply Hst.
  - destruct (extractLatestCommentary _) as [c|]; [|done]. cbn [bind].
    destruct (formatCommentary c) as [f|]; [|done]. cbn [bind].
    intros [= <-]. cbn [thinking timeoutNotice failureLine shownOutput andb].
    split; [|split; [|split]]; try done.
Qed.

Lemma agentView_exclusive_witness :
  ∃ v,
    agentView (liveAgent (lit "why?") 1704074400000 freshPending (VLit "r2")
                 (VLit "pending")) = Ok v ∧
    (is_Some (thinking v) → failureLine v = false ∧ shownOutput v = None) ∧
    (timeoutNotice v = true → failureLine v = false ∧ shownOutput v = None) ∧
    (failureLine v = true →
     shownOutput v = None ∧ VLit "pending" = VLit "failed") ∧
    (is_Some (shownOutput v) → VLit "pending" = VLit "completed") ∧
    (VLit "pending" = VLit "busy_timeout" →
     v = {| thinking := None; timeoutNotice := true; failureLine := false;
            shownOutput := None |}).
Proof.
  eexists. split; [vm_compute; reflexivity|].
  apply (agentView_exclusive
           (liveAgent (lit "why?") 1704074400000 freshPending (VLit "r2")
              (VLit "pending"))).
  vm_compute. reflexivity.
Defined.

Lemma trimStart_blank s : Forall (fun c => isWS c = true) s → trimStart s = [].
Proof. induction 1 as [|c s Hc _ IH]; [done|]. cbn. by rewrite Hc. Qed.

Lemma trim_blank s : Forall (fun c => isWS c = true) s → trim s = [].
Proof. intros H. unfold trim. by rewrite (trimStart_blank s H). Qed.

(** X11: while the status of the response is not terminal and the
    setup is complete, the status line of the page is the formatted
    text of the last commentary entry of the segments (a one-line text
    of at most 140 units), and the sentence [Analyzing owner/name and
    running tests...] exactly when the segments hold no commentary. *)
Theorem statusMessage_progress (owner name : jsstring)
    (setupError agentName initialResponseId response : value)
    (status : jsstring) :
  statusOf response = Ok status →
  isTerminal (VStr status) = Ok false →
  missingSetup setupError agentName initialResponseId response = false →
  typedSegments (getPropOpt response (lit "segments")) = true →
  match find isCommentary
          (rev (match getPropOpt response (lit "segments") with
                | VArr l => l
                | _ => []
                end)) with
  | Some e =>
      ∃ t, statusMessage owner name setupError agentName initialResponseId
             response = Ok (VStr t) ∧
           formatCommentary (entryText e) = Ok (VStr t) ∧
           (1 ≤ length t ≤ 140)%nat ∧ singleSpaced t
  | None =>
      statusMessage owner name setupError agentName initialResponseId response
      = Ok (VStr (analyzing owner name))
  end.
Proof.
  intros Hst Hterm Hms Hty. unfold statusMessage, commentaryOf.
  rewrite Hst. cbn [bind]. rewrite Hterm. cbn [bind]. rewrite Hms.
  destruct (getPropOpt response (lit "segments")) as [| | | | |l|];
    try reflexivity.
  cbn [extractLatestCommentary].
  assert (Hrev : forallb typedEntry (rev l) = true).
  { apply forallb_forall. intros x Hx%in_rev.
    by eapply forallb_forall in Hty. }
  rewrite (scanCommentary_find _ Hrev). cbn [bind].
  destruct (find isCommentary (rev l)) as [e|] eqn:Hfind; [|reflexivity].
  apply find_some in Hfind as [_ He].
  unfold isCommentary in He.
  apply andb_true_iff in He as [_ He].
  destruct (entryText e) as [| | | |s| |]; try discriminate.
  destruct (formatCommentary_formatted s) as (r & Hr & Hf).
  rewrite Hr. cbn [bind].
  destruct r as [| | | |t| |]; try (by inversion Hf).
  - inversion Hf as [Hw| |]. apply words_nil_blank in Hw.
    by rewrite (trim_blank s Hw) in He.
  - destruct (formatted_sep _ _ Hf) as (Hs & Hsp & Hlen & Hend).
    exists t. split; [|split; [done|split; [done|by apply sep_singleSpaced]]].
    unfold orElse. destruct t; [cbn in Hlen; lia|done].
Qed.

Lemma statusMessage_progress_witness :
  statusOf progressResponse = Ok (lit "processing") ∧
  isTerminal (VLit "processing") = Ok false ∧
  missingSetup VNull (VLit "ut-n-1234") (VLit "r1") progressResponse = false ∧
  typedSegments (getPropOpt progressResponse (lit "segments")) = true ∧
  match find isCommentary
          (rev (match getPropOpt progressResponse (lit "segments") with
                | VArr l => l
                | _ => []
                end)) with
  | Some e =>
      ∃ t, statusMessage (lit "o") (lit "n") VNull (VLit "ut-n-1234")
             (VLit "r1") progressResponse = Ok (VStr t) ∧
           formatCommentary (entryText e) = Ok (VStr t) ∧
           (1 ≤ length t ≤ 140)%nat ∧ singleSpaced t
  | None =>
      statusMessage (lit "o") (lit "n") VNull (VLit "ut-n-1234") (VLit "r1")
        progressResponse
      = Ok (VStr (analyzing (lit "o") (lit "n")))
  end.
Proof.
  split; [vm_compute; reflexivity|]. split; [vm_compute; reflexivity|].
  split; [vm_compute; reflexivity|]. split; [vm_compute; reflexivity|].
  apply (statusMessage_progress (lit "o") (lit "n") VNull (VLit "ut-n-1234")
           (VLit "r1") progressResponse (lit "processing"));
    vm_compute; reflexivity.
Defined.

(** ** Polling, once more *)

(** X12: a tick of the primary polling engine is idempotent: the same
    reply delivered twice leaves the state the first delivery left
    (response, poll error and polling flag). *)
Theorem pollTick_idempotent (cancelled : bool) (reply : fetch_result)
    (st : poll_state) :
  pollTick cancelled reply (pollTick cancelled reply st)
  = pollTick cancelled reply st.
Proof.
  destruct cancelled; [by rewrite !pollTick_cancelled|].
  unfold pollTick, pollCatch.
  destruct reply as [|[] [body|]]; try reflexivity.
  destruct (normalizeResponse_total body) as (data & -> & _).
  cbn [negb andb]. destruct (truthy data); [|reflexivity].
  destruct (let* status := getProp data (lit "status") in isTerminal status)
    as [[]|]; reflexivity.
Qed.

Lemma chatPollTick_frame_map (cancelled : bool) (reply agentReply : fetch_result)
    (st : chat_poll_state) :
  ∃ g : message → message,
    chatMessages (chat_after (chatPollTick cancelled reply agentReply st))
      = List.map g (chatMessages st) ∧
    ∀ m, msg_id (g m) = msg_id m ∧ msg_type_of (g m) = msg_type_of m ∧
         msg_content (g m) = msg_content m ∧
         msg_timestamp (g m) = msg_timestamp m ∧
         (strictEq (msg_id m) (currentChatResponseId st) = false → g m = m).
Proof.
  assert (Hid : ∃ g : message → message,
    chatMessages st = List.map g (chatMessages st) ∧
    ∀ m, msg_id (g m) = msg_id m ∧ msg_type_of (g m) = msg_type_of m ∧
         msg_content (g m) = msg_content m ∧
         msg_timestamp (g m) = msg_timestamp m ∧
         (strictEq (msg_id m) (currentChatResponseId st) = false → g m = m)).
  { exists (fun m => m). split; [by rewrite List.map_id|done]. }
  assert (Hup : ∀ f : message → message,
    (∀ m, msg_id (f m) = msg_id m ∧ msg_type_of (f m) = msg_type_of m ∧
          msg_content (f m) = msg_content m ∧
          msg_timestamp (f m) = msg_timestamp m) →
    ∃ g : message → message,
      updateCurrent (currentChatResponseId st) f (chatMessages st)
        = List.map g (chatMessages st) ∧
      ∀ m, msg_id (g m) = msg_id m ∧ msg_type_of (g m) = msg_type_of m ∧
           msg_content (g m) = msg_content m ∧
           msg_timestamp (g m) = msg_timestamp m ∧
           (strictEq (msg_id m) (currentChatResponseId st) = false → g m = m)).
  { intros f Hf. eexists. split; [reflexivity|]. intros m. cbn beta.
    destruct (strictEq (msg_id m) (currentChatResponseId st)).
    - destruct (Hf m) as (? & ? & ? & ?). done.
    - done. }
  unfold chatPollTick. destruct reply as [|[] [body|]]; try exact Hid.
  destruct (normalizeResponse body) as [data|]; [|exact Hid].
  destruct (negb cancelled && truthy data); [|exact Hid].
  destruct (getProp data (lit "status")) as [status|]; [|exact Hid].
  destruct (pendingOrProcessing status && agentSlept agentReply).
  - cbn [chat_after chatStop chatMessages]. by apply Hup.
  - destruct (isTerminal status) as [[]|];
      cbn [chat_after chatStop chatMessages]; by apply Hup.
Qed.

(** X13: a tick of the chat polling engine keeps the number and the
    order of the messages and the id, type, content and timestamp of
    each; a message whose id is not the tracked response id is not
    touched at all (whatever the reply, and also when the message is
    reclassified as busy_timeout). *)
Theorem chatPollTick_frame (cancelled : bool) (reply agentReply : fetch_result)
    (st : chat_poll_state) :
  let after := chatMessages (chat_after (chatPollTick cancelled reply agentReply st)) in
  length after = length (chatMessages st) ∧
  ∀ i m, chatMessages st !! i = Some m →
    ∃ m', after !! i = Some m' ∧
      msg_id m' = msg_id m ∧ msg_type_of m' = msg_type_of m ∧
      msg_content m' = msg_content m ∧ msg_timestamp m' = msg_timestamp m ∧
      (strictEq (msg_id m) (currentChatResponseId st) = false → m' = m).
Proof.
  cbn zeta.
  destruct (chatPollTick_frame_map cancelled reply agentReply st) as (g & -> & Hg).
  split; [apply length_map|]. intros i m Hi. exists (g m).
  split; [|apply Hg].
  change (List.map g (chatMessages st)) with (g <$> chatMessages st).
  by rewrite list_lookup_fmap, Hi.
Qed.

(** X14: in the conversion loop of loadChatHistory the liveness query
    is sent exactly for a response that is converted, whose status is
    literally [pending] or [processing], whose created_at is a valid
    date and whose age is strictly more than 3600000 ms; and a message
    of the history has the status busy_timeout only when that query was
    sent and answered [slept], or when the service itself reported that
    status. *)
Theorem historyStep_stale_check (h : host) (e : iter_env) (resp : value)
    (st : history_step) :
  historyStep h e resp = Ok st →
  (askedAgent st = true ↔
   emitted st ≠ [] ∧
   ∃ status created d,
     getProp resp (lit "status") = Ok status ∧
     pendingOrProcessing status = true ∧
     getProp resp (lit "created_at") = Ok created ∧
     newDate h created = Ok (Some d) ∧
     STALE_MS < clock e - d) ∧
  (∀ m, In m (emitted st) → msg_status m = VLit "busy_timeout" →
     (askedAgent st = true ∧ agentSlept (stateReply e) = true)
     ∨ getProp resp (lit "status") = Ok (VLit "busy_timeout")).
Proof.
  unfold historyStep. intros H.
  repeat step_res H;
    try (injection H as <-; cbn [emitted askedAgent];
         by split; [split; [|intros [? _]]|]).
  injection H as <-. cbn [emitted askedAgent]. split.
  - split.
    + intros [Hp Hs]%andb_true_iff. split; [done|].
      match type of Hs with context [match ?o with Some _ => _ | None => _ end] =>
        destruct o as [d|] end; [|done].
      do 2 eexists. exists d. repeat split; try done. by apply Z.ltb_lt.
    + intros (_ & status & created & d & [= <-] & Hp & [= <-] & Hd & Hlt).
      rewrite Hp. cbn [andb]. 
      match goal with H : newDate h _ = Ok _ |- _ => rewrite Hd in H;
        injection H as <- end.
      cbn. by apply Z.ltb_lt.
  - intros m [<-|[<-|[]]]; cbn [msg_status]; [done|].
    destruct (_ && agentSlept _) eqn:Ha.
    + apply andb_true_iff in Ha as [-> ->]. by left.
    + intros ->. by right.
Qed.

Lemma historyStep_stale_check_witness :
  ∃ st,
    historyStep exampleHost twoHoursLater oldLowerPending = Ok st ∧
    (askedAgent st = true ↔
     emitted st ≠ [] ∧
     ∃ status created d,
       getProp oldLowerPending (lit "status") = Ok status ∧
       pendingOrProcessing status = true ∧
       getProp oldLowerPending (lit "created_at") = Ok created ∧
       newDate exampleHost created = Ok (Some d) ∧
       STALE_MS < clock twoHoursLater - d) ∧
    (∀ m, In m (emitted st) → msg_status m = VLit "busy_timeout" →
       (askedAgent st = true ∧ agentSlept (stateReply twoHoursLater) = true)
       ∨ getProp oldLowerPending (lit "status") = Ok (VLit "busy_timeout")).
Proof.
  eexists. split; [vm_compute; reflexivity|].
  apply (historyStep_stale_check exampleHost twoHoursLater oldLowerPending).
  vm_compute. reflexivity.
Defined.

(** ** The home page *)

Lemma splitOn_nosep sep s :
  Forall (fun p => Forall (fun c => (c =? sep)%N = false) p) (splitOn sep s).
Proof.
  induction s as [|c s IH]; [repeat constructor|].
  cbn. destruct (c =? sep)%N eqn:E; [by constructor|].
  destruct (splitOn sep s) as [|p ps]; [repeat constructor; done|].
  apply Forall_cons in IH as [Hp Hps]. constructor; [by constructor|done].
Qed.

Lemma splitOn_plain sep s :
  Forall (fun c => (c =? sep)%N = false) s → splitOn sep s = [s].
Proof.
  induction 1 as [|c s Hc Hs IH]; [done|]. cbn. by rewrite Hc, IH.
Qed.

Lemma splitOn_app sep s t :
  Forall (fun c => (c =? sep)%N = false) s →
  splitOn sep (s ++ sep :: t) = s :: splitOn sep t.
Proof.
  induction 1 as [|c s Hc Hs IH]; cbn.
  - by rewrite N.eqb_refl.
  - by rewrite Hc, IH.
Qed.

Lemma extractGitHubRepo_path (path : jsstring) (r : jsstring) :
  (match splitOn slash (stripBoth isSlash path) with
   | [owner; repo] =>
       if nonEmpty owner && nonEmpty repo
       then Some (lit "/" ++ owner ++ lit "/" ++ repo)
       else None
   | _ => None
   end) = Some r →
  ∃ owner repo, r = (lit "/" ++ owner ++ lit "/" ++ repo) ∧
    owner ≠ [] ∧ repo ≠ [] ∧ (slash ∉ owner) ∧ (slash ∉ repo).
Proof.
  pose proof (splitOn_nosep slash (stripBoth isSlash path)) as H.
  destruct (splitOn _ _) as [|owner [|repo [|]]]; try done.
  apply Forall_cons in H as [Ho H]. apply Forall_cons in H as [Hr _].
  destruct owner as [|a owner]; [done|]. destruct repo as [|b repo]; [done|].
  cbn [nonEmpty andb]. intros [= <-]. exists (a :: owner), (b :: repo).
  split; [reflexivity|]. split; [done|]. split; [done|].
  split; intros Hin.
  - eapply Forall_forall in Ho; [|exact Hin]. by rewrite N.eqb_refl in Ho.
  - eapply Forall_forall in Hr; [|exact Hin]. by rewrite N.eqb_refl in Hr.
Qed.

(** X15: whatever the input and whatever the URL parser answers, a
    route returned by extractGitHubRepo is [/owner/repo] with two
    non-empty segments that contain no slash. *)
Theorem extractGitHubRepo_shape (newURL : jsstring → option parsed_url)
    (value r : jsstring) :
  extractGitHubRepo newURL value = Some r →
  ∃ owner repo, r = (lit "/" ++ owner ++ lit "/" ++ repo) ∧
    owner ≠ [] ∧ repo ≠ [] ∧ (slash ∉ owner) ∧ (slash ∉ repo).
Proof.
  unfold extractGitHubRepo. cbn zeta.
  destruct (negb (nonEmpty (trim value))); [done|].
  destruct (newURL (trim value)) as [parsed|].
  - destruct (_ || _); [done|]. apply extractGitHubRepo_path.
  - destruct (_ || _); [done|]. apply extractGitHubRepo_path.
Qed.

Lemma startsWith_app_sep prefix o sep r :
  Forall (fun c => c ≠ sep) prefix →
  startsWith prefix (o ++ sep :: r) = startsWith prefix o.
Proof.
  intros Hp. revert o. induction Hp as [|c prefix Hc Hp IH]; intros o.
  - by destruct o.
  - destruct o as [|d o]; cbn.
    + destruct (N.eqb_spec c sep); [done|done].
    + by rewrite IH.
Qed.

Lemma startsWith_elem prefix s c :
  startsWith prefix s = true → c ∈ prefix → c ∈ s.
Proof.
  revert s. induction prefix as [|a prefix IH]; intros s; [by intros _ ?%elem_of_nil|].
  destruct s as [|b s]; [done|]. cbn.
  intros [->%N.eqb_eq H]%andb_true_iff [->|Hin]%elem_of_cons.
  - by left.
  - right. by apply IH.
Qed.

Lemma foldCase_fixed c d :
  (d < 65 ∨ 90 < d)%N → (d < 97 ∨ 122 < d)%N → foldCase c = d → c = d.
Proof.
  unfold foldCase. intros H1 H2.
  destruct (N.leb_spec 65 c), (N.leb_spec c 90); cbn; lia.
Qed.

Lemma startsWith_app_l p q s :
  startsWith (p ++ q) s = true → startsWith p s = true.
Proof.
  revert s. induction p as [|a p IH]; intros s; [done|].
  destruct s as [|b s]; [done|]. cbn.
  intros [-> H]%andb_true_iff. cbn. by apply IH.
Qed.

Lemma startsWithCI_name (p q : jsstring) (d : N) (owner rest : jsstring) :
  d ∈ p → (d < 65 ∨ 90 < d)%N → (d < 97 ∨ 122 < d)%N →
  Forall (fun c => c ≠ slash) p →
  Forall (fun c => c ≠ d) owner →
  startsWithCI (p ++ q) (owner ++ slash :: rest) = false.
Proof.
  intros Hd H1 H2 Hp Ho. apply not_true_is_false. intros H.
  unfold startsWithCI in H. apply startsWith_app_l in H.
  rewrite map_app in H. cbn [List.map] in H.
  change (foldCase slash) with slash in H.
  rewrite (startsWith_app_sep _ _ _ _ Hp) in H.
  apply (startsWith_elem _ _ d) in H; [|done].
  apply list_elem_of_In, in_map_iff in H as (c & Hc & Hin).
  apply (foldCase_fixed _ _ H1 H2) in Hc. subst c.
  apply list_elem_of_In in Hin. by eapply Forall_forall in Ho.
Qed.

Lemma dropUnits_id p s :
  match s with c :: _ => p c = false | [] => True end → dropUnits p s = s.
Proof. destruct s as [|c s]; [done|]. cbn. by intros ->. Qed.

Lemma startsWith_one a b s : startsWith [a] (b :: s) = (a =? b)%N.
Proof. cbn. apply andb_true_r. Qed.

(** X16: the short form is accepted: when the trimmed input is
    [owner/repo], is not a URL for the parser, the owner is non-empty
    without white space, [/], [:] or [.], and the repository name is
    non-empty without white space or [/], the route is
    [/owner/repo]. *)
Theorem extractGitHubRepo_short (newURL : jsstring → option parsed_url)
    (value owner repo : jsstring) :
  trim value = owner ++ lit "/" ++ repo →
  newURL (trim value) = None →
  owner ≠ [] → Forall (fun c => nameUnit c = true) owner →
  repo ≠ [] → Forall (fun c => repoUnit c = true) repo →
  extractGitHubRepo newURL value = Some (lit "/" ++ owner ++ lit "/" ++ repo).
Proof.
  intros Ht Hurl Hone Ho Hrne Hr. unfold extractGitHubRepo. cbn zeta.
  rewrite Hurl, Ht. change (lit "/" ++ repo) with (slash :: repo).
  assert (Hcolon : Forall (fun c => c ≠ 58%N) owner).
  { eapply Forall_impl; [exact Ho|]. intros c Hc ->. done. }
  assert (Hdot : Forall (fun c => c ≠ 46%N) owner).
  { eapply Forall_impl; [exact Ho|]. intros c Hc ->. done. }
  assert (Hos : Forall (fun c => (c =? slash)%N = false) owner).
  { eapply Forall_impl; [exact Ho|]. intros c Hc. unfold nameUnit in Hc.
    destruct (c =? slash)%N eqn:E; [|done].
    apply N.eqb_eq in E. subst c. done. }
  assert (Hrs : Forall (fun c => (c =? slash)%N = false) repo).
  { eapply Forall_impl; [exact Hr|]. intros c Hc. unfold repoUnit in Hc.
    destruct (c =? slash)%N eqn:E; [|done].
    apply N.eqb_eq in E. subst c. by rewrite andb_false_r in Hc. }
  assert (nonEmpty (owner ++ slash :: repo) = true) as -> by by destruct owner.
  cbn [negb].
  assert (Hci : ∀ p q d, d ∈ p → (d < 65 ∨ 90 < d)%N → (d < 97 ∨ 122 < d)%N →
            Forall (fun c => c ≠ slash) p → Forall (fun c => c ≠ d) owner →
            ∀ pq, pq = p ++ q →
            startsWithCI pq (owner ++ slash :: repo) = false).
  { intros p q d ? ? ? ? ? pq ->. by apply (startsWithCI_name p q d). }
  rewrite (Hci (lit "https:") [] 58%N), (Hci (lit "http:") [] 58%N),
    (Hci (lit "https:") (lit "//github.com/") 58%N
       ltac:(vm_compute; set_solver) ltac:(lia) ltac:(lia)
       ltac:(by repeat constructor) Hcolon (lit "https://github.com/"))
    by (done || lia || (vm_compute; set_solver) || by repeat constructor).
  cbn [orb]. unfold dropPrefixCI.
  rewrite (Hci (lit "http:") (lit "//github.com/") 58%N
             ltac:(vm_compute; set_solver) ltac:(lia) ltac:(lia)
             ltac:(by repeat constructor) Hcolon (lit "http://github.com/"))
    by done.
  rewrite (Hci (lit "github.com") (lit "/") 46%N
             ltac:(vm_compute; set_solver) ltac:(lia) ltac:(lia)
             ltac:(by repeat constructor) Hdot (lit "github.com/"))
    by done.
  assert (startsWith (lit "/") (owner ++ slash :: repo) = false) as ->.
  { destruct owner as [|c owner]; [done|].
    apply Forall_cons in Hos as [Hc _]. change (lit "/") with [slash].
    change ((c :: owner) ++ slash :: repo) with (c :: owner ++ slash :: repo).
    by rewrite startsWith_one, N.eqb_sym. }
  assert (stripBoth isSlash (slash :: owner ++ slash :: repo)
          = owner ++ slash :: repo) as ->.
  { unfold stripBoth. cbn [dropUnits]. change (isSlash slash) with true.
    cbn match. rewrite (dropUnits_id _ (owner ++ _)).
    2:{ destruct owner as [|c owner]; [done|]. cbn.
        by apply Forall_cons in Hos as [Hc _]. }
    rewrite dropUnits_id; [apply rev_involutive|].
    rewrite rev_app_distr. cbn [rev]. 
    destruct repo as [|b repo] using rev_ind; [done|].
    rewrite rev_unit. cbn. apply Forall_app in Hrs as [_ Hb].
    by apply Forall_cons in Hb as [Hb _]. }
  rewrite (splitOn_app _ _ _ Hos), (splitOn_plain _ _ Hrs).
  destruct owner; [done|]. destruct repo; [done|]. reflexivity.
Qed.

Lemma extractGitHubRepo_shape_witness :
  extractGitHubRepo noURL (lit "  github.com/facebook/react/ ")
    = Some (lit "/facebook/react") ∧
  ∃ owner repo, lit "/facebook/react" = (lit "/" ++ owner ++ lit "/" ++ repo) ∧
    owner ≠ [] ∧ repo ≠ [] ∧ (slash ∉ owner) ∧ (slash ∉ repo).
Proof.
  split; [vm_compute; reflexivity|].
  apply (extractGitHubRepo_shape noURL (lit "  github.com/facebook/react/ ")).
  vm_compute. reflexivity.
Defined.

Lemma extractGitHubRepo_short_witness :
  trim (lit " facebook/react ") = lit "facebook" ++ lit "/" ++ lit "react" ∧
  noURL (trim (lit " facebook/react ")) = None ∧
  lit "facebook" ≠ [] ∧ Forall (fun c => nameUnit c = true) (lit "facebook") ∧
  lit "react" ≠ [] ∧ Forall (fun c => repoUnit c = true) (lit "react") ∧
  extractGitHubRepo noURL (lit " facebook/react ")
    = Some (lit "/" ++ lit "facebook" ++ lit "/" ++ lit "react").
Proof.
  split; [vm_compute; reflexivity|]. split; [reflexivity|].
  split; [discriminate|].
  split; [repeat (constructor; [reflexivity|]); constructor|].
  split; [discriminate|].
  split; [repeat (constructor; [reflexivity|]); constructor|].
  apply (extractGitHubRepo_short noURL (lit " facebook/react ")
           (lit "facebook") (lit "react")).
  - vm_compute. reflexivity.
  - reflexivity.
  - discriminate.
  - repeat (constructor; [reflexivity|]); constructor.
  - discriminate.
  - repeat (constructor; [reflexivity|]); constructor.
Defined.

Lemma div_ltb (a b q : Z) : 0 < b → (a / b <? q) = (a <? b * q).
Proof.
  intros Hb. destruct (Z.ltb_spec (a / b) q), (Z.ltb_spec a (b * q)); try done.
  - pose proof (Z.div_le_lower_bound a b q Hb). lia.
  - pose proof (Z.div_lt_upper_bound a b q Hb). lia.
Qed.

Lemma div_range (a b lo hi : Z) :
  0 < b → b * lo ≤ a < b * (hi + 1) → lo ≤ a / b ≤ hi.
Proof.
  intros Hb [H1 H2]. split.
  - by apply Z.div_le_lower_bound.
  - pose proof (Z.div_lt_upper_bound a b (hi + 1) Hb H2). lia.
Qed.

(** X17: for a valid date formatTimeAgo depends on the age in
    milliseconds only: [just now] below one minute (also for a date in
    the future), minutes below one hour, hours below one day, days
    below seven days, and the host's short date from seven days on; the
    count shown is between 1 and 59 minutes, 1 and 23 hours, or 1 and 6
    days. *)
Theorem formatTimeAgo_buckets (h : host) (toLocaleDateString : option Z → jsstring)
    (now : Z) (dateString : value) (d : Z) :
  newDate h dateString = Ok (Some d) →
  formatTimeAgo h toLocaleDateString now dateString =
    Ok (if now - d <? 60000 then lit "just now"
        else if now - d <? 3600000
             then decimal ((now - d) / 60000) ++ lit "m ago"
        else if now - d <? 86400000
             then decimal ((now - d) / 3600000) ++ lit "h ago"
        else if now - d <? 604800000
             then decimal ((now - d) / 86400000) ++ lit "d ago"
        else toLocaleDateString (Some d)) ∧
  (60000 ≤ now - d < 3600000 → 1 ≤ (now - d) / 60000 ≤ 59) ∧
  (3600000 ≤ now - d < 86400000 → 1 ≤ (now - d) / 3600000 ≤ 23) ∧
  (86400000 ≤ now - d < 604800000 → 1 ≤ (now - d) / 86400000 ≤ 6).
Proof.
  intros Hd. unfold formatTimeAgo. rewrite Hd. cbn [bind].
  cbn [dateMinus floorDiv option_map numLt printNumber].
  set (diff := now - d).
  rewrite !div_ltb by lia.
  change (60000 * 1) with 60000. change (60000 * 60) with 3600000.
  change (3600000 * 24) with 86400000. change (86400000 * 7) with 604800000.
  split.
  - by repeat case_match.
  - split; [|split]; intros ?; apply div_range; lia.
Qed.

Lemma filterM_all {A} (p : A → res bool) (q : A → bool) (l : list A) :
  Forall (fun x => p x = Ok (q x)) l →
  filterM p l = Ok (List.filter q l).
Proof.
  induction 1 as [|a l Ha _ IH]; [reflexivity|].
  cbn [filterM List.filter]. rewrite Ha, IH. cbn [bind]. reflexivity.
Qed.

Lemma filterM_throw {A} (p : A → res bool) (l : list A) :
  Exists (fun x => p x = Throw) l → filterM p l = Throw.
Proof.
  induction 1 as [a l Ha|a l _ IH]; cbn [filterM].
  - by rewrite Ha.
  - rewrite IH. by destruct (p a).
Qed.

Lemma isHidden_hideAgent (hiddenAgents : list value) (a x : value) :
  isHidden (hideAgent hiddenAgents a) x = isHidden hiddenAgents x || strictEq a x.
Proof.
  unfold isHidden, hideAgent. rewrite existsb_app. cbn. by rewrite orb_false_r.
Qed.

(** X18: after hideAgent, a refresh of the recent tests that gets an
    answer whose tests are an array without null or undefined entries
    shows exactly the tests of the answer whose agent name is neither
    the one just hidden nor one hidden before, in the order of the
    answer; an answer whose tests are falsy empties the list; the list
    stays as it was when the answer cannot be filtered (the answer is
    null or undefined, its tests are truthy and no array, or one of
    the tests is null or undefined) and when the request failed. *)
Theorem hidden_agents_not_listed (hiddenAgents : list value)
    (agentName : jsstring) (recentTests : list value) :
  let hiddenAgents' := hideAgent hiddenAgents (VStr agentName) in
  let refresh reply := fetchRecentTests hiddenAgents' reply recentTests in
  let kept test :=
    negb (isHidden hiddenAgents (getPropOpt test (lit "agentName")))
    && negb (strictEq (VStr agentName)
               (getPropOpt test (lit "agentName"))) in
  (∀ data l,
     getProp data (lit "tests") = Ok (VArr l) →
     Forall (fun test => test ≠ VNull ∧ test ≠ VUndef) l →
     refresh (success data) = List.filter kept l) ∧
  (∀ data tests,
     getProp data (lit "tests") = Ok tests → truthy tests = false →
     refresh (success data) = []) ∧
  (∀ data,
     getProp data (lit "tests") = Throw
     ∨ (∃ tests, getProp data (lit "tests") = Ok tests ∧
          truthy tests = true ∧ isArray tests = false)
     ∨ (∃ l, getProp data (lit "tests") = Ok (VArr l) ∧
          Exists (fun test => test = VNull ∨ test = VUndef) l) →
     refresh (success data) = recentTests) ∧
  (∀ reply, failed reply = true → refresh reply = recentTests).
Proof.
  cbn zeta. unfold fetchRecentTests, success.
  split; [|split; [|split]].
  - intros data l -> Hl. cbn [bind orElse truthy].
    erewrite filterM_all; [reflexivity|].
    eapply Forall_impl; [exact Hl|]. intros test [Hn Hu]. cbn beta.
    unfold getPropOpt.
    destruct (getProp test (lit "agentName")) as [n|] eqn:E.
    + cbn [bind]. by rewrite isHidden_hideAgent, negb_orb.
    + by destruct test.
  - intros data tests -> Ht. cbn [bind]. unfold orElse. by rewrite Ht.
  - intros data [->|[(tests & -> & Ht & Ha)|(l & -> & Hl)]].
    + reflexivity.
    + cbn [bind]. unfold orElse. rewrite Ht. by destruct tests.
    + cbn [bind orElse truthy]. rewrite filterM_throw; [reflexivity|].
      eapply List.Exists_impl; [|exact Hl]. by intros test [->| ->].
  - by intros [|[] [body|]].
Qed.

(** The answer [twoTests] after the agent of its first test was
    hidden, and an answer that cannot be filtered. *)
Example hidden_agents_refresh :
  ∃ first second name,
    twoTests = [first; second] ∧
    getPropOpt first (lit "agentName") = VStr name ∧
    fetchRecentTests (hideAgent [] (VStr name))
      (success (obj [(lit "tests", VArr twoTests)])) [first] = [second] ∧
    fetchRecentTests (hideAgent [] (VStr name))
      (success (obj [(lit "tests", VArr [VNull])])) [first] = [first].
Proof.
  do 3 eexists. split; [reflexivity|].
  split; [vm_compute; reflexivity|].
  split; vm_compute; reflexivity.
Qed.

Lemma formatTimeAgo_buckets_witness :
  newDate exampleHost (VLit "2024-01-01T00:00:00Z") = Ok (Some 1704067200000) ∧
  formatTimeAgo exampleHost (fun _ => lit "Jan 1") 1704074400000
    (VLit "2024-01-01T00:00:00Z") =
    Ok (if 1704074400000 - 1704067200000 <? 60000 then lit "just now"
        else if 1704074400000 - 1704067200000 <? 3600000
             then decimal ((1704074400000 - 1704067200000) / 60000)
                  ++ lit "m ago"
        else if 1704074400000 - 1704067200000 <? 86400000
             then decimal ((1704074400000 - 1704067200000) / 3600000)
                  ++ lit "h ago"
        else if 1704074400000 - 1704067200000 <? 604800000
             then decimal ((1704074400000 - 1704067200000) / 86400000)
                  ++ lit "d ago"
        else lit "Jan 1") ∧
  (60000 ≤ 1704074400000 - 1704067200000 < 3600000 →
   1 ≤ (1704074400000 - 1704067200000) / 60000 ≤ 59) ∧
  (3600000 ≤ 1704074400000 - 1704067200000 < 86400000 →
   1 ≤ (1704074400000 - 1704067200000) / 3600000 ≤ 23) ∧
  (86400000 ≤ 1704074400000 - 1704067200000 < 604800000 →
   1 ≤ (1704074400000 - 1704067200000) / 86400000 ≤ 6).
Proof.
  split; [vm_compute; reflexivity|].
  apply (formatTimeAgo_buckets exampleHost (fun _ => lit "Jan 1")
           1704074400000 (VLit "2024-01-01T00:00:00Z") 1704067200000).
  vm_compute. reflexivity.
Defined.

(** ** API routes *)

(** X19: the relay handlers for the responses and the state of an
    agent and for a chat message answer 200 only for their own method,
    with the parameters present, and when the remote service answered
    with a 2xx status and a JSON body, which is then passed on
    unchanged; for a request they accept, a remote status outside 2xx
    is passed on as it is, with the remote text as details. *)
Theorem relays_pass_upstream (env : environment) (up : upstream_result) :
  (∀ failure method agent,
     let r := agentHandler failure method agent env up in
     (status_code r = 200 →
      method = lit "GET" ∧ truthy agent = true ∧
      ∃ status text v, up = UpstreamResponse status text (Ok v) ∧
        statusOk status = true ∧ json_body r = v) ∧
     (method = lit "GET" → truthy agent = true →
      unset (RA_APPS_UNITEST_ADMIN_TOKEN env) = false →
      unset (RA_HOST_URL env) = false → encodable agent = true →
      ∀ status text json,
        up = UpstreamResponse status text json → statusOk status = false →
        r = respond status (obj [(lit "error", VStr failure);
                                 (lit "details", VStr text)]))) ∧
  (∀ method reqBody r,
     chatHandler method reqBody env up = Ok r →
     (status_code r = 200 →
      method = lit "POST" ∧
      truthy (getPropOpt reqBody (lit "agentName")) = true ∧
      truthy (getPropOpt reqBody (lit "message")) = true ∧
      ∃ status text v, up = UpstreamResponse status text (Ok v) ∧
        statusOk status = true ∧ json_body r = v) ∧
     (∀ status text json,
        up = UpstreamResponse status text json → statusOk status = false →
        status_code r = 200 → False)).
Proof.
  split.
  - intros failure method agent. cbn zeta. unfold agentHandler.
    destruct (bool_decide (method = lit "GET")) eqn:Hm; cbn [negb];
      [apply bool_decide_eq_true_1 in Hm|
       apply bool_decide_eq_false_1 in Hm; by split].
    destruct (truthy agent); cbn [negb]; [|by split].
    destruct (unset (RA_APPS_UNITEST_ADMIN_TOKEN env)); cbn [orb]; [by split|].
    destruct (unset (RA_HOST_URL env)); [by split|].
    destruct (encodable agent); cbn [negb]; [|by split].
    destruct up as [|status text json]; [by split|].
    destruct (statusOk status) eqn:Hs; cbn [negb].
    + destruct json as [v|].
      * split; [|by intros _ _ _ _ _ ? ? ? [= <- _ _]; congruence].
        intros _. repeat split; try done. by exists status, text, v.
      * split; [done|]. by intros _ _ _ _ _ ? ? ? [= <- _ _]; congruence.
    + split; [cbn; by intros ->|].
      by intros _ _ _ _ _ ? ? ? [= <- <- _] _.
  - intros method reqBody r. unfold chatHandler.
    destruct (bool_decide (method = lit "POST")) eqn:Hm; cbn [negb];
      [apply bool_decide_eq_true_1 in Hm|by intros [= <-]].
    unfold getPropOpt.
    destruct (getProp reqBody (lit "agentName")) as [a|]; [|done].
    destruct (getProp reqBody (lit "message")) as [m|]; [|done].
    cbn [bind].
    destruct (truthy a); cbn [negb orb]; [|by intros [= <-]].
    destruct (truthy m); cbn [negb]; [|by intros [= <-]].
    destruct (_ || _); [by intros [= <-]|].
    destruct (encodable a); cbn [negb]; [|by intros [= <-]].
    destruct up as [|status text json]; [by intros [= <-]|].
    destruct (statusOk status) eqn:Hs; cbn [negb].
    + destruct json as [v|]; intros [= <-]; [|by split; [|intros ? ? ? [= <- _ _]; congruence]].
      split; [|by intros ? ? ? [= <- _ _]; congruence].
      intros _. repeat split; try done. by exists status, text, v.
    + intros [= <-]. split; [cbn; by intros ->|].
      intros ? ? ? _ _. cbn. by intros ->.
Qed.

(** X20: what a tick of the primary polling engine does with the answer
    of the relay for one response, for a request the relay accepts: a
    remote JSON body under a 2xx status is handled as if fetched
    directly; a remote failure or a status outside 2xx records the
    advisory and keeps the response; and a 2xx answer that is not JSON
    replaces the response held by the relay's error object (normalized,
    hence without status), clears the poll error and keeps polling. *)
Theorem poll_through_relay (agent responseId : value) (env : environment)
    (up : upstream_result) (st : poll_state) :
  truthy agent = true → truthy responseId = true → ensureEnv env = None →
  encodable (firstOf agent) = true → encodable (firstOf responseId) = true →
  pollTick false
    (fetched (responseHandler (lit "GET") agent responseId env up)) st
  = match up with
    | UpstreamResponse status text json =>
        if statusOk status then
          match json with
          | Ok v => pollTick false (success v) st
          | Throw =>
              {| response :=
                   obj [(lit "error", VLit "Unexpected response from RA API");
                        (lit "raw", VStr text);
                        (lit "segments", VArr []);
                        (lit "output_content", VArr [])];
                 pollError := None; isPolling := isPolling st |}
          end
        else {| response := response st; pollError := Some advisory;
                isPolling := isPolling st |}
    | UpstreamError =>
        {| response := response st; pollError := Some advisory;
           isPolling := isPolling st |}
    end.
Proof.
  intros Ha Hr He Hea Her. unfold responseHandler.
  rewrite bool_decide_eq_true_2 by done. rewrite Ha, Hr, He, Hea, Her.
  cbn [negb orb]. destruct up as [|status text json]; [reflexivity|].
  destruct (statusOk status) eqn:Hs; cbn [negb].
  - unfold fetched. cbn [status_code json_body respond].
    change (statusOk 200) with true.
    destruct json as [v|]; [reflexivity|].
    unfold pollTick.
    assert (normalizeResponse (unexpected text)
            = Ok (obj [(lit "error", VLit "Unexpected response from RA API");
                       (lit "raw", VStr text);
                       (lit "segments", VArr []);
                       (lit "output_content", VArr [])])) as ->.
    { vm_compute. reflexivity. }
    reflexivity.
  - unfold fetched. cbn [status_code json_body respond]. rewrite Hs. reflexivity.
Qed.

Lemma poll_through_relay_witness :
  truthy (VLit "ut-n-1234") = true ∧ truthy (VLit "r1") = true ∧
  ensureEnv configured = None ∧
  encodable (firstOf (VLit "ut-n-1234")) = true ∧
  encodable (firstOf (VLit "r1")) = true ∧
  pollTick false
    (fetched (responseHandler (lit "GET") (VLit "ut-n-1234") (VLit "r1")
                configured (UpstreamResponse 200 (lit "<html>") Throw)))
    pollingExample
  = {| response :=
         obj [(lit "error", VLit "Unexpected response from RA API");
              (lit "raw", VStr (lit "<html>"));
              (lit "segments", VArr []);
              (lit "output_content", VArr [])];
       pollError := None; isPolling := isPolling pollingExample |}.
Proof.
  split; [reflexivity|]. split; [reflexivity|].
  split; [vm_compute; reflexivity|]. split; [vm_compute; reflexivity|].
  split; [vm_compute; reflexivity|].
  apply (poll_through_relay (VLit "ut-n-1234") (VLit "r1") configured
           (UpstreamResponse 200 (lit "<html>") Throw) pollingExample);
    vm_compute; reflexivity.
Defined.

(** ** Recent tests *)

Lemma getPropOpt_serialized (m : gmap jsstring value) (k : jsstring) :
  getPropOpt (serialized (VObj m)) k = getPropOpt (VObj m) k.
Proof.
  unfold getPropOpt. cbn. rewrite lookup_omap.
  destruct (m !! k) as [[]|]; reflexivity.
Qed.

Lemma testOf_entry (agent latest t : value) :
  testOf agent latest = Ok (Some t) →
  ∃ m, t = VObj m ∧ entryOf agent t.
Proof.
  unfold testOf. intros H. repeat step_res H; try discriminate.
  injection H as <-. eexists. split; [reflexivity|].
  match goal with H : (_ && _) = true |- _ =>
    apply andb_true_iff in H as [Ho Hn] end.
  unfold entryOf. split; [|split].
  - match goal with H : getProp agent (lit "name") = _ |- _ => rewrite H end.
    reflexivity.
  - exact Ho.
  - exact Hn.
Qed.

Lemma agentEntry_entry (agent : value) (reply : fetch_result) (t : value) :
  agentEntry agent reply = Ok (Some t) →
  ∃ m, t = VObj m ∧ entryOf agent t.
Proof.
  unfold agentEntry. intros H. repeat step_res H; try discriminate.
  destruct reply as [|[] [[| | | | |[|r rs]|]|]]; try discriminate.
  destruct (let* latest := latestOf (r :: rs) in testOf agent latest)
    as [entry|] eqn:E'; [|discriminate].
  injection H as ->. step_res E'. by eapply testOf_entry.
Qed.

Lemma agentEntries_entries (replies : nat → fetch_result) (i : nat)
    (agents ts : list value) :
  agentEntries replies i agents = Ok ts →
  (length ts ≤ length agents)%nat ∧
  Forall (fun t => ∃ m agent, t = VObj m ∧ In agent agents ∧ entryOf agent t) ts.
Proof.
  revert i ts. induction agents as [|agent agents IH]; intros i ts; cbn.
  - intros [= <-]. split; [done|constructor].
  - intros H. repeat step_res H. injection H as <-.
    match goal with H : agentEntries _ _ _ = Ok ?l |- _ =>
      destruct (IH _ _ H) as [Hl Hf] end.
    assert (Hf' : Forall (fun t => ∃ m agent0, t = VObj m ∧
                    (agent = agent0 ∨ In agent0 agents) ∧ entryOf agent0 t) a0).
    { eapply Forall_impl; [exact Hf|]. intros t (m & ag & ? & ? & ?).
      exists m, ag. auto. }
    destruct a as [t|].
    + split; [cbn; lia|]. constructor; [|done].
      destruct (agentEntry_entry _ _ _ E) as (m & -> & He).
      exists m, agent. auto.
    + split; [lia|done].
Qed.

Lemma sequence_keyed {A B} (f : A → res B) (l : list A) (keyed : list (B * A)) :
  sequence (List.map (fun t => let* k := f t in Ok (k, t)) l) = Ok keyed →
  List.map snd keyed = l ∧ Forall (fun p => f p.2 = Ok p.1) keyed.
Proof.
  revert keyed. induction l as [|a l IH]; intros keyed; cbn.
  - intros [= <-]. split; [done|constructor].
  - destruct (f a) as [k|] eqn:Ha; [|done]. cbn [bind].
    destruct (sequence _) as [ks|]; [|done]. cbn [bind].
    intros [= <-]. destruct (IH ks eq_refl) as [Hm Hf]. split.
    + cbn. by rewrite Hm.
    + constructor; [done|exact Hf].
Qed.

Lemma sortNewestFirst_perm (h : host) (l sorted : list value) :
  sortNewestFirst h l = Ok sorted → Permutation sorted l.
Proof.
  unfold sortNewestFirst. destruct l as [|a [|b l]]; try by intros [= <-].
  intros H. step_res H. injection H as <-.
  destruct (sequence_keyed _ _ _ E) as [Hm _].
  rewrite <- Hm. apply Permutation_map, isort_perm.
Qed.

Lemma agentEntries_indexed (replies : nat → fetch_result) (i : nat)
    (agents ts : list value) :
  agentEntries replies i agents = Ok ts →
  ∃ ps : list (nat * value),
    List.map snd ps = ts ∧ NoDup (List.map fst ps) ∧
    Forall (fun p => ∃ m agent, p.2 = VObj m ∧ agents !! p.1 = Some agent ∧
                                entryOf agent p.2) ps.
Proof.
  revert i ts. induction agents as [|agent agents IH]; intros i ts; cbn.
  - intros [= <-]. exists []. repeat split; constructor.
  - intros H. repeat step_res H. injection H as <-.
    match goal with H : agentEntries _ _ _ = Ok ?l |- _ =>
      destruct (IH _ _ H) as (ps & Hs & Hn & Hf) end.
    set (shift := List.map (fun p : nat * value => (S p.1, p.2)) ps).
    assert (Hs' : List.map snd shift = a0).
    { subst shift. rewrite List.map_map. exact Hs. }
    assert (Hfst : List.map fst shift = List.map S (List.map fst ps)).
    { subst shift. by rewrite !List.map_map. }
    assert (Hn' : NoDup (List.map fst shift)).
    { rewrite Hfst. apply (NoDup_fmap_2 S). exact Hn. }
    assert (Hf' : Forall (fun p => ∃ m agent0, p.2 = VObj m ∧
                    (agent :: agents) !! p.1 = Some agent0 ∧
                    entryOf agent0 p.2) shift).
    { subst shift. apply Forall_forall.
      intros p (q & <- & Hq%list_elem_of_In)%list_elem_of_In%in_map_iff.
      eapply Forall_forall in Hf; [|exact Hq]. exact Hf. }
    destruct a as [t|].
    + exists ((0%nat, t) :: shift). split; [cbn; by rewrite Hs'|]. split.
      * cbn [List.map fst]. apply NoDup_cons. split; [|exact Hn'].
        rewrite Hfst. intros (x & Hx & _)%list_elem_of_In%in_map_iff.
        discriminate Hx.
      * constructor; [|exact Hf'].
        destruct (agentEntry_entry _ _ _ E) as (m & -> & He).
        by exists m, agent.
    + by exists shift.
Qed.

Lemma Forall2_pairs {A B C} (R : A → C → Prop) (g : B → C)
    (ps : list (A * B)) :
  Forall (fun p => R p.1 (g p.2)) ps →
  Forall2 R (List.map fst ps) (List.map g (List.map snd ps)).
Proof. induction 1; cbn; constructor; auto. Qed.

(** X21: when the handler of the recent tests answers 200, the list
    it sends has at most 20 entries and at most one entry for each
    agent of the remote list: the entries stem from pairwise different
    positions of that list, and every entry names the agent at its
    position and carries a repository owner and name (agents without
    repository metadata, without responses or whose request failed are
    left out). *)
Theorem recentTests_listed (h : host) (method : jsstring) (env : environment)
    (agentsReply : fetch_result) (replies : nat → fetch_result) :
  let r := recentTestsHandler h method env agentsReply replies in
  status_code r = 200 →
  ∃ agentsData items tests positions,
    agentsReply = success agentsData ∧
    getProp agentsData (lit "items") = Ok items ∧
    json_body r = obj [(lit "tests", VArr tests)] ∧
    (length tests ≤ 20)%nat ∧
    (length tests ≤ length (match items with VArr l => l | _ => [] end))%nat ∧
    NoDup positions ∧
    Forall2 (fun i t =>
               ∃ agent,
                 (match items with VArr l => l | _ => [] end) !! i = Some agent ∧
                 entryOf agent t)
            positions tests.
Proof.
  cbn zeta. unfold recentTestsHandler.
  destruct (bool_decide (method = lit "GET")); cbn [negb]; [|done].
  destruct (ensureEnv env); [done|].
  destruct agentsReply as [|[] [agentsData|]]; try done.
  destruct (getProp agentsData (lit "items")) as [items|] eqn:Hi; [|done].
  cbn [bind].
  set (agents := match items with VArr l => l | _ => [] end).
  destruct (agentEntries replies 0 agents) as [entries|] eqn:He; [|done].
  cbn [bind].
  destruct (sortNewestFirst h entries) as [sorted|] eqn:Hs; [|done].
  intros _.
  destruct (agentEntries_entries _ _ _ _ He) as [Hlen _].
  destruct (agentEntries_indexed _ _ _ _ He) as (ps & Hps & Hn & Hf).
  pose proof (sortNewestFirst_perm _ _ _ Hs) as Hp.
  pose proof (Permutation_length Hp) as Hpl.
  rewrite <- Hps in Hp.
  destruct (Permutation_map_inv _ _ Hp) as (ps' & Hsorted & Hpp).
  exists agentsData, items, (List.map serialized (take 20 sorted)),
    (List.map fst (take 20 ps')).
  split; [done|]. split; [done|]. split; [done|].
  subst agents.
  rewrite length_map, length_take. split; [lia|]. split; [lia|]. split.
  - rewrite <- List.firstn_map.
    assert (Hn' : NoDup (List.map fst ps')).
    { assert (Hperm : List.map fst ps ≡ₚ List.map fst ps')
        by (by apply Permutation_map).
      by rewrite <- Hperm. }
    eapply sublist_NoDup; [exact Hn'|apply sublist_take].
  - rewrite Hsorted, List.firstn_map. apply Forall2_pairs.
    apply Forall_forall. intros p Hp'.
    assert (Hin : p ∈ ps).
    { rewrite Hpp. rewrite <- (take_drop 20 ps'). apply elem_of_app. by left. }
    eapply Forall_forall in Hf; [|exact Hin].
    destruct Hf as (m & agent & Hm & Ha & Hname & Ho & Hnm).
    exists agent. split; [exact Ha|]. rewrite Hm in *. unfold entryOf.
    by rewrite !getPropOpt_serialized.
Qed.

Lemma StronglySorted_newer (h : host) (ks : list (option Z * value)) :
  Forall (fun p => p.1 = option_map Z.opp (updatedAt h p.2)) ks →
  StronglySorted keyLe ks → StronglySorted (newerOrSame h) (List.map snd ks).
Proof.
  intros Hk Hs. induction Hs as [|x l Hs IH Hx]; [constructor|].
  apply Forall_cons in Hk as [Hkx Hk]. cbn. constructor; [by apply IH|].
  apply Forall_forall. intros b (y & <- & Hy)%list_elem_of_In%in_map_iff.
  apply list_elem_of_In in Hy.
  eapply Forall_forall in Hx; [|exact Hy].
  eapply Forall_forall in Hk; [|exact Hy].
  unfold keyLe in Hx. unfold newerOrSame. rewrite Hkx, Hk in Hx.
  destruct (updatedAt h x.2), (updatedAt h y.2); cbn in *; try done. lia.
Qed.

(** X22: the sort of the recent tests returns a permutation of the
    entries, and when every updatedAt is a valid date the entries are
    ordered from the most recently updated to the least. *)
Theorem sortNewestFirst_sorted (h : host) (l sorted : list value) :
  sortNewestFirst h l = Ok sorted →
  Permutation sorted l ∧
  (Forall (fun t => is_Some (updatedAt h t)) l →
   StronglySorted (newerOrSame h) sorted).
Proof.
  intros H. split; [by eapply sortNewestFirst_perm|]. intros Hv.
  unfold sortNewestFirst in H. destruct l as [|a [|b l]].
  - injection H as <-. constructor.
  - injection H as <-. repeat constructor.
  - step_res H. injection H as <-.
    destruct (sequence_keyed _ _ _ E) as [Hm Hk].
    assert (Hk' : Forall (fun p => p.1 = option_map Z.opp (updatedAt h p.2)
                                   ∧ hasKey p) a0).
    { apply Forall_forall. intros p Hp.
      eapply Forall_forall in Hk; [|exact Hp].
      assert (is_Some (updatedAt h p.2)) as Hsome.
      { eapply Forall_forall in Hv; [exact Hv|]. rewrite <- Hm.
        apply list_elem_of_In, in_map, list_elem_of_In, Hp. }
      unfold recencyKey in Hk. unfold updatedAt, getPropOpt, hasKey in *.
      destruct (getProp p.2 (lit "updatedAt")) as [u|]; [|done].
      cbn [bind] in Hk. destruct (newDate h u) as [d|]; [|done].
      cbn [bind] in Hk. injection Hk as <-. split; [done|].
      destruct Hsome as [x ->]. by eexists. }
    apply StronglySorted_newer.
    + apply Forall_forall. intros p Hp.
      eapply Forall_forall in Hk'; [apply Hk'|].
      apply list_elem_of_In. eapply Permutation_in; [apply isort_perm|].
      by apply list_elem_of_In.
    + apply isort_sorted. eapply Forall_impl; [exact Hk'|]. by intros p [_ ?].
Qed.

Lemma recentTests_listed_witness :
  status_code (recentTestsHandler exampleHost (lit "GET") configured
                 (success (obj [(lit "items", VArr [exampleAgent])]))
                 (fun _ => exampleResponses)) = 200 ∧
  ∃ agentsData items tests positions,
    success (obj [(lit "items", VArr [exampleAgent])]) = success agentsData ∧
    getProp agentsData (lit "items") = Ok items ∧
    json_body (recentTestsHandler exampleHost (lit "GET") configured
                 (success (obj [(lit "items", VArr [exampleAgent])]))
                 (fun _ => exampleResponses))
      = obj [(lit "tests", VArr tests)] ∧
    (length tests ≤ 20)%nat ∧
    (length tests ≤ length (match items with VArr l => l | _ => [] end))%nat ∧
    NoDup positions ∧
    Forall2 (fun i t =>
               ∃ agent,
                 (match items with VArr l => l | _ => [] end) !! i = Some agent ∧
                 entryOf agent t)
            positions tests.
Proof.
  split; [vm_compute; reflexivity|].
  apply (recentTests_listed exampleHost (lit "GET") configured
           (success (obj [(lit "items", VArr [exampleAgent])]))
           (fun _ => exampleResponses)).
  vm_compute. reflexivity.
Defined.

Lemma sortNewestFirst_sorted_witness :
  ∃ sorted,
    sortNewestFirst exampleHost twoTests = Ok sorted ∧
    Permutation sorted twoTests ∧
    (Forall (fun t => is_Some (updatedAt exampleHost t)) twoTests →
     StronglySorted (newerOrSame exampleHost) sorted).
Proof.
  eexists. split; [vm_compute; reflexivity|].
  apply (sortNewestFirst_sorted exampleHost twoTests).
  vm_compute. reflexivity.
Defined.

Lemma filterM_first {A} (p : A → res bool) (l kept : list A) :
  filterM p l = Ok kept →
  match kept with
  | c :: _ =>
      ∃ pre post, l = pre ++ c :: post ∧ p c = Ok true ∧
                  Forall (fun x => p x = Ok false) pre
  | [] => Forall (fun x => p x = Ok false) l
  end.
Proof.
  revert kept. induction l as [|a l IH]; intros kept; cbn.
  - intros [= <-]. constructor.
  - destruct (p a) as [keep|] eqn:Ha; [|done]. cbn [bind].
    destruct (filterM p l) as [rest|]; [|done]. cbn [bind].
    intros [= <-]. specialize (IH rest eq_refl). destruct keep.
    + exists [], l. split; [done|]. split; [done|constructor].
    + destruct rest as [|c rest'].
      * by constructor.
      * destruct IH as (pre & post & -> & Hc & Hpre).
        exists (a :: pre), post. split; [done|]. split; [done|].
        by constructor.
Qed.

(** X25: the response listed for an agent is the first one, in the
    order of the remote list, whose status is [completed] up to case,
    and the first response of the list, whatever its status, when no
    response is completed. *)
Theorem latestOf_first_completed (responses : list value) (latest : value) :
  latestOf responses = Ok latest →
  (∃ pre post, responses = pre ++ latest :: post ∧
     isCompleted latest = Ok true ∧
     Forall (fun r => isCompleted r = Ok false) pre)
  ∨ (Forall (fun r => isCompleted r = Ok false) responses ∧
     latest = default VUndef (head responses)).
Proof.
  unfold latestOf. intros H. step_res H. injection H as <-.
  pose proof (filterM_first _ _ _ E) as Hf.
  destruct a as [|c rest]; [by right|]. by left.
Qed.

Lemma latestOf_first_completed_witness :
  ∃ latest,
    latestOf threeResponses = Ok latest ∧
    getPropOpt latest (lit "id") = VLit "r2" ∧
    ((∃ pre post, threeResponses = pre ++ latest :: post ∧
        isCompleted latest = Ok true ∧
        Forall (fun r => isCompleted r = Ok false) pre)
     ∨ (Forall (fun r => isCompleted r = Ok false) threeResponses ∧
        latest = default VUndef (head threeResponses))).
Proof.
  eexists. split; [vm_compute; reflexivity|].
  split; [vm_compute; reflexivity|].
  apply (latestOf_first_completed threeResponses).
  vm_compute. reflexivity.
Defined.

(** ** Server-side preparation *)

Lemma indexKey_ne_id (i : nat) : indexKey i ≠ lit "id".
Proof.
  unfold indexKey. intros E.
  destruct (decimal_digits (Z.of_nat i)) as [_ Hd]; [lia|].
  rewrite E in Hd. by apply Forall_cons in Hd as [Hd _].
Qed.

Lemma ownProps_arr_id (l : list value) : ownProps (VArr l) !! lit "id" = None.
Proof.
  cbn [ownProps]. apply not_elem_of_list_to_map_1.
  intros (p & Hk & Hp)%list_elem_of_fmap.
  apply elem_of_lookup_imap in Hp as (i & x & -> & _).
  cbn in Hk. by apply (indexKey_ne_id i).
Qed.

Lemma normalized_id (v data : value) :
  normalizeResponse v = Ok data → getPropOpt data (lit "id") = getPropOpt v (lit "id").
Proof.
  destruct (isObject v) eqn:Ho.
  - destruct (normalizeResponse_object v Ho) as (m & -> & Hm).
    intros [= <-]. unfold getPropOpt at 1. cbn [getProp].
    rewrite Hm by discriminate.
    destruct v as [| | | | |l|m0]; try discriminate.
    + rewrite ownProps_arr_id. reflexivity.
    + reflexivity.
  - rewrite (normalizeResponse_nonobject v Ho). intros [= <-].
    by destruct v.
Qed.

Lemma reuseAgent_props (owner name repoUrl : jsstring) (repoStats : value)
    (rs : ssp_replies) (made : list action) (p : props) :
  reuseAgent owner name repoUrl repoStats rs = (made, Some p) →
  made ≠ [] ∧ p_setupError p = VNull ∧ truthy (p_agentName p) = true ∧
  getProp (p_response p) (lit "id") = Ok (p_responseId p).
Proof.
  unfold reuseAgent.
  destruct (listReply rs) as [|[] [page|]]; try discriminate.
  destruct (getProp page (lit "items")) as [items|]; [|discriminate].
  set (found := match items with VArr (x :: _) => x | _ => VNull end).
  destruct (truthy found && truthy (getPropOpt found (lit "name"))) eqn:Hf;
    [|discriminate].
  apply andb_true_iff in Hf as [_ Hn].
  destruct (encodable _); cbn [negb]; [|discriminate].
  assert (Hgiven : ∀ response made',
    made' ≠ [] →
    (made',
     match getProp response (lit "id") with
     | Ok id =>
         Some {| p_owner := owner; p_name := name; p_repoUrl := repoUrl;
                 p_agentName := getPropOpt found (lit "name");
                 p_response := response; p_responseId := id;
                 p_setupError := VNull; p_repoStats := repoStats |}
     | Throw => None
     end) = (made, Some p) →
    made ≠ [] ∧ p_setupError p = VNull ∧ truthy (p_agentName p) = true ∧
    getProp (p_response p) (lit "id") = Ok (p_responseId p)).
  { intros response made' Hne.
    destruct (getProp response (lit "id")) as [id|] eqn:Hid; [|discriminate].
    intros [= <- <-]. cbn. done. }
  destruct (responsesReply rs) as [|[] [[| | | | |[|latest l]|]|]];
    try discriminate;
    try (destruct (enqueueReply rs) as [|[] [response|]]; try discriminate);
    by apply Hgiven.
Qed.

Lemma createAgent_props (owner name repoUrl : jsstring) (repoStats : value)
    (rs : ssp_replies) (made : list action) (p : props) :
  createAgent owner name repoUrl repoStats rs = (made, PageProps p) →
  p_setupError p = VNull ∧ truthy (p_agentName p) = true ∧
  getProp (p_response p) (lit "id") = Ok (p_responseId p).
Proof.
  unfold createAgent.
  destruct (createReply rs) as [|[] ?]; try discriminate.
  destruct (firstReply rs) as [|[] [response|]]; try discriminate.
  destruct (getProp response (lit "id")) as [id|] eqn:Hid; [|discriminate].
  intros [= <- <-]. cbn. done.
Qed.

Lemma createAgent_made (owner name repoUrl : jsstring) (repoStats : value)
    (rs : ssp_replies) :
  (createAgent owner name repoUrl repoStats rs).1 ≠ [].
Proof. unfold createAgent. by destruct (createReply rs) as [|[] ?]. Qed.

Lemma truthy_orElse (a b : value) :
  truthy (orElse a b) = truthy a || truthy b.
Proof. unfold orElse. destruct (truthy a) eqn:E; [by rewrite E|done]. Qed.

(** X23: getServerSideProps sends a request to the agent service
    only after GitHub answered for the repository with a 2xx status
    and a body that does not mark it private, with both credentials
    set and a route of at least two segments; for a private or unknown
    repository no agent is looked up, created or given work. *)
Theorem getServerSideProps_guards (encodeURIComponent : jsstring → jsstring)
    (slug : list jsstring) (env : environment) (rs : ssp_replies)
    (made : list action) (r : ssp_result) :
  getServerSideProps encodeURIComponent slug env rs = Ok (made, r) →
  made ≠ [] →
  (2 ≤ length slug)%nat ∧
  (∃ repoInfo, githubReply rs = success repoInfo ∧
               truthy (getPropOpt repoInfo (lit "private")) = false) ∧
  unset (RA_APPS_UNITEST_ADMIN_TOKEN env) = false ∧
  unset (RA_HOST_URL env) = false.
Proof.
  unfold getServerSideProps.
  destruct slug as [|owner [|name slug]]; try (by intros [= <- _]).
  destruct (_ || _); [done|].
  unfold repoInfoOf.
  destruct (githubReply rs) as [|[] [repoInfo|]]; try (by intros [= <- _]).
  destruct (truthy (getPropOpt repoInfo (lit "private"))) eqn:Hp;
    [by intros [= <- _]|].
  destruct (unset (RA_APPS_UNITEST_ADMIN_TOKEN env)) eqn:Ht;
    [by intros [= <- _]|].
  destruct (unset (RA_HOST_URL env)) eqn:Hh; [by intros [= <- _]|].
  intros _ _. split; [cbn; lia|]. split; [by exists repoInfo|done].
Qed.

(** X24: props returned by getServerSideProps either report the
    missing credentials, with no agent, response or response id and no
    request made, or carry no setup error, a truthy agent name and the
    id of the response they hold; and the page built from them shows
    the missing-configuration card exactly when the credentials were
    missing or that id is falsy.  (Whether the framework accepts the
    props, which it does not when a value is [undefined], is outside
    the function.) *)
Theorem getServerSideProps_props (encodeURIComponent : jsstring → jsstring)
    (slug : list jsstring) (env : environment) (rs : ssp_replies)
    (made : list action) (p : props) :
  getServerSideProps encodeURIComponent slug env rs = Ok (made, PageProps p) →
  ((made = [] ∧ truthy (p_setupError p) = true ∧ p_agentName p = VNull ∧
    p_response p = VNull ∧ p_responseId p = VNull)
   ∨ (made ≠ [] ∧ p_setupError p = VNull ∧ truthy (p_agentName p) = true ∧
      getProp (p_response p) (lit "id") = Ok (p_responseId p))) ∧
  ∃ normalizedInitial,
    normalizeResponse (p_response p) = Ok normalizedInitial ∧
    missingSetup (p_setupError p) (p_agentName p) (p_responseId p)
      normalizedInitial
    = truthy (p_setupError p) || negb (truthy (p_responseId p)).
Proof.
  intros H.
  assert (Hcases :
    (made = [] ∧ truthy (p_setupError p) = true ∧ p_agentName p = VNull ∧
     p_response p = VNull ∧ p_responseId p = VNull)
    ∨ (made ≠ [] ∧ p_setupError p = VNull ∧ truthy (p_agentName p) = true ∧
       getProp (p_response p) (lit "id") = Ok (p_responseId p))).
  { unfold getServerSideProps in H.
    destruct slug as [|owner [|name slug]]; try discriminate.
    destruct (_ || _); [done|].
    destruct (repoInfoOf _) as [repoInfo|]; [|discriminate].
    destruct (_ || _).
    - injection H as <- <-. left. done.
    - destruct (reuseAgent _ _ _ _ rs) as [made0 [p0|]] eqn:Hr.
      + injection H as <- <-. right. by eapply reuseAgent_props.
      + destruct (createAgent _ _ _ _ rs) as [more r] eqn:Hc.
        injection H as <- ->. right.
        split; [|by eapply createAgent_props].
        pose proof (createAgent_made owner name
          (lit "https://github.com/" ++ encodeURIComponent owner
             ++ lit "/" ++ encodeURIComponent name)
          (obj [(lit "description",
                 orNull (getPropOpt repoInfo (lit "description")));
                (lit "language",
                 orNull (getPropOpt repoInfo (lit "language")))]) rs) as Hm.
        rewrite Hc in Hm. cbn in Hm. by destruct made0, more. }
  split; [exact Hcases|].
  destruct (normalizeResponse_total (p_response p)) as (data & Hd & _).
  exists data. split; [done|]. unfold missingSetup, derivedAgentName,
    derivedResponseId.
  rewrite (normalized_id _ _ Hd), !truthy_orElse. cbn [truthy].
  rewrite !orb_false_r.
  destruct Hcases as [(_ & Hs & Ha & Hr & Hi)|(_ & Hs & Ha & Hi)].
  - rewrite Hs. reflexivity.
  - rewrite Hs, Ha. cbn [truthy orb]. rewrite orb_true_r. cbn [negb orb].
    assert (getPropOpt (p_response p) (lit "id") = p_responseId p) as ->.
    { unfold getPropOpt. by rewrite Hi. }
    by rewrite orb_diag.
Qed.

Lemma getServerSideProps_guards_witness :
  ∃ made r,
    getServerSideProps (fun s => s) [lit "o"; lit "n"] configured newRepository
      = Ok (made, r) ∧
    made ≠ [] ∧
    (2 ≤ length [lit "o"; lit "n"])%nat ∧
    (∃ repoInfo, githubReply newRepository = success repoInfo ∧
                 truthy (getPropOpt repoInfo (lit "private")) = false) ∧
    unset (RA_APPS_UNITEST_ADMIN_TOKEN configured) = false ∧
    unset (RA_HOST_URL configured) = false.
Proof.
  do 2 eexists. split; [vm_compute; reflexivity|].
  split; [discriminate|].
  eapply (getServerSideProps_guards (fun s => s) [lit "o"; lit "n"]
            configured newRepository).
  - vm_compute. reflexivity.
  - discriminate.
Defined.

Lemma getServerSideProps_props_witness :
  ∃ made p,
    getServerSideProps (fun s => s) [lit "o"; lit "n"] configured newRepository
      = Ok (made, PageProps p) ∧
    ((made = [] ∧ truthy (p_setupError p) = true ∧ p_agentName p = VNull ∧
      p_response p = VNull ∧ p_responseId p = VNull)
     ∨ (made ≠ [] ∧ p_setupError p = VNull ∧ truthy (p_agentName p) = true ∧
        getProp (p_response p) (lit "id") = Ok (p_responseId p))) ∧
    ∃ normalizedInitial,
      normalizeResponse (p_response p) = Ok normalizedInitial ∧
      missingSetup (p_setupError p) (p_agentName p) (p_responseId p)
        normalizedInitial
      = truthy (p_setupError p) || negb (truthy (p_responseId p)).
Proof.
  do 2 eexists. split; [vm_compute; reflexivity|].
  eapply (getServerSideProps_props (fun s => s) [lit "o"; lit "n"]
            configured newRepository).
  vm_compute. reflexivity.
Defined.

